(** * Job_collection.py: the record store, the browser layer, the fallback
      data client and the collection orchestrator, embedded in Rocq.

    Python values are modelled as follows.
    - [str] is [string]; a character is a code point below 256, which is
      exact for the URLs, selectors and column names the code handles.
    - A call that may raise returns a [res]: [Ok v] or [Raised e].
    - Whatever the browser, the HTTP session, the clock or a parsing
      library answers is an input of the model: a field of an observation
      record or a method of a class, never a fixed value.
    - [set] is [gset string]. *)

From Stdlib Require Import String Ascii List ZArith QArith Lia Bool DecimalString.
From Stdlib Require Import Sorted DecimalPos.
From stdpp Require Import gmap strings.
Import ListNotations.
Open Scope string_scope.

(** stdpp freezes string concatenation under [simpl]; the proofs below
    compute with it. *)
#[global] Arguments String.append !_ _ / : simpl nomatch.

(* ================================================================== *)
(** * Part I: the embedding *)
(* ================================================================== *)

(** The result of a call that may raise; [e] is the exception's text. *)
Inductive res (A : Type) : Type :=
| Ok (a : A)
| Raised (e : string).
Arguments Ok {A} a.
Arguments Raised {A} e.

(** ** Python string primitives *)
Module Text.

(** [str.isspace] on code points below 256: TAB..CR, FS..US, space,
    NEL (0x85) and NBSP (0xA0). *)
Definition is_space (c : ascii) : bool :=
  let n := nat_of_ascii c in
  (((9 <=? n) && (n <=? 13)) || ((28 <=? n) && (n <=? 31)) ||
   (n =? 32) || (n =? 133) || (n =? 160))%nat.

(** [s.lstrip(chars)], [s.rstrip(chars)] for a set of characters given as
    a predicate. *)
Fixpoint lstrip_by (p : ascii -> bool) (s : string) : string :=
  match s with
  | EmptyString => EmptyString
  | String c s' => if p c then lstrip_by p s' else s
  end.

Fixpoint rstrip_by (p : ascii -> bool) (s : string) : string :=
  match s with
  | EmptyString => EmptyString
  | String c s' =>
      match rstrip_by p s' with
      | EmptyString => if p c then EmptyString else String c EmptyString
      | r => String c r
      end
  end.

(** [s.strip()] *)
Definition strip (s : string) : string := rstrip_by is_space (lstrip_by is_space s).

(** [s.rstrip("/")] *)
Definition rstrip_slash (s : string) : string :=
  rstrip_by (fun c => Ascii.eqb c "/") s.

(** [c.lower()] on code points below 256: the ASCII capitals and the
    Latin-1 capitals 0xC0..0xDE, the sign 0xD7 apart. *)
Definition lower_char (c : ascii) : ascii :=
  let n := nat_of_ascii c in
  if (((65 <=? n) && (n <=? 90))
      || ((192 <=? n) && (n <=? 222) && negb (n =? 215)))%nat
  then ascii_of_nat (n + 32) else c.

Fixpoint lower (s : string) : string :=
  match s with
  | EmptyString => EmptyString
  | String c s' => String (lower_char c) (lower s')
  end.

(** [s.startswith(p)] *)
Fixpoint startswith (p s : string) : bool :=
  match p, s with
  | EmptyString, _ => true
  | String a p', String b s' => Ascii.eqb a b && startswith p' s'
  | String _ _, EmptyString => false
  end.

(** [p in s] *)
Fixpoint contains (p s : string) : bool :=
  startswith p s ||
  match s with
  | EmptyString => false
  | String _ s' => contains p s'
  end.

(** Truthiness of a string: [bool(s)]. *)
Definition truthy (s : string) : bool :=
  match s with EmptyString => false | _ => true end.

(** [a or b] on strings. *)
Definition str_or (a b : string) : string := if truthy a then a else b.

End Text.

(** ** [_normalize_company_url] and its regular expression *)
Module Url.
Import Text.

(** A literal of the pattern matched under [re.IGNORECASE]: the pattern's
    characters are ASCII and its letters lower-case, so a text character
    below 256 matches when its lower-case form is the pattern character.
    Returns the text after the literal. *)
Fixpoint match_literal_ci (lit s : string) : option string :=
  match lit, s with
  | EmptyString, _ => Some s
  | String a lit', String b s' =>
      if Ascii.eqb a (lower_char b) then match_literal_ci lit' s' else None
  | String _ _, EmptyString => None
  end.

(** The class [[^/?#]]. *)
Definition slug_char (c : ascii) : bool :=
  negb (Ascii.eqb c "/" || Ascii.eqb c "?" || Ascii.eqb c "#").

(** Length of the greedy [[^/?#]*] at the head of [s]. *)
Fixpoint slug_span (s : string) : nat :=
  match s with
  | String c s' => if slug_char c then S (slug_span s') else 0
  | EmptyString => 0
  end.

(** [://www\.linkedin\.com/company/[^/?#]+] at the head of [s]: the number
    of characters matched. *)
Definition match_host_and_slug (s : string) : option nat :=
  match match_literal_ci "://www.linkedin.com/company/" s with
  | Some r =>
      match slug_span r with
      | 0 => None
      | n => Some (28 + n)
      end
  | None => None
  end.

(** The whole pattern [https?://www\.linkedin\.com/company/[^/?#]+]
    anchored at the head of [s]: the number of characters matched.  The
    optional [s] is tried first and given up when the rest fails. *)
Definition match_here (s : string) : option nat :=
  match match_literal_ci "http" s with
  | Some r =>
      let without_s := option_map (Nat.add 4) (match_host_and_slug r) in
      match match_literal_ci "s" r with
      | Some r' =>
          match match_host_and_slug r' with
          | Some n => Some (5 + n)
          | None => without_s
          end
      | None => without_s
      end
  | None => None
  end.

(** [re.search(pattern, u).group(1)]: the leftmost match. *)
Fixpoint search (u : string) : option string :=
  match match_here u with
  | Some n => Some (substring 0 n u)
  | None =>
      match u with
      | EmptyString => None
      | String _ u' => search u'
      end
  end.

(** The prefix the docstring names. *)
Definition company_root : string := "https://www.linkedin.com/company/".

Fixpoint all_chars (p : ascii -> bool) (s : string) : bool :=
  match s with
  | EmptyString => true
  | String c s' => p c && all_chars p s'
  end.

(** A slug: not empty, without [/], [?], [#] and white space. *)
Definition is_slug (slug : string) : bool :=
  truthy slug && all_chars (fun c => slug_char c && negb (is_space c)) slug.

(** What may follow the slug: nothing, or a path, a query or a fragment. *)
Definition is_suffix (rest : string) : bool :=
  match rest with
  | EmptyString => true
  | String c _ => negb (slug_char c)
  end.

(** The part of the pattern between the scheme and the slug. *)
Definition host_literal : string := "://www.linkedin.com/company/".

(** The pattern matches at the head of [s]: a scheme, the host and the
    first character of a slug, in any letter case. *)
Definition matches_at_head (s : string) : Prop :=
  exists scheme host c rest,
    s = scheme ++ host ++ String c rest /\
    (lower scheme = "http" \/ lower scheme = "https") /\
    lower host = host_literal /\ slug_char c = true.

Definition _normalize_company_url (url : string) : string :=
  let u := strip url in
  if negb (truthy u) then ""
  else match search u with
       | None => ""
       | Some g => rstrip_slash g ++ "/"
       end.

End Url.

(** ** [JobRecord] and [JobStore]: the CSV file and the dedupe indices *)
Module Store.
Import Text.

Record JobRecord := {
  run_at : string;
  posted_at : string;
  timestamp : string;
  jobID : string;
  title : string;
  company : string;
  location : string;
  workplace_type : string;
  seniority : string;
  employment_type : string;
  easy_apply : bool;
  job_description : string;
  job_url : string;
  search_position : string;
  search_location : string;
  company_about_url : string;
  company_size : string;
  associated_members : string
}.

(** A line of the file: its fields as text.  An empty field is what pandas
    reads as NaN; pandas' other NA markers and its numeric inference are
    not modelled, a field reads back as the text that was written.  That
    is what pandas does on a column of text and on a column of numerals
    with no field missing ([numeral] below); the statements that depend
    on the values read are made on such columns. *)
Definition row := list string.

(** The store file as [Path], [csv] and [pandas.read_csv] see it: its
    lines, the blank ones apart, which the reader skips and [add] never
    writes. *)
Inductive csv_file :=
| Absent                                   (* [not file_path.exists()] *)
| Blank                                    (* [st_size == 0] *)
| Garbled (lines : list row)               (* bytes [read_csv] raises on, and lines *)
| Sheet (header : row) (lines : list row). (* a header line and data lines *)

Record DataFrame := { columns : list string; rows : list row }.

Definition mem (c : string) (l : list string) : bool := existsb (String.eqb c) l.

(** Position of a column label: first occurrence. *)
Fixpoint col_index (c : string) (cols : list string) : option nat :=
  match cols with
  | [] => None
  | c' :: cols' => if String.eqb c c' then Some 0 else option_map S (col_index c cols')
  end.

(** A line cut or filled with NaN to [n] fields. *)
Fixpoint fit (n : nat) (r : row) : row :=
  match n with
  | 0 => []
  | S n' => match r with
            | [] => "" :: fit n' []
            | x :: r' => x :: fit n' r'
            end
  end.

(** The number of fields the tokenizer of pandas expects on every line:
    that of the header, or of the first data line when this one is longer. *)
Definition expected_fields (h : row) (ls : list row) : nat :=
  match ls with
  | [] => length h
  | first :: _ => Nat.max (length h) (length first)
  end.

(** [pd.read_csv(filename, encoding="utf-8")]: the first line gives the
    labels, taken as written (pandas renames a label that occurs twice).
    A short line is filled with NaN; a later line with more fields than
    expected is a tokenizing error; the fields a long first data line has
    in excess of the labels are leading index columns, outside the frame. *)
Definition read_csv (f : csv_file) : res DataFrame :=
  match f with
  | Absent => Raised "FileNotFoundError"
  | Blank => Raised "EmptyDataError"
  | Garbled _ => Raised "ParserError"
  | Sheet h ls =>
      let width := expected_fields h ls in
      if forallb (fun l => length l <=? width)%nat ls
      then Ok {| columns := h;
                 rows := map (fun l => skipn (width - length h) (fit width l)) ls |}
      else Raised "ParserError"
  end.

(** [df.to_csv(filename, index=False, encoding="utf-8")] *)
Definition to_csv (df : DataFrame) : csv_file := Sheet (columns df) (rows df).

(** [df[c]] row by row; NaN where the label is unknown (as [reindex] fills). *)
Definition cell_of (cols : list string) (c : string) (r : row) : string :=
  match col_index c cols with
  | Some i => nth i r ""
  | None => ""
  end.

Definition column (c : string) (df : DataFrame) : list string :=
  map (cell_of (columns df) c) (rows df).

Fixpoint set_nth (i : nat) (v : string) (r : row) : row :=
  match r, i with
  | [], _ => []
  | _ :: r', 0 => v :: r'
  | x :: r', S i' => x :: set_nth i' v r'
  end.

(** [df[c] = v]: overwrite the column, or add it as the last one. *)
Definition set_column (c v : string) (df : DataFrame) : DataFrame :=
  match col_index c (columns df) with
  | Some i => {| columns := columns df; rows := map (set_nth i v) (rows df) |}
  | None => {| columns := (columns df ++ [c])%list;
               rows := map (fun r => (fit (length (columns df)) r ++ [v])%list) (rows df) |}
  end.

(** [df.reindex(columns=wanted)] *)
Definition reindex (wanted : list string) (df : DataFrame) : DataFrame :=
  {| columns := wanted;
     rows := map (fun r => map (fun c => cell_of (columns df) c r) wanted) (rows df) |}.

Definition _header : list string :=
  [ "run_at"; "posted_at"; "timestamp"; "jobID"; "title"; "company";
    "location"; "workplace_type"; "seniority"; "employment_type";
    "easy_apply"; "job_description"; "job_url"; "search_position";
    "search_location";
    "company_about_url"; "company_size"; "associated_members" ].

Definition cannot_fetch : string := "cannot fetch".

Definition _ensure_header_or_upgrade (f : csv_file) : csv_file :=
  match f with
  | Absent | Blank => Sheet _header []
  | _ =>
      match read_csv f with
      | Raised _ => f
      | Ok df =>
          let wanted := _header in
          let missing := List.filter (fun c => negb (mem c (columns df))) wanted in
          match missing with
          | [] => f
          | _ =>
              let df := fold_left (fun d c => set_column c cannot_fetch d) missing df in
              let df := reindex wanted df in
              to_csv df
          end
      end
  end.

(** [list(dict.fromkeys(l))], [Series.unique()]: first occurrences, in order. *)
Fixpoint unique (l : list string) : list string :=
  match l with
  | [] => []
  | x :: l' => x :: List.filter (fun y => negb (String.eqb x y)) (unique l')
  end.

(** [Series.dropna()] *)
Definition dropna (l : list string) : list string := List.filter truthy l.

(** The second [read_csv] of [_load_saved_jobIDs], with [header=None] and
    six positional names: every line is data, a later line longer than
    the first is a tokenizing error, the fields the first line has in
    excess of six are leading index columns, and [jobID] is the second
    name. *)
Definition read_csv_positional_jobID (f : csv_file) : res (list string) :=
  match f with
  | Sheet h ls =>
      if forallb (fun l => length l <=? length h)%nat ls
      then Ok (map (fun l => nth (length h - 6 + 1) l "") (h :: ls))
      else Raised "ParserError"
  | Absent => Raised "FileNotFoundError"
  | Blank => Raised "EmptyDataError"
  | Garbled _ => Raised "ParserError"
  end.

(** [_load_saved_jobIDs]; [astype(str)] gives the fields as text (see
    [row]). *)
Definition _load_saved_jobIDs (f : csv_file) : option (list string) :=
  match f with
  | Absent => None
  | _ =>
      match read_csv f with
      | Raised _ => None
      | Ok df =>
          if mem "jobID" (columns df)
          then Some (unique (dropna (column "jobID" df)))
          else match read_csv_positional_jobID f with
               | Ok ids => Some (unique (dropna ids))
               | Raised _ => None
               end
      end
  end.

(** [set(l or [])] *)
Definition set_of (l : option (list string)) : gset string :=
  match l with
  | Some ids => list_to_set ids
  | None => ∅
  end.

(** [row[c]] on a row of [df.iterrows()]: [KeyError] for an unknown label. *)
Definition getitem (cols : list string) (c : string) (r : row) : res string :=
  match col_index c cols with
  | Some i => Ok (nth i r "")
  | None => Raised "KeyError"
  end.

(** One pass of the loop of [_load_checked_companies].  A NaN company is a
    float, never equal to a company name: it adds no name to the set. *)
Definition checked_row (cols : list string) (r : row) (acc : gset string) : res (gset string) :=
  let add_company :=
    match getitem cols "company" r with
    | Ok name => Ok (if truthy name then {[ name ]} ∪ acc else acc)
    | Raised e => Raised e
    end in
  match getitem cols "company_size" r with
  | Raised e => Raised e
  | Ok size =>
      if negb (String.eqb size cannot_fetch) then add_company
      else match getitem cols "associated_members" r with
           | Raised e => Raised e
           | Ok members =>
               if negb (String.eqb members cannot_fetch) then add_company else Ok acc
           end
  end.

Fixpoint checked_rows (cols : list string) (rs : list row) (acc : gset string) : res (gset string) :=
  match rs with
  | [] => Ok acc
  | r :: rs' =>
      match checked_row cols r acc with
      | Ok acc' => checked_rows cols rs' acc'
      | Raised e => Raised e
      end
  end.

Definition _load_checked_companies (f : csv_file) : gset string :=
  match f with
  | Absent => ∅
  | _ =>
      match read_csv f with
      | Raised _ => ∅
      | Ok df =>
          match checked_rows (columns df) (rows df) ∅ with
          | Ok checked => checked
          | Raised _ => ∅
          end
      end
  end.

Record JobStore := {
  file : csv_file;
  savedJobIDs : gset string;
  checked_companies : gset string
}.

(** [JobStore.__init__] on the file at [filename]. *)
Definition __init__ (f : csv_file) : JobStore :=
  let f' := _ensure_header_or_upgrade f in
  {| file := f';
     savedJobIDs := set_of (_load_saved_jobIDs f');
     checked_companies := _load_checked_companies f' |}.

Definition has (s : JobStore) (job_id : string) : bool :=
  bool_decide (job_id ∈ savedJobIDs s).

Definition company_already_checked (s : JobStore) (company_name : string) : bool :=
  bool_decide (company_name ∈ checked_companies s).

Definition str_of_bool (b : bool) : string := if b then "True" else "False".

Definition row_of (rec : JobRecord) : row :=
  [ run_at rec; posted_at rec; timestamp rec; jobID rec; title rec;
    company rec; location rec; workplace_type rec; seniority rec;
    employment_type rec; str_of_bool (easy_apply rec); job_description rec;
    job_url rec; search_position rec; search_location rec;
    company_about_url rec; company_size rec; associated_members rec ].

(** [open(filename, "a")] and [writerow]: a line at the end of the file;
    the file is created when it is not there. *)
Definition append_line (r : row) (f : csv_file) : csv_file :=
  match f with
  | Absent | Blank => Sheet r []
  | Garbled ls => Garbled (ls ++ [r])%list
  | Sheet h ls => Sheet h (ls ++ [r])%list
  end.

(** [JobStore.add]; [io] is what opening and writing the file answers:
    when it raises, nothing has been written and the indices are as
    before. *)
Definition add (rec : JobRecord) (io : res unit) (s : JobStore) : JobStore * res unit :=
  match io with
  | Raised e => (s, Raised e)
  | Ok _ =>
      let s1 := {| file := append_line (row_of rec) (file s);
                   savedJobIDs := {[ jobID rec ]} ∪ savedJobIDs s;
                   checked_companies := checked_companies s |} in
      let s2 :=
        if negb (String.eqb (company_size rec) cannot_fetch)
           || negb (String.eqb (associated_members rec) cannot_fetch)
        then {| file := file s1; savedJobIDs := savedJobIDs s1;
                checked_companies := {[ company rec ]} ∪ checked_companies s1 |}
        else s1 in
      (s2, Ok tt)
  end.

(** No two elements are equal. *)
Fixpoint distinct (l : list string) : bool :=
  match l with
  | [] => true
  | x :: l' => negb (mem x l') && distinct l'
  end.

(** Every row has one field for each label. *)
Definition rectangular (df : DataFrame) : Prop :=
  Forall (fun r => length r = length (columns df)) (rows df).

(** What the upgrade writes when some column is missing. *)
Definition upgraded (df : DataFrame) : DataFrame :=
  reindex _header
    (fold_left (fun d c => set_column c cannot_fetch d)
       (List.filter (fun c => negb (mem c (columns df))) _header) df).

(** The listing identifiers the file holds, as the index is rebuilt from
    it: the [jobID] column without its NaN. *)
Definition file_ids (f : csv_file) : list string :=
  match read_csv f with
  | Ok df => dropna (column "jobID" df)
  | Raised _ => []
  end.

(** The identifier each data line holds where [add] writes it, in the
    fourth field, whether or not the file can be read. *)
Definition line_ids (f : csv_file) : list string :=
  match f with
  | Absent | Blank => []
  | Garbled ls | Sheet _ ls => map (fun l => nth 3 l "") ls
  end.

(** The lines of the file; for a file that does not parse, the lines
    appended to it. *)
Definition line_count (f : csv_file) : nat :=
  match f with
  | Absent | Blank => 0
  | Garbled ls => length ls
  | Sheet _ ls => S (length ls)
  end.

(** A decimal digit. *)
Definition is_digit (c : ascii) : bool :=
  let n := nat_of_ascii c in ((48 <=? n) && (n <=? 57))%nat.

(** A listing identifier as LinkedIn gives them: a decimal numeral of at
    most 18 digits, without sign and without a leading zero.  A column
    of such fields, none of them missing, is what pandas reads as int64,
    and [astype(str)] gives each field back as it is written. *)
Definition numeral (s : string) : bool :=
  truthy s && Url.all_chars is_digit s && (String.length s <=? 18)%nat
  && (String.eqb s "0" || negb (startswith "0" s)).

(** The fields a sheet holds under the label [jobID], line by line. *)
Definition jobID_cells (f : csv_file) : list string :=
  match f with
  | Sheet h ls => map (cell_of h "jobID") ls
  | _ => []
  end.

(** The file has the canonical header, a field for every label on every
    line, no identifier twice, and the index knows every identifier of
    the file. *)
Definition indexed (s : JobStore) : Prop :=
  exists ls,
    file s = Sheet _header ls /\
    List.Forall (fun l => length l = length _header) ls /\
    List.NoDup (line_ids (file s)) /\
    forall id, In id (line_ids (file s)) -> id ∈ savedJobIDs s.

(** [indexed], and every identifier of the file satisfies [Q]. *)
Definition kept (Q : string -> bool) (s : JobStore) : Prop :=
  indexed s /\ List.Forall (fun id => Q id = true) (line_ids (file s)).

(** The file of [s1] holds the lines of the file of [s], with their
    identifiers in the same order, and maybe more after them. *)
Definition extends (s s1 : JobStore) : Prop :=
  exists new, line_ids (file s1) = (line_ids (file s) ++ new)%list.

(** A store this program wrote for listings of LinkedIn, under this
    schema or an older one: absent, empty, or a sheet with a field for
    every label on every line, a [jobID] column of numerals without
    duplicates, and the canonical header unless it lacks one of its
    columns.  On such a sheet what pandas reads in the [jobID] column is
    the text of its fields. *)
Definition well_formed (f : csv_file) : bool :=
  match f with
  | Absent | Blank => true
  | Garbled _ => false
  | Sheet h ls =>
      forallb (fun l => length l =? length h)%nat ls
      && mem "jobID" h
      && (negb (forallb (fun c => mem c h) _header) || bool_decide (h = _header))
      && forallb numeral (jobID_cells f)
      && distinct (jobID_cells f)
  end.

End Store.

(** ** [LinkedInAPIClient]: the two fallback endpoints *)
Module Api.
Import Text.

(** What [session.get] returns: [r.status_code] and [r.text or ""]. *)
Record Response := { status_code : Z; text : string }.

(** A value of [json.loads].  A dict is its items in insertion order, with
    distinct keys; a number is a rational. *)
#[warnings="-register-all"]
Inductive json :=
| JNull
| JBool (b : bool)
| JNum (q : Q)
| JStr (s : string)
| JArr (l : list json)
| JObj (items : list (string * json)).

(** The libraries the client calls into. *)
Class Parsers := {
  (** [json.loads(s)] *)
  json_loads : string -> res json;
  (** [BeautifulSoup(html, "html.parser")]: the exception the constructor
      raises on markup the parser rejects, [None] when it returns the
      tree.  The two methods below say what is read from the tree when
      the constructor has returned it. *)
  soup_raises : string -> option string;
  (** [BeautifulSoup(html, "html.parser").select_one(sel)], and on the
      element found [.get_text("\n", strip=True)]; [None] when no element
      matches. *)
  select_one_text : string -> string -> option string;
  (** [BeautifulSoup(html, "html.parser").get_text("\n", strip=True)] *)
  soup_get_text : string -> string;
  (** [html.unescape] *)
  unescape : string -> string;
  (** [datetime.fromtimestamp(secs).strftime("%Y-%m-%d %H:%M:%S")] in the
      local time zone, [secs] being seconds since the epoch. *)
  fromtimestamp_strftime : Q -> res string
}.

Section Client.
Context {parsers : Parsers}.

(** [_html_to_text]: the text of the tree.  Its constructor raises what
    [soup_raises] says; the one call, the last line of [fetch_guest_jd],
    parses a body that line 860 has parsed already. *)
Definition _html_to_text (html : string) : string := soup_get_text html.

(** [bool(x)] of a JSON value. *)
Definition json_truthy (x : json) : bool :=
  match x with
  | JNull => false
  | JBool b => b
  | JNum q => negb (Qeq_bool q 0)
  | JStr s => truthy s
  | JArr l => match l with [] => false | _ => true end
  | JObj m => match m with [] => false | _ => true end
  end.

(** [str(i)] for a list position. *)
Definition str_of_nat (i : nat) : string := NilEmpty.string_of_uint (Nat.to_uint i).

(** [walk] of [_find_long_strings]: the hits in visiting order. *)
Fixpoint walk (min_len : nat) (x : json) (path : string) : list (string * string) :=
  match x with
  | JObj items =>
      (fix over_items (items : list (string * json)) : list (string * string) :=
         match items with
         | [] => []
         | (k, v) :: items' =>
             (walk min_len v (if truthy path then path ++ "." ++ k else k)
              ++ over_items items')%list
         end) items
  | JArr l =>
      (fix over_list (i : nat) (l : list json) : list (string * string) :=
         match l with
         | [] => []
         | v :: l' =>
             (walk min_len v (path ++ "[" ++ str_of_nat i ++ "]")
              ++ over_list (S i) l')%list
         end) 0%nat l
  | JStr x =>
      let s := strip x in
      if (min_len <=? String.length s)%nat then [(path, s)] else []
  | _ => []
  end.

(** [hits.sort(key=lambda t: len(t[1]), reverse=True)]: a stable sort,
    longest first. *)
Fixpoint insert_by_len (h : string * string) (sorted : list (string * string))
  : list (string * string) :=
  match sorted with
  | [] => [h]
  | h' :: rest =>
      if (String.length (snd h') <? String.length (snd h))%nat
      then h :: sorted
      else h' :: insert_by_len h rest
  end.

Definition sort_by_len_desc (hits : list (string * string)) : list (string * string) :=
  fold_left (fun sorted h => insert_by_len h sorted) hits [].

Definition _find_long_strings (obj : json) (min_len : nat) : list (string * string) :=
  sort_by_len_desc (walk min_len obj "").

Definition _format_ms_epoch (ms : Q) : string :=
  match fromtimestamp_strftime (ms / 1000) with
  | Ok s => s
  | Raised _ => ""
  end.

(** [obj.get(k)] *)
Fixpoint dict_get (k : string) (items : list (string * json)) : option json :=
  match items with
  | [] => None
  | (k', v) :: items' => if String.eqb k k' then Some v else dict_get k items'
  end.

(** [isinstance(v, (int, float)) and v > 0]; [True] is an [int] equal to 1. *)
Definition positive_number (v : option json) : option Q :=
  match v with
  | Some (JNum q) => if Qlt_le_dec 0 q then Some q else None
  | Some (JBool true) => Some 1%Q
  | _ => None
  end.

Fixpoint first_at_keys (items : list (string * json)) (keys : list string) : option Q :=
  match keys with
  | [] => None
  | k :: keys' =>
      match positive_number (dict_get k items) with
      | Some v => Some v
      | None => first_at_keys items keys'
      end
  end.

Fixpoint _find_first_ms_by_keys_recursive (obj : json) (keys : list string) : option Q :=
  match obj with
  | JObj items =>
      match first_at_keys items keys with
      | Some v => Some v
      | None =>
          (fix over_values (items : list (string * json)) : option Q :=
             match items with
             | [] => None
             | (_, v) :: items' =>
                 match _find_first_ms_by_keys_recursive v keys with
                 | Some hit => Some hit
                 | None => over_values items'
                 end
             end) items
      end
  | JArr l =>
      (fix over_list (l : list json) : option Q :=
         match l with
         | [] => None
         | v :: l' =>
             match _find_first_ms_by_keys_recursive v keys with
             | Some hit => Some hit
             | None => over_list l'
             end
         end) l
  | _ => None
  end.

Definition _extract_posted_at (data : json) : string :=
  match _find_first_ms_by_keys_recursive data ["listedAt"] with
  | Some ts => _format_ms_epoch ts
  | None =>
      match _find_first_ms_by_keys_recursive data ["originalListedAt"] with
      | Some ts => _format_ms_epoch ts
      | None => ""
      end
  end.

(** The four containers tried by [fetch_guest_jd], in order. *)
Definition guest_selectors : list string :=
  [ "div.show-more-less-html__markup"; "div.description__text";
    "section.description"; "div.jobs-description__content" ].

(** The loop over [candidates]: the first container whose text is longer
    than 80 characters. *)
Fixpoint first_long_candidate (candidates : list (option string)) : option string :=
  match candidates with
  | [] => None
  | c :: rest =>
      match c with
      | Some txt =>
          if (80 <? String.length (strip txt))%nat then Some (strip txt)
          else first_long_candidate rest
      | None => first_long_candidate rest
      end
  end.

(** A container qualifies when it is found and its text, stripped, is
    longer than 80 characters. *)
Definition qualifies (c : option string) : bool :=
  match c with
  | Some txt => (80 <? String.length (strip txt))%nat
  | None => false
  end.

(** The request failed: a network error, a status other than 200, or a
    body that is empty once stripped. *)
Definition failed (http : res Response) : bool :=
  match http with
  | Raised _ => true
  | Ok r => negb (status_code r =? 200)%Z || negb (truthy (strip (text r)))
  end.

(** [fetch_guest_jd]; [http] is what [self.session.get(url, ...)] answers.
    The request is inside a [try]; the constructor of line 860 is not, and
    what it raises leaves the method.  ([self.session] is set when the
    client is built: the refresh of line 847 is not reached.) *)
Definition fetch_guest_jd (http : res Response) : res string :=
  match http with
  | Raised _ => Ok ""
  | Ok r =>
      if negb (status_code r =? 200)%Z || negb (truthy (strip (text r))) then Ok ""
      else
        match soup_raises (text r) with
        | Some e => Raised e
        | None =>
            let candidates := map (select_one_text (text r)) guest_selectors in
            match first_long_candidate candidates with
            | Some txt => Ok txt
            | None =>
                let txt := _html_to_text (text r) in
                Ok (if (80 <? String.length (strip txt))%nat then txt else "")
            end
        end
  end.

(** [re.sub(r"^for\s*\(\s*;;\s*\);\s*", "", raw)] *)
Definition strip_guard (raw : string) : string :=
  let skip := lstrip_by is_space in
  if startswith "for" raw then
    let r := skip (substring 3 (String.length raw) raw) in
    if startswith "(" r then
      let r := skip (substring 1 (String.length r) r) in
      if startswith ";;" r then
        let r := skip (substring 2 (String.length r) r) in
        if startswith ");" r then skip (substring 2 (String.length r) r)
        else raw
      else raw
    else raw
  else raw.

(** [fetch_voyager_json]; [{}] is [JObj []].  [r.json()] parses [r.text]. *)
Definition fetch_voyager_json (http : res Response) : res json :=
  match http with
  | Raised _ => Ok (JObj [])
  | Ok r =>
      if negb (status_code r =? 200)%Z || negb (truthy (strip (text r))) then Ok (JObj [])
      else
        let raw := strip_guard (strip (text r)) in
        match json_loads raw with
        | Ok data => Ok data
        | Raised _ =>
            match json_loads (text r) with
            | Ok data => Ok data
            | Raised _ => Ok (JObj [])
            end
        end
  end.

(** The payload is malformed: neither [json.loads] of the body without
    its guard nor [r.json()] parses it. *)
Definition malformed (http : res Response) : bool :=
  match http with
  | Raised _ => false
  | Ok r =>
      match json_loads (strip_guard (strip (text r))), json_loads (text r) with
      | Raised _, Raised _ => true
      | _, _ => false
      end
  end.

(** [re.sub(r"\n{3,}", "\n\n", s)]: [pending] newlines have been read and
    not yet written. *)
Definition newline : ascii := ascii_of_nat 10.

Definition flush_newlines (pending : nat) (rest : string) : string :=
  match pending with
  | 0 => rest
  | 1 => String newline rest
  | _ => String newline (String newline rest)
  end.

Fixpoint collapse_newlines_from (pending : nat) (s : string) : string :=
  match s with
  | EmptyString => flush_newlines pending EmptyString
  | String c s' =>
      if Ascii.eqb c newline then collapse_newlines_from (S pending) s'
      else flush_newlines pending (String c (collapse_newlines_from 0 s'))
  end.

Definition collapse_newlines (s : string) : string := collapse_newlines_from 0 s.

(** The description taken from the JSON payload, lines 913-929. *)
Definition jd_from_json (data : json) : string :=
  if json_truthy data then
    let hits := _find_long_strings data 200 in
    let best :=
      match find (fun h => contains "description" (lower (fst h))) (firstn 200 hits) with
      | Some h => snd h
      | None => ""
      end in
    let best :=
      if negb (truthy best) then
        match hits with
        | h :: _ => snd h
        | [] => best
        end
      else best in
    if truthy best then
      let best := unescape best in
      let best :=
        if contains "<" best && contains ">" best then soup_get_text best else best in
      let best := strip (collapse_newlines best) in
      if (80 <? String.length best)%nat then best else ""
    else ""
  else "".

(** Lines 925-928 on one string of the payload. *)
Definition clean_description (s : string) : string :=
  let best := unescape s in
  let best := if contains "<" best && contains ">" best then soup_get_text best else best in
  strip (collapse_newlines best).

(** Lines 915-922: the string chosen among the hits, empty when there is
    no hit. *)
Definition best_string (data : json) : string :=
  let hits := _find_long_strings data 200 in
  let best :=
    match find (fun h => contains "description" (lower (fst h))) (firstn 200 hits) with
    | Some h => snd h
    | None => ""
    end in
  if negb (truthy best) then
    match hits with
    | h :: _ => snd h
    | [] => best
    end
  else best.

(** What lines 913-929 raise: the constructor of line 927, outside any
    [try], called on the string chosen, unescaped, when it holds markup.
    [jd_from_json] is the value these lines compute otherwise. *)
Definition jd_raises (data : json) : option string :=
  if json_truthy data then
    let best := best_string data in
    if truthy best then
      let best := unescape best in
      if contains "<" best && contains ">" best then soup_raises best else None
    else None
  else None.

(** Whether [fetch_jd_and_posted_at] refreshes the session for the listing
    at position [idx]: [idx % self.cookie_refresh_every == 0]. *)
Definition refresh_due (idx : nat) : bool := (idx mod 20 =? 0)%nat.

(** The session refresh, when it is due, returned. *)
Definition refreshed (idx : nat) (refresh : res unit) : Prop :=
  refresh_due idx = true -> refresh = Ok tt.

(** [fetch_jd_and_posted_at]; [refresh] is what [self._refresh_session()]
    answers when it is called: it returns, or raises what reading the
    cookie jar raises (line 782 is outside the two [try] blocks of the
    method).  The refresh changes what the two requests answer, which is
    the input here. *)
Definition fetch_jd_and_posted_at (idx : nat) (refresh : res unit)
    (guest voyager : res Response) : res (string * string) :=
  match (if refresh_due idx then refresh else Ok tt) with
  | Raised e => Raised e
  | Ok _ =>
  match fetch_guest_jd guest with
  | Raised e => Raised e
  | Ok jd_guest =>
      match fetch_voyager_json voyager with
      | Raised e => Raised e
      | Ok data =>
          let posted_at := if json_truthy data then _extract_posted_at data else "" in
          match jd_raises data with
          | Some e => Raised e
          | None =>
              let jd_voyager := jd_from_json data in
              let jd_final := if truthy jd_guest then jd_guest else jd_voyager in
              Ok (str_or jd_final "", str_or posted_at "")
          end
      end
  end end.

End Client.
End Api.

(** ** [JobCollector]: the orchestrator and its stop policies *)
Module Collector.
Import Text.

(** A [datetime] is a number of microseconds on the naive time line. *)
Class Clock := {
  (** [datetime.strptime(s, "%Y-%m-%d %H:%M:%S")]; raises [ValueError]. *)
  strptime : string -> res Z
}.

(** The attributes [JobCollector.__init__] sets; the store is threaded
    through the methods below. *)
Record JobCollector := {
  run_at : string;
  date_posted_days : Z;
  blacklist : list string;
  blackListTitles : list string;
  easy_apply_only : bool;
  fetch_company_about_enabled : bool;
  stop_old_posted_enabled : bool;
  stop_old_posted_consecutive_limit : Z;
  stop_old_posted_days_threshold : Z;
  stop_empty_pages_enabled : bool;
  stop_empty_pages_consecutive_limit : Z
}.

(** The arguments of [JobCollector.__init__] that reach these attributes,
    and [datetime.now()] formatted at that moment. *)
Record InitArgs := {
  arg_now : string;
  arg_blacklist : list string;
  arg_blackListTitles : list string;
  arg_date_posted_days : Z;
  arg_stop_old_posted_enabled : bool;
  arg_stop_old_posted_consecutive_limit : Z;
  arg_stop_old_posted_days_threshold : Z;
  arg_easy_apply_only : bool;
  arg_stop_empty_pages_enabled : bool;
  arg_stop_empty_pages_consecutive_limit : Z;
  arg_fetch_company_about_enabled : bool
}.

(** [int(x or d)] on an [int]. *)
Definition int_or (x d : Z) : Z := if (x =? 0)%Z then d else x.

Definition __init__ (a : InitArgs) : JobCollector :=
  let date_posted_days := int_or (arg_date_posted_days a) 7 in
  let thr := int_or (arg_stop_old_posted_days_threshold a) 0 in
  {| run_at := arg_now a;
     date_posted_days := date_posted_days;
     blacklist := arg_blacklist a;
     blackListTitles := arg_blackListTitles a;
     easy_apply_only := arg_easy_apply_only a;
     fetch_company_about_enabled := arg_fetch_company_about_enabled a;
     stop_old_posted_enabled := arg_stop_old_posted_enabled a;
     stop_old_posted_consecutive_limit :=
       Z.max 1 (int_or (arg_stop_old_posted_consecutive_limit a) 10);
     stop_old_posted_days_threshold := if (0 <? thr)%Z then thr else date_posted_days;
     stop_empty_pages_enabled := arg_stop_empty_pages_enabled a;
     stop_empty_pages_consecutive_limit :=
       Z.max 1 (int_or (arg_stop_empty_pages_consecutive_limit a) 3) |}.

(** The six values of [parse_job_page_fields]. *)
Record Fields := {
  f_title : string;
  f_company : string;
  f_location : string;
  f_workplace_type : string;
  f_seniority : string;
  f_employment_type : string
}.

(** What the browser, the fallback client, the file system and the clock
    answer while one listing is processed, in the order of the calls. *)
Record ListingObs := {
  o_open_job_view : res string;                (* [open_job_view]: the job URL *)
  o_fields : res Fields;                       (* [parse_job_page_fields] *)
  o_easy_apply : res bool;                     (* [has_easy_apply] *)
  o_api : res (string * string);               (* [api.fetch_jd_and_posted_at] *)
  o_about : res (string * string * string);    (* [fetch_company_about_fields_from_current_job] *)
  o_back : res unit;                           (* back to the job page, lines 1126-1135 *)
  o_timestamp : string;                        (* [datetime.now().strftime(...)] *)
  o_write : res unit;                          (* the append in [store.add] *)
  o_now : Z                                    (* [datetime.now()] in [_is_older_than_threshold] *)
}.

(** A [div] with a [data-job-id] on the results page. *)
Record LinkObs := {
  link_text : res string;                      (* [link.text] *)
  data_job_id : res (option string)            (* [link.get_attribute("data-job-id")] *)
}.

(** One pass of the [while] loop of [_search_one_combo]. *)
Record PageObs := {
  p_render : res unit;                         (* [load_page] and the scrolling *)
  p_links : res (list LinkObs);                (* [is_present], [get_elements("links")] *)
  p_listing : nat -> string -> ListingObs;     (* by position and identifier *)
  p_next : res unit                            (* [open_search_page] at the next offset *)
}.

(** One combination: the first [open_search_page] and the passes the time
    budget [MAX_SEARCH_TIME] leaves room for. *)
Record ComboObs := {
  c_open : res unit;
  c_pages : list PageObs
}.

(** How one pass through the body of the loop of [_collect_jobs] ends. *)
Inductive exit :=
| AlreadySaved                                 (* [continue], line 1105 *)
| TitleBlacklisted                             (* [continue], line 1143 *)
| Failed (e : string)                          (* the handler, line 1194 *)
| Saved (rec : Store.JobRecord) (stop : bool). (* [stop]: [return True], line 1189 *)

(** How one pass through the body of the loop of [_search_one_combo] ends. *)
Inductive page_exit :=
| LoopException (e : string)                   (* raised before the identifiers are known *)
| EmptyPages                                   (* [return], line 1060 *)
| StalePostings                                (* [return], line 1070 *)
| NextPage (opened : res unit).                (* the next page was asked for *)

Inductive combo_end :=
| AbandonedEmpty
| AbandonedStale
| TimeBudgetOver.

Record ComboState := {
  store : Store.JobStore;
  empty_page_streak : Z;
  jobs_per_page : Z
}.

Definition day : Z := 86400000000.

(** The number of zeros a list starts with, and ends with. *)
Fixpoint leading_zeros (l : list nat) : nat :=
  match l with
  | 0 :: l' => S (leading_zeros l')
  | _ => 0
  end.

Definition trailing_zeros (l : list nat) : nat := leading_zeros (rev l).

Section Orchestrator.
Context {clock : Clock}.

Definition _parse_posted_at (posted_at : string) : option Z :=
  if negb (truthy posted_at) then None
  else match strptime posted_at with
       | Ok dt => Some dt
       | Raised _ => None
       end.

(** [(now - dt).days] is the floor of the difference in days. *)
Definition _is_older_than_threshold (self : JobCollector) (now : Z) (posted_at : string) : bool :=
  match _parse_posted_at posted_at with
  | None => false
  | Some dt =>
      let delta_days := ((now - dt) / day)%Z in
      (stop_old_posted_days_threshold self <? delta_days)%Z
  end.


(** Lines 1171-1189: the new streak and whether [True] is returned. *)
Definition stop_old_posted (self : JobCollector) (now : Z) (posted_at : string)
    (old_job_streak : Z) : Z * bool :=
  if stop_old_posted_enabled self then
    let old_job_streak :=
      if truthy posted_at && _is_older_than_threshold self now posted_at
      then (old_job_streak + 1)%Z
      else 0%Z in
    (old_job_streak, (stop_old_posted_consecutive_limit self <=? old_job_streak)%Z)
  else (old_job_streak, false).

Definition title_blacklisted (self : JobCollector) (title : string) : bool :=
  match blackListTitles self with
  | [] => false
  | words => truthy title && existsb (fun word => contains (lower word) (lower title)) words
  end.

(** The body of the loop of [_collect_jobs] with its handler. *)
Definition collect_one (self : JobCollector) (search_position search_location : string)
    (store : Store.JobStore) (old_job_streak : Z) (jobID : string) (o : ListingObs)
  : Store.JobStore * Z * exit :=
  if Store.has store jobID then (store, old_job_streak, AlreadySaved)
  else
    match o_open_job_view o with
    | Raised e => (store, old_job_streak, Failed e)
    | Ok job_url =>
    match o_fields o with
    | Raised e => (store, old_job_streak, Failed e)
    | Ok fields =>
    match o_easy_apply o with
    | Raised e => (store, old_job_streak, Failed e)
    | Ok easy_apply =>
    match o_api o with
    | Raised e => (store, old_job_streak, Failed e)
    | Ok (jd, posted_at) =>
        let sentinel := (Store.cannot_fetch, Store.cannot_fetch, Store.cannot_fetch) in
        let '(company_about_url, company_size, associated_members) :=
          if fetch_company_about_enabled self then
            match o_about o with
            | Ok about =>
                match o_back o with
                | Ok _ => about
                | Raised _ => about   (* assigned before; the handler only logs *)
                end
            | Raised _ => sentinel
            end
          else sentinel in
        if title_blacklisted self (f_title fields)
        then (store, old_job_streak, TitleBlacklisted)
        else
          let rec :=
            {| Store.run_at := run_at self;
               Store.posted_at := posted_at;
               Store.timestamp := o_timestamp o;
               Store.jobID := jobID;
               Store.title := f_title fields;
               Store.company := f_company fields;
               Store.location := f_location fields;
               Store.workplace_type := f_workplace_type fields;
               Store.seniority := f_seniority fields;
               Store.employment_type := f_employment_type fields;
               Store.easy_apply := easy_apply;
               Store.job_description := jd;
               Store.job_url := job_url;
               Store.search_position := search_position;
               Store.search_location := search_location;
               Store.company_about_url := str_or company_about_url Store.cannot_fetch;
               Store.company_size := str_or company_size Store.cannot_fetch;
               Store.associated_members := str_or associated_members Store.cannot_fetch |} in
          match Store.add rec (o_write o) store with
          | (store, Raised e) => (store, old_job_streak, Failed e)
          | (store, Ok _) =>
              let '(old_job_streak, stop) :=
                stop_old_posted self (o_now o) posted_at old_job_streak in
              (store, old_job_streak, Saved rec stop)
          end
    end end end end.

(** The exception that reaches the handler of the loop body, for a
    listing not yet in the store: the first one raised, in the order of
    the calls, outside the enrichment block; the append is not reached
    when the title is blacklisted. *)
Definition listing_exception (self : JobCollector) (o : ListingObs) : option string :=
  match o_open_job_view o, o_fields o, o_easy_apply o, o_api o with
  | Raised e, _, _, _ => Some e
  | Ok _, Raised e, _, _ => Some e
  | Ok _, Ok _, Raised e, _ => Some e
  | Ok _, Ok _, Ok _, Raised e => Some e
  | Ok _, Ok fields, Ok _, Ok _ =>
      if title_blacklisted self (f_title fields) then None
      else match o_write o with
           | Raised e => Some e
           | Ok _ => None
           end
  end.

(** The three enrichment fields of a record. *)
Definition enrichment (rec : Store.JobRecord) : string * string * string :=
  (Store.company_about_url rec, Store.company_size rec, Store.associated_members rec).

(** The loop of [_collect_jobs] from position [idx] on: the store, the
    last value of [old_job_streak] and the value returned. *)
Fixpoint collect_loop (self : JobCollector) (search_position search_location : string)
    (world : nat -> string -> ListingObs)
    (store : Store.JobStore) (old_job_streak : Z) (idx : nat) (jobIDs : list string)
  : Store.JobStore * Z * bool :=
  match jobIDs with
  | [] => (store, old_job_streak, false)
  | jobID :: rest =>
      match collect_one self search_position search_location store old_job_streak jobID
              (world idx jobID) with
      | (store, old_job_streak, Saved _ true) => (store, old_job_streak, true)
      | (store, old_job_streak, _) =>
          collect_loop self search_position search_location world
            store old_job_streak (S idx) rest
      end
  end.

Definition _collect_jobs (self : JobCollector) (store : Store.JobStore)
    (jobIDs : list string) (search_position search_location : string)
    (world : nat -> string -> ListingObs) : Store.JobStore * bool :=
  let old_job_streak := 0%Z in
  let '(store, _, should_stop) :=
    collect_loop self search_position search_location world store old_job_streak 0 jobIDs in
  (store, should_stop).

(** One pass of the loop of [collect_job_ids_from_result]: the identifier
    appended, if any. *)
Definition link_job_id (blacklist : list string) (saved_ids : gset string) (link : LinkObs)
  : option string :=
  match link_text link with
  | Raised _ => None
  | Ok txt =>
      if contains "Applied" txt then None
      else if Store.mem txt blacklist then None
      else match data_job_id link with
           | Raised _ => None
           | Ok None => None
           | Ok (Some jobID) =>
               if negb (truthy jobID) || String.eqb jobID "search" then None
               else if bool_decide (jobID ∈ saved_ids) then None
               else Some jobID
           end
  end.

Fixpoint link_job_ids (blacklist : list string) (saved_ids : gset string)
    (links : list LinkObs) : list string :=
  match links with
  | [] => []
  | link :: links' =>
      match link_job_id blacklist saved_ids link with
      | Some jobID => jobID :: link_job_ids blacklist saved_ids links'
      | None => link_job_ids blacklist saved_ids links'
      end
  end.

(** [collect_job_ids_from_result]; finding the elements may raise. *)
Definition collect_job_ids_from_result (blacklist : list string) (saved_ids : gset string)
    (links : res (list LinkObs)) : res (list string) :=
  match links with
  | Raised e => Raised e
  | Ok links => Ok (Store.unique (link_job_ids blacklist saved_ids links))
  end.

(** Lines 1043-1060: the new streak and whether the combination is left. *)
Definition stop_empty_pages (self : JobCollector) (jobIDs : list string)
    (empty_page_streak : Z) : Z * bool :=
  if stop_empty_pages_enabled self then
    let empty_page_streak :=
      match jobIDs with
      | [] => (empty_page_streak + 1)%Z
      | _ => 0%Z
      end in
    (empty_page_streak, (stop_empty_pages_consecutive_limit self <=? empty_page_streak)%Z)
  else (empty_page_streak, false).

(** The body of the [while] loop of [_search_one_combo] with its handler. *)
Definition combo_iteration (self : JobCollector) (position location : string)
    (st : ComboState) (p : PageObs) : ComboState * page_exit :=
  match p_render p with
  | Raised e => (st, LoopException e)
  | Ok _ =>
  match collect_job_ids_from_result (blacklist self) (Store.savedJobIDs (store st)) (p_links p) with
  | Raised e => (st, LoopException e)
  | Ok jobIDs =>
      let '(streak, stop) := stop_empty_pages self jobIDs (empty_page_streak st) in
      let st := {| store := store st; empty_page_streak := streak;
                   jobs_per_page := jobs_per_page st |} in
      if stop then (st, EmptyPages)
      else
        let '(store', should_stop_combo) :=
          match jobIDs with
          | [] => (store st, false)
          | _ => _collect_jobs self (store st) jobIDs position location (p_listing p)
          end in
        let st := {| store := store'; empty_page_streak := streak;
                     jobs_per_page := jobs_per_page st |} in
        if should_stop_combo then (st, StalePostings)
        else
          ({| store := store'; empty_page_streak := streak;
              jobs_per_page := (jobs_per_page st + 25)%Z |},
           NextPage (p_next p))
  end end.

(** The identifiers a pass collects, when it gets that far. *)
Definition found_on_page (self : JobCollector) (st : ComboState) (p : PageObs)
  : option (list string) :=
  match p_render p with
  | Raised _ => None
  | Ok _ =>
      match collect_job_ids_from_result (blacklist self)
              (Store.savedJobIDs (store st)) (p_links p) with
      | Ok jobIDs => Some jobIDs
      | Raised _ => None
      end
  end.

(** The number of new identifiers of each page collected by the [while]
    loop, in order: what [collect_job_ids_from_result] logs. *)
Fixpoint page_yields (self : JobCollector) (position location : string)
    (st : ComboState) (pages : list PageObs) : list nat :=
  match pages with
  | [] => []
  | p :: pages' =>
      let here :=
        match found_on_page self st p with
        | Some jobIDs => [length jobIDs]
        | None => []
        end in
      match combo_iteration self position location st p with
      | (_, EmptyPages) => here
      | (_, StalePostings) => here
      | (st, _) => (here ++ page_yields self position location st pages')%list
      end
  end.

(** The [while] loop: one observation for each pass that starts within
    the time budget. *)
Fixpoint search_loop (self : JobCollector) (position location : string)
    (st : ComboState) (pages : list PageObs) : ComboState * combo_end :=
  match pages with
  | [] => (st, TimeBudgetOver)
  | p :: pages' =>
      match combo_iteration self position location st p with
      | (st, EmptyPages) => (st, AbandonedEmpty)
      | (st, StalePostings) => (st, AbandonedStale)
      | (st, _) => search_loop self position location st pages'
      end
  end.

(** [_search_one_combo]; the first [open_search_page] is outside the
    [try] and what it raises leaves the method. *)
Definition _search_one_combo (self : JobCollector) (store : Store.JobStore)
    (position location : string) (c : ComboObs) : Store.JobStore * res combo_end :=
  match c_open c with
  | Raised e => (store, Raised e)
  | Ok _ =>
      let st := {| store := store; empty_page_streak := 0; jobs_per_page := 0 |} in
      let '(st, e) := search_loop self position location st (c_pages c) in
      (Collector.store st, Ok e)
  end.

(** [start] on the combinations in the order the shuffle gave them. *)
Fixpoint start (self : JobCollector) (store : Store.JobStore)
    (combos : list (string * string * ComboObs)) : Store.JobStore * res unit :=
  match combos with
  | [] => (store, Ok tt)
  | (position, location, c) :: combos' =>
      match _search_one_combo self store position location c with
      | (store, Raised e) => (store, Raised e)
      | (store, Ok _) => start self store combos'
      end
  end.

(** Every identifier the pages carry in a [data-job-id] satisfies [Q]; the
    empty one and [search], which are never collected, are let through. *)
Definition link_shows (Q : string -> bool) (link : LinkObs) : bool :=
  match data_job_id link with
  | Ok (Some jobID) => negb (truthy jobID) || String.eqb jobID "search" || Q jobID
  | _ => true
  end.

Definition page_shows (Q : string -> bool) (p : PageObs) : bool :=
  match p_links p with
  | Ok links => forallb (link_shows Q) links
  | Raised _ => true
  end.

Definition run_shows (Q : string -> bool)
    (combos : list (string * string * ComboObs)) : bool :=
  forallb (fun c => forallb (page_shows Q) (c_pages (snd c))) combos.

(** A run: [JobCollector(...)] on the store file, then [start]. *)
Definition run (a : InitArgs) (f : Store.csv_file)
    (combos : list (string * string * ComboObs)) : Store.JobStore * res unit :=
  start (__init__ a) (Store.__init__ f) combos.

End Orchestrator.
End Collector.

(** ** [_normalize_space] *)
Module Space.
Import Text.

(** [re.sub(r"\s+", " ", s)]: every maximal run of white space becomes one
    space; [in_run] says that the character before was white space. *)
Fixpoint sub_spaces (in_run : bool) (s : string) : string :=
  match s with
  | EmptyString => EmptyString
  | String c s' =>
      if is_space c
      then if in_run then sub_spaces true s' else String " " (sub_spaces true s')
      else String c (sub_spaces false s')
  end.

Definition _normalize_space (s : string) : string := strip (sub_spaces false s).

(** A character that is no white space, or the space itself. *)
Definition plain_or_blank (c : ascii) : bool := negb (is_space c) || Ascii.eqb c " ".

(** The characters of [s] that are not white space, in order. *)
Fixpoint letters (s : string) : string :=
  match s with
  | EmptyString => EmptyString
  | String c s' => if is_space c then letters s' else String c (letters s')
  end.

End Space.

(** ** Shapes of text the properties speak of *)
Module Shape.
Import Text.

(** Three newlines in a row. *)
Definition triple_newline : string :=
  String Api.newline (String Api.newline (String Api.newline EmptyString)).

(** Of two hits of [_find_long_strings], [b] is not longer than [a]. *)
Definition not_longer (a b : string * string) : Prop :=
  (String.length (snd b) <= String.length (snd a))%nat.

End Shape.

(** ** [LinkedInBrowser]: what it reads off the pages *)
Module Browser.
Import Text Url Space.

(** A page as one call of a method reads it through Selenium.  Elements
    are found by their selector, CSS or XPath, which the code never
    shares between the two. *)
Record Page := {
  current_url : res string;                       (* [browser.current_url] *)
  title : res string;                             (* [browser.title] *)
  body_text : res string;                         (* [find_element(By.TAG_NAME, "body").text] *)
  first_text : string -> res string;              (* [find_element(by, sel).text] *)
  texts : string -> res (list (res string));      (* [find_elements(by, sel)], [.text] of each *)
  hrefs : string -> res (list (res (option string)));
                                                  (* ... and [.get_attribute("href")] of each *)
  dts : res (list (res string * res string))      (* the [dt] elements: [.text], and the text
                                                      of [following-sibling::dd[1]] *)
}.

(** [any(x in s for x in needles)] *)
Definition any_in (needles : list string) (s : string) : bool :=
  existsb (fun x => contains x s) needles.

Definition _is_authwall_or_checkpoint (p : Page) : bool :=
  match current_url p with
  | Raised _ => false
  | Ok url =>
      let url := lower (str_or url "") in
      match title p with
      | Raised _ => false
      | Ok title =>
          let title := lower (str_or title "") in
          if any_in ["checkpoint"; "authwall"; "login"; "challenge"] url then true
          else if any_in ["sign in"; "security verification"; "authentication"] title then true
          else
            let body :=
              match body_text p with
              | Ok b => lower (str_or b "")
              | Raised _ => ""
              end in
            if any_in ["security verification"; "confirm your identity";
                       "sign in to linkedin"] body
            then true else false
      end
  end.

Definition css_candidates : list string :=
  [ "a.topcard__org-name-link"; "a.jobs-unified-top-card__company-name";
    "a[data-control-name='company_link']"; "a.topcard__flavor--black-link" ].

Definition company_anchors : string := "//a[contains(@href,'/company/')]".

(** The loop over the elements one selector finds: the first [href],
    stripped, that contains [needle]; what an element raises leaves the
    loop. *)
Fixpoint first_href (needle : string) (els : list (res (option string)))
  : res (option string) :=
  match els with
  | [] => Ok None
  | el :: els' =>
      match el with
      | Raised e => Raised e
      | Ok attr =>
          let href := strip (match attr with Some h => str_or h "" | None => "" end) in
          if contains needle href then Ok (Some href) else first_href needle els'
      end
  end.

(** The loop over the selectors, each in its own [try]. *)
Fixpoint first_over (p : Page) (needle : string) (selectors : list string) : option string :=
  match selectors with
  | [] => None
  | sel :: rest =>
      match hrefs p sel with
      | Raised _ => first_over p needle rest
      | Ok els =>
          match first_href needle els with
          | Ok (Some href) => Some href
          | Ok None | Raised _ => first_over p needle rest
          end
      end
  end.

Definition extract_company_url_from_job_detail (p : Page) : string :=
  match first_over p "/company/" css_candidates with
  | Some href => href
  | None =>
      match hrefs p company_anchors with
      | Raised _ => ""
      | Ok els =>
          match first_href "linkedin.com/company/" els with
          | Ok (Some href) => href
          | Ok None | Raised _ => ""
          end
      end
  end.

(** [wait_company_link_ready]: one page for each pass of the loop that
    starts before the time is over. *)
Fixpoint wait_company_link_ready (polls : list Page) : bool :=
  match polls with
  | [] => false
  | p :: polls' =>
      if _is_authwall_or_checkpoint p then false
      else
        match first_over p "/company/" css_candidates with
        | Some _ => true
        | None =>
            match hrefs p company_anchors with
            | Ok els =>
                match first_href "linkedin.com/company/" els with
                | Ok (Some _) => true
                | Ok None | Raised _ => wait_company_link_ready polls'
                end
            | Raised _ => wait_company_link_ready polls'
            end
        end
  end.

(** *** The two regular expressions of the company page *)

(** The class [[0-9,]]. *)
Definition digit_or_comma (c : ascii) : bool :=
  let n := nat_of_ascii c in ((48 <=? n) && (n <=? 57))%nat || Ascii.eqb c ",".

(** Length of the longest prefix of [s] made of characters of a class:
    what a greedy [+] or [*] takes when the pattern goes on with a
    character outside the class. *)
Fixpoint span (p : ascii -> bool) (s : string) : nat :=
  match s with
  | String c s' => if p c then S (span p s') else 0
  | EmptyString => 0
  end.

(** [s[n:]] *)
Fixpoint drop (n : nat) (s : string) : string :=
  match n, s with
  | S n', String _ s' => drop n' s'
  | _, _ => s
  end.

(** [\s+] and then a literal, letters in any case: the text after them. *)
Definition spaces_then (lit s : string) : option string :=
  match span is_space s with
  | 0 => None
  | w => match_literal_ci lit (drop w s)
  end.

(** [([0-9,]+)\s+associated\s+members] anchored at the head of [s]: group 1. *)
Definition members_here (s : string) : option string :=
  match span digit_or_comma s with
  | 0 => None
  | n =>
      match spaces_then "associated" (drop n s) with
      | None => None
      | Some r =>
          match spaces_then "members" r with
          | None => None
          | Some _ => Some (substring 0 n s)
          end
      end
  end.

(** [re.search(r"([0-9,]+)\s+associated\s+members", s, re.I).group(1)] *)
Fixpoint search_members (s : string) : option string :=
  match members_here s with
  | Some g => Some g
  | None =>
      match s with
      | EmptyString => None
      | String _ s' => search_members s'
      end
  end.

(** [[0-9,]+\s*-\s*[0-9,]+\s+employees] at the head of [s]: the number of
    characters matched. *)
Definition range_here (s : string) : option nat :=
  match span digit_or_comma s with
  | 0 => None
  | n1 =>
      let r := drop n1 s in
      let w1 := span is_space r in
      match drop w1 r with
      | String c r =>
          if Ascii.eqb c "-" then
            let w2 := span is_space r in
            let r := drop w2 r in
            match span digit_or_comma r with
            | 0 => None
            | n2 =>
                let r := drop n2 r in
                match span is_space r with
                | 0 => None
                | w3 =>
                    match match_literal_ci "employees" (drop w3 r) with
                    | Some _ => Some (n1 + w1 + 1 + w2 + n2 + w3 + 9)%nat
                    | None => None
                    end
                end
            end
          else None
      | EmptyString => None
      end
  end.

(** [[0-9,]+\+\s+employees] at the head of [s]. *)
Definition open_range_here (s : string) : option nat :=
  match span digit_or_comma s with
  | 0 => None
  | n1 =>
      match drop n1 s with
      | String c r =>
          if Ascii.eqb c "+" then
            match span is_space r with
            | 0 => None
            | w =>
                match match_literal_ci "employees" (drop w r) with
                | Some _ => Some (n1 + 1 + w + 9)%nat
                | None => None
                end
            end
          else None
      | EmptyString => None
      end
  end.

(** The whole pattern, [Company size\s*\n\s*(...|...)], at the head of
    [s]: group 1.  The white space between the label and the group is one
    run, which must hold a newline. *)
Definition size_here (s : string) : option string :=
  match match_literal_ci "company size" s with
  | None => None
  | Some r =>
      let w := span is_space r in
      if contains (String Api.newline "") (substring 0 w r) then
        let g := drop w r in
        match range_here g with
        | Some n => Some (substring 0 n g)
        | None =>
            match open_range_here g with
            | Some n => Some (substring 0 n g)
            | None => None
            end
        end
      else None
  end.

Fixpoint search_size (s : string) : option string :=
  match size_here s with
  | Some g => Some g
  | None =>
      match s with
      | EmptyString => None
      | String _ s' => search_size s'
      end
  end.

(** The loop over the [dt] elements: the value next to the first label
    "company size" that has one. *)
Fixpoint size_from_dts (l : list (res string * res string)) : res (option string) :=
  match l with
  | [] => Ok None
  | (dt_text, dd_text) :: rest =>
      match dt_text with
      | Raised e => Raised e
      | Ok t =>
          let key := lower (_normalize_space (str_or t "")) in
          if negb (String.eqb key "company size") then size_from_dts rest
          else
            match dd_text with
            | Raised _ => size_from_dts rest
            | Ok d =>
                let val := _normalize_space (str_or d "") in
                if truthy val then Ok (Some val) else size_from_dts rest
            end
      end
  end.

Definition _fetch_company_size_from_about_dtdd (p : Page) : string :=
  if _is_authwall_or_checkpoint p then ""
  else
    let from_dts :=
      match dts p with
      | Raised _ => None
      | Ok l =>
          match size_from_dts l with
          | Ok (Some val) => Some val
          | Ok None | Raised _ => None
          end
      end in
    match from_dts with
    | Some val => val
    | None =>
        match body_text p with
        | Raised _ => ""
        | Ok body_txt =>
            match search_size body_txt with
            | Some g => _normalize_space g
            | None => ""
            end
        end
    end.

Definition people_xpaths : list string :=
  [ "//a[contains(@href,'/search/results/people/') and contains(@href,'currentCompany=') and contains(@href,'origin=COMPANY_PAGE_CANNED_SEARCH')]";
    "//a[contains(@href,'/search/results/people/') and contains(@href,'currentCompany=')]" ].

(** [f"{m.group(1)} associated members"] *)
Definition members_text (g : string) : string := g ++ " associated members".

Fixpoint members_from (els : list (res string)) : res (option string) :=
  match els with
  | [] => Ok None
  | el :: els' =>
      match el with
      | Raised e => Raised e
      | Ok t =>
          match search_members (_normalize_space (str_or t "")) with
          | Some g => Ok (Some (members_text g))
          | None => members_from els'
          end
      end
  end.

Fixpoint members_over (p : Page) (xpaths : list string) : option string :=
  match xpaths with
  | [] => None
  | xp :: rest =>
      match texts p xp with
      | Raised _ => members_over p rest
      | Ok els =>
          match members_from els with
          | Ok (Some v) => Some v
          | Ok None | Raised _ => members_over p rest
          end
      end
  end.

Definition _fetch_associated_members_from_anchor (p : Page) : string :=
  match members_over p people_xpaths with
  | Some v => v
  | None =>
      match body_text p with
      | Raised _ => ""
      | Ok body_txt =>
          match search_members body_txt with
          | Some g => members_text g
          | None => ""
          end
      end
  end.

(** A text that reads as a member count: digits and commas, and the two
    words. *)
Definition counted (r : string) : Prop :=
  exists g, r = members_text g /\ g <> "" /\ all_chars digit_or_comma g = true.

(** What [fetch_company_about_fields_from_current_job] reads, in the
    order of its calls. *)
Record AboutObs := {
  a_wait : list Page;          (* the passes of [wait_company_link_ready] *)
  a_job : Page;                (* the job page, for the company link and the log line *)
  a_load : res unit;           (* [browser.get(about_url)], the wait and the sleep *)
  a_loaded : Page;             (* the page then shown, for the authwall check *)
  a_size : Page;               (* ... for the company size *)
  a_members : Page             (* ... for the member count *)
}.

Definition fetch_company_about_fields_from_current_job (o : AboutObs)
  : res (string * string * string) :=
  let _ := wait_company_link_ready (a_wait o) in
  let raw := extract_company_url_from_job_detail (a_job o) in
  let company_root := _normalize_company_url raw in
  if negb (truthy company_root) then
    (* the log line reads [browser.current_url] outside any [try] *)
    match current_url (a_job o) with
    | Raised e => Raised e
    | Ok _ => Ok (Store.cannot_fetch, Store.cannot_fetch, Store.cannot_fetch)
    end
  else
    let about_url := rstrip_slash company_root ++ "/about/" in
    match a_load o with
    | Raised _ => Ok (about_url, Store.cannot_fetch, Store.cannot_fetch)
    | Ok _ =>
        if _is_authwall_or_checkpoint (a_loaded o)
        then Ok (about_url, Store.cannot_fetch, Store.cannot_fetch)
        else
          let size := _fetch_company_size_from_about_dtdd (a_size o) in
          let members := _fetch_associated_members_from_anchor (a_members o) in
          Ok (str_or about_url Store.cannot_fetch,
              str_or size Store.cannot_fetch,
              str_or members Store.cannot_fetch)
    end.

(** *** The job page *)

(** [s.split(" | ")]; [cur] is the piece being read. *)
Fixpoint split_bar (cur s : string) : list string :=
  match s with
  | EmptyString => [cur]
  | String c s' =>
      match s' with
      | String c1 (String c2 rest) =>
          if Ascii.eqb c " " && Ascii.eqb c1 "|" && Ascii.eqb c2 " "
          then cur :: split_bar "" rest
          else split_bar (cur ++ String c "") s'
      | _ => split_bar (cur ++ String c "") s'
      end
  end.

(** [s.split("\n")] *)
Fixpoint split_lines (cur s : string) : list string :=
  match s with
  | EmptyString => [cur]
  | String c s' =>
      if Ascii.eqb c Api.newline then cur :: split_lines "" s'
      else split_lines (cur ++ String c "") s'
  end.

(** [[x.strip() for x in l if x.strip()]] *)
Definition stripped_nonempty (l : list string) : list string :=
  List.filter truthy (map strip l).

(** The texts of elements, each read once; what one raises is raised. *)
Fixpoint all_texts (els : list (res string)) : res (list string) :=
  match els with
  | [] => Ok []
  | el :: els' =>
      match el with
      | Raised e => Raised e
      | Ok t =>
          match all_texts els' with
          | Raised e => Raised e
          | Ok ts => Ok (t :: ts)
          end
      end
  end.

(** [" ".join(l)] *)
Fixpoint join_spaces (l : list string) : string :=
  match l with
  | [] => ""
  | [x] => x
  | x :: l' => x ++ " " ++ join_spaces l'
  end.

Definition safe_text (p : Page) (selector : string) (many : bool) : string :=
  if many then
    match texts p selector with
    | Raised _ => ""
    | Ok els =>
        match all_texts els with
        | Raised _ => ""
        | Ok ts => strip (join_spaces (stripped_nonempty ts))
        end
    end
  else
    match first_text p selector with
    | Raised _ => ""
    | Ok t => strip t
    end.

(** The three criteria, as the loop over the items leaves them. *)
Record Criteria := {
  c_workplace_type : string;
  c_seniority : string;
  c_employment_type : string
}.

(** One item of the criteria list. *)
Definition criteria_item (txt : string) (acc : Criteria) : Criteria :=
  match stripped_nonempty (split_lines "" (strip txt)) with
  | k :: v :: _ =>
      let k := lower k in
      if contains "workplace type" k then
        {| c_workplace_type := v; c_seniority := c_seniority acc;
           c_employment_type := c_employment_type acc |}
      else if contains "seniority level" k then
        {| c_workplace_type := c_workplace_type acc; c_seniority := v;
           c_employment_type := c_employment_type acc |}
      else if contains "employment type" k then
        {| c_workplace_type := c_workplace_type acc; c_seniority := c_seniority acc;
           c_employment_type := v |}
      else acc
  | _ => acc
  end.

(** The loop over the items; what an item raises ends it, and what was
    assigned before stays. *)
Fixpoint criteria_items (items : list (res string)) (acc : Criteria) : Criteria :=
  match items with
  | [] => acc
  | item :: items' =>
      match item with
      | Raised _ => acc
      | Ok txt => criteria_items items' (criteria_item txt acc)
      end
  end.

(** The location: the first bullet that has a text. *)
Definition first_bullet (p : Page) : string :=
  match texts p "span.topcard__flavor--bullet" with
  | Raised _ => ""
  | Ok bullets =>
      match all_texts bullets with
      | Raised _ => ""
      | Ok ts => hd "" (stripped_nonempty ts)
      end
  end.

(** The three criteria have no white space at either end. *)
Definition criteria_stripped (c : Criteria) : Prop :=
  strip (c_workplace_type c) = c_workplace_type c /\
  strip (c_seniority c) = c_seniority c /\
  strip (c_employment_type c) = c_employment_type c.

(** The six fields have no white space at either end. *)
Definition fields_stripped (f : Collector.Fields) : Prop :=
  strip (Collector.f_title f) = Collector.f_title f /\
  strip (Collector.f_company f) = Collector.f_company f /\
  strip (Collector.f_location f) = Collector.f_location f /\
  strip (Collector.f_workplace_type f) = Collector.f_workplace_type f /\
  strip (Collector.f_seniority f) = Collector.f_seniority f /\
  strip (Collector.f_employment_type f) = Collector.f_employment_type f.

Definition no_criteria : Criteria :=
  {| c_workplace_type := ""; c_seniority := ""; c_employment_type := "" |}.

Definition job_criteria (p : Page) : Criteria :=
  match texts p "li.description__job-criteria-item" with
  | Raised _ => no_criteria
  | Ok items => criteria_items items no_criteria
  end.

(** [parse_job_page_fields]; [browser.title] is read outside any [try],
    when the heading or the company link gave nothing. *)
Definition parse_job_page_fields (p : Page) : res Collector.Fields :=
  let title := safe_text p "h1" false in
  let title :=
    if negb (truthy title) then
      match Browser.title p with
      | Raised e => Raised e
      | Ok t => Ok (strip (hd "" (split_bar "" (str_or t ""))))
      end
    else Ok title in
  match title with
  | Raised e => Raised e
  | Ok title =>
      let company := safe_text p "a.topcard__org-name-link" false in
      let company :=
        if negb (truthy company) then safe_text p "span.topcard__flavor a" false
        else company in
      let company :=
        if negb (truthy company) then
          match Browser.title p with
          | Raised e => Raised e
          | Ok t =>
              match split_bar "" (str_or t "") with
              | _ :: second :: _ => Ok (strip second)
              | _ => Ok company
              end
          end
        else Ok company in
      match company with
      | Raised e => Raised e
      | Ok company =>
          let location := first_bullet p in
          let criteria := job_criteria p in
          Ok {| Collector.f_title := str_or title "";
                Collector.f_company := str_or company "";
                Collector.f_location := str_or location "";
                Collector.f_workplace_type := str_or (c_workplace_type criteria) "";
                Collector.f_seniority := str_or (c_seniority criteria) "";
                Collector.f_employment_type := str_or (c_employment_type criteria) "" |}
      end
  end.

(** *** The search page *)

(** [str(n)] of an [int]. *)
Definition str_of_int (n : Z) : string := NilEmpty.string_of_int (Z.to_int n).

(** [",".join(l)] *)
Fixpoint join_commas (l : list string) : string :=
  match l with
  | [] => ""
  | [x] => x
  | x :: l' => x ++ "," ++ join_commas l'
  end.

(** The address [open_search_page] asks the browser for. *)
Definition search_url (position location_param : string) (start date_posted_days : Z)
    (easy_apply_only : bool) (experience_level : list Z) : string :=
  let experience_level_str :=
    match experience_level with
    | [] => ""
    | _ => join_commas (map str_of_int experience_level)
    end in
  let experience_level_param :=
    if truthy experience_level_str then "&f_E=" ++ experience_level_str else "" in
  let date_posted_param :=
    if negb (date_posted_days =? 0)%Z && (0 <? date_posted_days)%Z
    then "&f_TPR=r" ++ str_of_int (date_posted_days * 24 * 60 * 60)
    else "" in
  let easy_apply_param := if easy_apply_only then "&f_LF=f_AL" else "" in
  let sort_param := "&sortBy=R" in
  "https://www.linkedin.com/jobs/search/?" ++ easy_apply_param ++ date_posted_param
  ++ sort_param ++ "&keywords=" ++ position ++ location_param
  ++ "&start=" ++ str_of_int start ++ experience_level_param.

(** [open_job_view]: the address of the listing, once the browser has
    gone there; the waits that follow catch what they raise. *)
Definition open_job_view (job_id : string) (get : res unit) : res string :=
  let job_url := "https://www.linkedin.com/jobs/view/" ++ job_id in
  match get with
  | Raised e => Raised e
  | Ok _ => Ok job_url
  end.

End Browser.

(** ** The pages [_search_one_combo] asks for *)
Module Paging.
Import Collector.

Section Orchestrator.
Context {clock : Clock}.

(** The offsets [start] of the calls of [open_search_page] inside the
    loop, in order: a pass that gets to the call asks for the offset it
    has just advanced to. *)
Fixpoint requested_starts (self : JobCollector) (position location : string)
    (st : ComboState) (pages : list PageObs) : list Z :=
  match pages with
  | [] => []
  | p :: pages' =>
      match combo_iteration self position location st p with
      | (_, EmptyPages) | (_, StalePostings) => []
      | (st1, NextPage _) =>
          jobs_per_page st1 :: requested_starts self position location st1 pages'
      | (st1, LoopException _) => requested_starts self position location st1 pages'
      end
  end.

End Orchestrator.
End Paging.

(** ** A listing read through the browser *)
Module Listing.
Import Text Collector.

(** The enrichment values of a listing before the sentinel is put for an
    empty one. *)
Definition fetched (self : JobCollector) (o : ListingObs) : string * string * string :=
  if fetch_company_about_enabled self then
    match o_about o with
    | Ok about => about
    | Raised _ => (Store.cannot_fetch, Store.cannot_fetch, Store.cannot_fetch)
    end
  else (Store.cannot_fetch, Store.cannot_fetch, Store.cannot_fetch).

(** The record of the listing [jobID] of the combination [pos], [loc]
    holds what the run and the pages gave: the identifier and its view
    address, the run and the combination, fields without white space at
    either end, and enrichment values none of which is empty, the size
    normalised and the member count the sentinel or a count. *)
Definition as_browsed (self : JobCollector) (pos loc jobID : string)
    (rec : Store.JobRecord) : Prop :=
  Store.jobID rec = jobID /\
  Store.job_url rec = "https://www.linkedin.com/jobs/view/" ++ jobID /\
  Store.run_at rec = run_at self /\
  Store.search_position rec = pos /\ Store.search_location rec = loc /\
  strip (Store.title rec) = Store.title rec /\
  strip (Store.company rec) = Store.company rec /\
  strip (Store.location rec) = Store.location rec /\
  strip (Store.workplace_type rec) = Store.workplace_type rec /\
  strip (Store.seniority rec) = Store.seniority rec /\
  strip (Store.employment_type rec) = Store.employment_type rec /\
  Store.company_about_url rec <> "" /\ Store.company_size rec <> "" /\
  Store.associated_members rec <> "" /\
  Space._normalize_space (Store.company_size rec) = Store.company_size rec /\
  (Store.associated_members rec = Store.cannot_fetch \/
   Browser.counted (Store.associated_members rec)).

(** Every line of the store file, the first one included. *)
Definition lines (f : Store.csv_file) : list Store.row :=
  match f with
  | Store.Absent | Store.Blank => []
  | Store.Garbled ls => ls
  | Store.Sheet h ls => h :: ls
  end.

End Listing.

(** ** The location of a combination, as it is recorded *)
Module Location.
Import Text.

(** [s.replace(old, "")] for a text [old] that is not empty: the
    occurrences are found from the left and do not overlap; [skip]
    characters of the occurrence being removed are still to pass. *)
Fixpoint remove_from (skip : nat) (old s : string) : string :=
  match s with
  | EmptyString => EmptyString
  | String c s' =>
      match skip with
      | S k => remove_from k old s'
      | 0 =>
          if startswith old s then remove_from (String.length old - 1) old s'
          else String c (remove_from 0 old s')
      end
  end.

(** ["&location=" + location], the argument [start] passes. *)
Definition location_param (location : string) : string := "&location=" ++ location.

(** [location_param.replace("&location=", "")], the value
    [_search_one_combo] records with each listing. *)
Definition search_location (location_param : string) : string :=
  remove_from 0 "&location=" location_param.

End Location.

(** ** Instances of the libraries, used in the examples only *)
Module Fixtures.

(** The parsing libraries on bodies without markup, which is all the
    examples feed them: the constructor returns, no selector finds an
    element, the text of the document is the body stripped, there is no
    entity to unescape, and [json.loads] knows the empty object and
    rejects the rest. *)
Definition plain_text : Api.Parsers :=
  {| Api.json_loads :=
       fun s => if String.eqb s "{}" then Ok (Api.JObj []) else Raised "JSONDecodeError";
     Api.soup_raises := fun _ => None;
     Api.select_one_text := fun _ _ => None;
     Api.soup_get_text := Text.strip;
     Api.unescape := fun s => s;
     Api.fromtimestamp_strftime := fun _ => Raised "OverflowError" |}.

(** The same with one element, found by the selector [sel], of text [txt]. *)
Definition one_container (sel txt : string) : Api.Parsers :=
  {| Api.json_loads := Api.json_loads (Parsers := plain_text);
     Api.soup_raises := fun _ => None;
     Api.select_one_text := fun _ s => if String.eqb s sel then Some txt else None;
     Api.soup_get_text := Text.strip;
     Api.unescape := fun s => s;
     Api.fromtimestamp_strftime := fun _ => Raised "OverflowError" |}.

(** [json.loads] knowing one more body, [body], which it reads as [data]. *)
Definition one_payload (body : string) (data : Api.json) : Api.Parsers :=
  {| Api.json_loads :=
       fun s => if String.eqb s body then Ok data
                else Api.json_loads (Parsers := plain_text) s;
     Api.soup_raises := fun _ => None;
     Api.select_one_text := fun _ _ => None;
     Api.soup_get_text := Text.strip;
     Api.unescape := fun s => s;
     Api.fromtimestamp_strftime := fun _ => Raised "OverflowError" |}.

(** Markup with a marked section of a kind that [html.parser] does not
    know. *)
Definition rejected_markup : string := "<![x]><p>We are hiring.</p>".

(** A parser that gives up on such a marked section, with the exception
    that [BeautifulSoup] raises then. *)
Definition strict_parser : Api.Parsers :=
  {| Api.json_loads := Api.json_loads (Parsers := plain_text);
     Api.soup_raises :=
       fun html => if Text.contains "<![x]" html then Some "ParserRejectedMarkup" else None;
     Api.select_one_text := fun _ _ => None;
     Api.soup_get_text := Text.strip;
     Api.unescape := fun s => s;
     Api.fromtimestamp_strftime := fun _ => Raised "OverflowError" |}.

(** A payload: one number. *)
Definition listed_payload : Api.json := Api.JArr [Api.JNum 1700000000000].

(** A body of more than 80 characters. *)
Definition sample_text : string :=
  "We are looking for a data engineer to design, build and operate the pipelines that feed our analytics platform.".

(** A payload whose longest string is a token and whose description is
    shorter; both have 200 characters or more. *)
Definition described_payload : Api.json :=
  Api.JObj [ ("trackingToken", Api.JStr (sample_text ++ sample_text ++ sample_text));
             ("description", Api.JObj [("text", Api.JStr (sample_text ++ sample_text))]) ].



(** Days from 1970-01-01 to a date of the proleptic Gregorian calendar. *)
Definition days_from_civil (y m d : Z) : Z :=
  let y := if (m <=? 2)%Z then (y - 1)%Z else y in
  let era := (y / 400)%Z in
  let yoe := (y - era * 400)%Z in
  let mp := ((m + 9) mod 12)%Z in
  let doy := ((153 * mp + 2) / 5 + d - 1)%Z in
  let doe := (yoe * 365 + yoe / 4 - yoe / 100 + doy)%Z in
  (era * 146097 + doe - 719468)%Z.

(** [datetime(y, m, d, hh, mm, ss)] in microseconds. *)
Definition datetime (y m d hh mm ss : Z) : Z :=
  (((days_from_civil y m d * 24 + hh) * 60 + mm) * 60 + ss)%Z * 1000000.

Definition digit (c : ascii) : option Z :=
  let n := nat_of_ascii c in
  if ((48 <=? n) && (n <=? 57))%nat then Some (Z.of_nat (n - 48)) else None.

Fixpoint digits (n : nat) (acc : Z) (s : string) : option (Z * string) :=
  match n with
  | 0 => Some (acc, s)
  | S n' =>
      match s with
      | String c s' =>
          match digit c with
          | Some d => digits n' (acc * 10 + d)%Z s'
          | None => None
          end
      | EmptyString => None
      end
  end.

Definition expect (c : ascii) (s : string) : option string :=
  match s with
  | String c' s' => if Ascii.eqb c c' then Some s' else None
  | EmptyString => None
  end.

Definition days_in_month (y m : Z) : Z :=
  if (m =? 2)%Z then
    if ((y mod 4 =? 0) && (negb (y mod 100 =? 0) || (y mod 400 =? 0)))%Z then 29 else 28
  else if ((m =? 4) || (m =? 6) || (m =? 9) || (m =? 11))%Z then 30 else 31.

(** [strptime] with ["%Y-%m-%d %H:%M:%S"] on the zero-padded form
    [YYYY-MM-DD HH:MM:SS], the form [_format_ms_epoch] writes; any other
    text is a [ValueError]. *)
Definition strptime_padded (s : string) : res Z :=
  let parsed :=
    '(y, s) ← digits 4 0 s; s ← expect "-" s;
    '(m, s) ← digits 2 0 s; s ← expect "-" s;
    '(d, s) ← digits 2 0 s; s ← expect " " s;
    '(hh, s) ← digits 2 0 s; s ← expect ":" s;
    '(mm, s) ← digits 2 0 s; s ← expect ":" s;
    '(ss, s) ← digits 2 0 s;
    if (String.eqb s "" && (1 <=? y) && (1 <=? m) && (m <=? 12) && (1 <=? d)
        && (d <=? days_in_month y m) && (hh <=? 23) && (mm <=? 59) && (ss <=? 59))%Z
    then Some (datetime y m d hh mm ss) else None in
  match parsed with
  | Some dt => Ok dt
  | None => Raised "ValueError"
  end.

#[global] Instance padded_clock : Collector.Clock := {| Collector.strptime := strptime_padded |}.

(** Both stop policies on: three stale postings in a row, older than 30
    days; three empty pages in a row. *)
Definition policies : Collector.InitArgs :=
  {| Collector.arg_now := "2024-02-10 12:00:00";
     Collector.arg_blacklist := [];
     Collector.arg_blackListTitles := [];
     Collector.arg_date_posted_days := 0;
     Collector.arg_stop_old_posted_enabled := true;
     Collector.arg_stop_old_posted_consecutive_limit := 3;
     Collector.arg_stop_old_posted_days_threshold := 30;
     Collector.arg_easy_apply_only := true;
     Collector.arg_stop_empty_pages_enabled := true;
     Collector.arg_stop_empty_pages_consecutive_limit := 3;
     Collector.arg_fetch_company_about_enabled := true |}.

(** A listing every call answers for, seen on 2024-02-10 at noon. *)
Definition listing (posted_at : string) : Collector.ListingObs :=
  {| Collector.o_open_job_view := Ok "https://www.linkedin.com/jobs/view/1";
     Collector.o_fields :=
       Ok {| Collector.f_title := "Data Engineer";
             Collector.f_company := "Acme";
             Collector.f_location := "Berlin";
             Collector.f_workplace_type := "Hybrid";
             Collector.f_seniority := "";
             Collector.f_employment_type := "Full-time" |};
     Collector.o_easy_apply := Ok false;
     Collector.o_api := Ok (sample_text, posted_at);
     Collector.o_about :=
       Ok ("https://www.linkedin.com/company/acme/about/", "51-200 employees", "120");
     Collector.o_back := Ok tt;
     Collector.o_timestamp := "2024-02-10 12:00:00";
     Collector.o_write := Ok tt;
     Collector.o_now := datetime 2024 2 10 12 0 0 |}.

(** The same listing when the enrichment block raises: in the fetch of the
    company fields, or in the navigation back to the job page. *)
Definition listing_enrichment_raises (about : res (string * string * string))
    (back : res unit) (posted_at : string) : Collector.ListingObs :=
  let o := listing posted_at in
  {| Collector.o_open_job_view := Collector.o_open_job_view o;
     Collector.o_fields := Collector.o_fields o;
     Collector.o_easy_apply := Collector.o_easy_apply o;
     Collector.o_api := Collector.o_api o;
     Collector.o_about := about;
     Collector.o_back := back;
     Collector.o_timestamp := Collector.o_timestamp o;
     Collector.o_write := Collector.o_write o;
     Collector.o_now := Collector.o_now o |}.

(** The same listing when its page has none of the fields. *)
Definition listing_without_fields (posted_at : string) : Collector.ListingObs :=
  let o := listing posted_at in
  {| Collector.o_open_job_view := Collector.o_open_job_view o;
     Collector.o_fields := Raised "NoSuchElementException";
     Collector.o_easy_apply := Collector.o_easy_apply o;
     Collector.o_api := Collector.o_api o;
     Collector.o_about := Collector.o_about o;
     Collector.o_back := Collector.o_back o;
     Collector.o_timestamp := Collector.o_timestamp o;
     Collector.o_write := Collector.o_write o;
     Collector.o_now := Collector.o_now o |}.

(** Posted forty days and twelve hours before. *)
Definition forty_days_ago : string := "2024-01-01 00:00:00".

(** A page whose listings have the given posting dates, by position. *)
Definition listings (posted : list string) : nat -> string -> Collector.ListingObs :=
  fun idx _ => listing (nth idx posted "").

Definition four_ids : list string := ["1001"; "1002"; "1003"; "1004"].

(** A results page whose cards carry the given identifiers, each listing
    posted on 2024-02-09. *)
Definition page_with (ids : list string) : Collector.PageObs :=
  {| Collector.p_render := Ok tt;
     Collector.p_links :=
       Ok (map (fun id => {| Collector.link_text := Ok "Data Engineer";
                             Collector.data_job_id := Ok (Some id) |}) ids);
     Collector.p_listing := fun _ _ => listing "2024-02-09 08:30:00";
     Collector.p_next := Ok tt |}.

Definition empty_page : Collector.PageObs := page_with [].

(** The record a run writes for the listing above. *)
Definition record (id : string) : Store.JobRecord :=
  {| Store.run_at := "2024-02-09 09:00:00";
     Store.posted_at := "2024-02-09 08:30:00";
     Store.timestamp := "2024-02-09 09:00:05";
     Store.jobID := id;
     Store.title := "Data Engineer";
     Store.company := "Acme";
     Store.location := "Berlin";
     Store.workplace_type := "Hybrid";
     Store.seniority := "";
     Store.employment_type := "Full-time";
     Store.easy_apply := false;
     Store.job_description := sample_text;
     Store.job_url := "https://www.linkedin.com/jobs/view/1";
     Store.search_position := "data engineer";
     Store.search_location := "Berlin";
     Store.company_about_url := "https://www.linkedin.com/company/acme/about/";
     Store.company_size := "51-200 employees";
     Store.associated_members := "120" |}.

(** A store with two records, the second line of which has one field too
    many: [read_csv] stops at it with "Expected 18 fields in line 3, saw
    19". *)
Definition torn_store : Store.csv_file :=
  Store.Sheet Store._header
    [ Store.row_of (record "1001"); (Store.row_of (record "1002") ++ ["?"])%list ].

(** A store of the older schema, without the three enrichment columns,
    with a column of its owner's. *)
Definition annotated_store : Store.csv_file :=
  Store.Sheet (firstn 15 Store._header ++ ["notes"])%list
    [ (firstn 15 (Store.row_of (record "1001")) ++ ["call back on Monday"])%list ].

(** A file of the six positional names of [_load_saved_jobIDs], without a
    header line. *)
Definition positional_store : Store.csv_file :=
  Store.Sheet ["2021-03-01 10:00:00"; "3001"; "Engineer"; "Acme"; "True"; "ok"]
    [ ["2021-03-02 11:00:00"; "3002"; "Analyst"; "Initech"; "True"; "ok"];
      ["2021-03-03 12:00:00"; "3003"; "Developer"; "Globex"; "False"; "failed"] ].

(** A company page with no element of interest, showing [body]. *)
Definition about_page (body : string) : Browser.Page :=
  {| Browser.current_url := Ok "https://www.linkedin.com/company/acme/about/";
     Browser.title := Ok "Acme | LinkedIn";
     Browser.body_text := Ok body;
     Browser.first_text := fun _ => Raised "NoSuchElementException";
     Browser.texts := fun _ => Ok [];
     Browser.hrefs := fun _ => Ok [];
     Browser.dts := Ok [] |}.

(** A company page at [url] with the given text and definition list. *)
Definition company_page (url body : string) (dts : list (res string * res string))
  : Browser.Page :=
  {| Browser.current_url := Ok url;
     Browser.title := Ok "Acme | LinkedIn";
     Browser.body_text := Ok body;
     Browser.first_text := fun _ => Raised "NoSuchElementException";
     Browser.texts := fun _ => Ok [];
     Browser.hrefs := fun _ => Ok [];
     Browser.dts := Ok dts |}.

(** A job page whose company link, found by the first selector, has the
    address [href]. *)
Definition job_page (href : string) : Browser.Page :=
  {| Browser.current_url := Ok "https://www.linkedin.com/jobs/view/1001";
     Browser.title := Ok "Data Engineer | Acme | LinkedIn";
     Browser.body_text := Ok "Data Engineer";
     Browser.first_text := fun _ => Raised "NoSuchElementException";
     Browser.texts := fun _ => Ok [];
     Browser.hrefs :=
       fun sel => if String.eqb sel "a.topcard__org-name-link"
                  then Ok [Ok (Some href)] else Ok [];
     Browser.dts := Ok [] |}.

(** The enrichment of a listing whose company link is [href]: the company
    page opens at [landed] and shows [about]. *)
Definition about_visit (href landed : string) (about : Browser.Page) : Browser.AboutObs :=
  {| Browser.a_wait := [job_page href];
     Browser.a_job := job_page href;
     Browser.a_load := Ok tt;
     Browser.a_loaded := company_page landed "About us" [];
     Browser.a_size := about;
     Browser.a_members := about |}.

(** A job page without a heading: the title of the window, the bullets
    and the criteria are what it has. *)
Definition untitled_job_page : Browser.Page :=
  {| Browser.current_url := Ok "https://www.linkedin.com/jobs/view/1001";
     Browser.title := Ok "  Data Engineer | Acme | LinkedIn";
     Browser.body_text := Ok "Data Engineer";
     Browser.first_text := fun _ => Raised "NoSuchElementException";
     Browser.texts :=
       fun sel =>
         if String.eqb sel "span.topcard__flavor--bullet" then Ok [Ok "  "; Ok " Berlin "]
         else if String.eqb sel "li.description__job-criteria-item"
         then Ok [Ok "Seniority level
  Mid-Senior level "; Ok "EMPLOYMENT TYPE

Full-time"]
         else Ok [];
     Browser.hrefs := fun _ => Ok [];
     Browser.dts := Ok [] |}.

(** The listing "1001" read through the browser: its page has no
    heading, its company is Acme. *)
Definition browsed_listing : Collector.ListingObs :=
  let o := listing "2024-02-09 08:30:00" in
  {| Collector.o_open_job_view := Browser.open_job_view "1001" (Ok tt);
     Collector.o_fields := Browser.parse_job_page_fields untitled_job_page;
     Collector.o_easy_apply := Collector.o_easy_apply o;
     Collector.o_api := Collector.o_api o;
     Collector.o_about :=
       Browser.fetch_company_about_fields_from_current_job
         (about_visit "https://www.linkedin.com/company/acme/life?trk=x"
            "https://www.linkedin.com/company/acme/about/"
            (company_page "https://www.linkedin.com/company/acme/about/"
               "Acme has 1,234 associated members"
               [(Ok "Company size", Ok "201-500 employees")]));
     Collector.o_back := Collector.o_back o;
     Collector.o_timestamp := Collector.o_timestamp o;
     Collector.o_write := Collector.o_write o;
     Collector.o_now := Collector.o_now o |}.

(** One combination: a page with two cards, then empty pages. *)
Definition two_listings : list (string * string * Collector.ComboObs) :=
  [ ("data engineer", "Berlin",
     {| Collector.c_open := Ok tt;
        Collector.c_pages := page_with ["1001"; "1002"] :: repeat empty_page 3 |}) ].

Definition first_pass (store : Store.JobStore) : Collector.ComboState :=
  {| Collector.store := store; Collector.empty_page_streak := 0;
     Collector.jobs_per_page := 0 |}.

End Fixtures.

(* ================================================================== *)
(** * Part II: properties *)
(* ================================================================== *)

(** ** Strings *)
Module TextFacts.
Import Text.

Lemma append_assoc (a b c : string) : (a ++ b) ++ c = a ++ (b ++ c).
Proof. induction a as [|x a IH]; simpl; [reflexivity | now rewrite IH]. Qed.

Lemma append_empty_r (a : string) : a ++ "" = a.
Proof. induction a as [|x a IH]; simpl; [reflexivity | now rewrite IH]. Qed.

Lemma lower_append (a b : string) : lower (a ++ b) = lower a ++ lower b.
Proof. induction a as [|x a IH]; simpl; [reflexivity | now rewrite IH]. Qed.

Lemma rstrip_by_keeps (p : ascii -> bool) (a b : string) :
  rstrip_by p b <> "" -> rstrip_by p (a ++ b) = a ++ rstrip_by p b.
Proof.
  intros Hb. induction a as [|x a IH]; simpl; [reflexivity|].
  rewrite IH. destruct (a ++ rstrip_by p b) eqn:E; [|reflexivity].
  destruct a; simpl in E; [contradiction | discriminate].
Qed.

Lemma rstrip_by_head (p : ascii -> bool) (c : ascii) (s : string) :
  p c = false -> exists s', rstrip_by p (String c s) = String c s'.
Proof.
  intros Hc. simpl. destruct (rstrip_by p s); rewrite ?Hc; eauto.
Qed.

Lemma startswith_append (p a b : string) :
  startswith p a = true -> startswith p (a ++ b) = true.
Proof.
  revert a. induction p as [|x p IH]; intros a; simpl; [reflexivity|].
  destruct a as [|y a]; simpl; [discriminate|].
  rewrite !andb_true_iff. intros [-> Hp]. auto.
Qed.

Lemma contains_append_l (p a b : string) :
  contains p a = true -> contains p (a ++ b) = true.
Proof.
  induction a as [|y a IH].
  - simpl. rewrite orb_false_r. intros Hp.
    destruct p; [destruct b; reflexivity | discriminate].
  - change (String y a ++ b) with (String y (a ++ b)).
    cbn [contains]. rewrite !orb_true_iff. intros [Hp|Hp].
    + left. now apply (startswith_append p (String y a) b).
    + right. now apply IH.
Qed.

Lemma contains_append_r (p a b : string) :
  contains p b = true -> contains p (a ++ b) = true.
Proof.
  intros Hp. induction a as [|y a IH]; simpl; [exact Hp|].
  rewrite IH. apply orb_true_r.
Qed.

Lemma rstrip_by_prefix (p : ascii -> bool) (s : string) :
  exists tail, s = rstrip_by p s ++ tail.
Proof.
  induction s as [|c s [tail IH]].
  - now exists "".
  - cbn [rstrip_by]. destruct (rstrip_by p s) as [|d r] eqn:E.
    + destruct (p c); [now exists (String c s) | now exists s].
    + exists tail. cbn. f_equal. exact IH.
Qed.

Lemma lstrip_by_suffix (p : ascii -> bool) (s : string) :
  exists head, s = head ++ lstrip_by p s.
Proof.
  induction s as [|c s [head IH]]; simpl.
  - now exists "".
  - destruct (p c).
    + exists (String c head). simpl. now rewrite <- IH.
    + now exists "".
Qed.

Lemma contains_strip (p s : string) :
  contains p (lower (strip s)) = true -> contains p (lower s) = true.
Proof.
  unfold strip. intros Hp.
  destruct (lstrip_by_suffix is_space s) as [head Hh].
  destruct (rstrip_by_prefix is_space (lstrip_by is_space s)) as [tail Ht].
  rewrite Hh, Ht, !lower_append.
  now apply contains_append_r, contains_append_l.
Qed.

End TextFacts.

Example normalize_life :
  Url._normalize_company_url "https://www.linkedin.com/company/acme/life?x=1"
  = "https://www.linkedin.com/company/acme/".
Proof. reflexivity. Qed.

(** ** Company-URL normalization *)
Module UrlFacts.
Import Text Url TextFacts.

Lemma all_chars_weaken (p q : ascii -> bool) (s : string) :
  (forall c, p c = true -> q c = true) -> all_chars p s = true -> all_chars q s = true.
Proof.
  intros Hpq. induction s as [|c s IH]; simpl; [reflexivity|].
  rewrite !andb_true_iff. intros [Hc Hs]. auto.
Qed.

Lemma rstrip_by_id (p : ascii -> bool) (s : string) :
  all_chars (fun c => negb (p c)) s = true -> rstrip_by p s = s.
Proof.
  induction s as [|c s IH]; simpl; [reflexivity|].
  rewrite andb_true_iff, negb_true_iff. intros [Hc Hs].
  rewrite (IH Hs), Hc. now destruct s.
Qed.

Lemma slug_span_append (slug rest : string) :
  all_chars slug_char slug = true -> is_suffix rest = true ->
  slug_span (slug ++ rest) = String.length slug.
Proof.
  intros Hs Hr. induction slug as [|c slug IH]; simpl in *.
  - destruct rest as [|d rest]; simpl in *; [reflexivity|].
    apply negb_true_iff in Hr. now rewrite Hr.
  - apply andb_true_iff in Hs as [-> Hs]. now rewrite IH.
Qed.

Lemma substring_prefix (a b : string) : substring 0 (String.length a) (a ++ b) = a.
Proof.
  induction a as [|c a IH]; simpl.
  - now destruct b.
  - now rewrite IH.
Qed.

Lemma delimiter_not_space (c : ascii) : slug_char c = false -> is_space c = false.
Proof.
  unfold slug_char. rewrite negb_false_iff, !orb_true_iff.
  intros [[Hc|Hc]|Hc]; apply Ascii.eqb_eq in Hc; now subst.
Qed.

(** Stripping leaves the root and the slug alone and keeps a suffix a suffix. *)
Lemma strip_root_slug (slug rest : string) :
  is_slug slug = true -> is_suffix rest = true ->
  exists rest', is_suffix rest' = true /\
    strip (company_root ++ slug ++ rest) = company_root ++ slug ++ rest'.
Proof.
  unfold is_slug. rewrite andb_true_iff. intros [Hne Hs] Hr.
  assert (Hsp : rstrip_by is_space slug = slug).
  { apply rstrip_by_id. revert Hs. apply all_chars_weaken.
    intros c. rewrite andb_true_iff. tauto. }
  assert (Hslug : slug <> "") by (now destruct slug).
  unfold strip. change (lstrip_by is_space (company_root ++ slug ++ rest))
    with (company_root ++ slug ++ rest).
  destruct rest as [|c rest].
  - exists "". split; [reflexivity|].
    rewrite append_empty_r, rstrip_by_keeps; rewrite Hsp; auto.
  - simpl in Hr. apply negb_true_iff in Hr.
    destruct (rstrip_by_head is_space c rest (delimiter_not_space c Hr)) as [r' Hr'].
    exists (String c r'). split; [simpl; now rewrite Hr|].
    rewrite rstrip_by_keeps.
    + rewrite rstrip_by_keeps; rewrite Hr'; [reflexivity | discriminate].
    + rewrite rstrip_by_keeps; rewrite Hr'; [|discriminate]. now destruct slug.
Qed.

Lemma substring_append (a b : string) (n : nat) :
  substring 0 (String.length a + n) (a ++ b) = a ++ substring 0 n b.
Proof. induction a as [|c a IH]; simpl; [reflexivity | now rewrite IH]. Qed.

Lemma match_here_root (x : string) :
  match_here (company_root ++ x) =
  match slug_span x with
  | 0 => None
  | n => Some (String.length company_root + n)
  end.
Proof.
  unfold match_here, company_root.
  change (match_literal_ci "http" ("https://www.linkedin.com/company/" ++ x))
    with (Some ("s://www.linkedin.com/company/" ++ x)).
  cbv beta iota zeta.
  change (match_literal_ci "s" ("s://www.linkedin.com/company/" ++ x))
    with (Some ("://www.linkedin.com/company/" ++ x)).
  cbv beta iota.
  assert (Hs : match_host_and_slug ("s://www.linkedin.com/company/" ++ x) = None)
    by reflexivity.
  assert (Hh : match_host_and_slug ("://www.linkedin.com/company/" ++ x)
               = match slug_span x with 0 => None | n => Some (28 + n) end)
    by reflexivity.
  rewrite Hs, Hh. now destruct (slug_span x).
Qed.

Lemma search_unfold (u : string) :
  search u = match match_here u with
             | Some n => Some (substring 0 n u)
             | None => match u with
                       | EmptyString => None
                       | String _ u' => search u'
                       end
             end.
Proof. now destruct u. Qed.

Lemma search_root_slug (slug rest : string) :
  is_slug slug = true -> is_suffix rest = true ->
  search (company_root ++ slug ++ rest) = Some (company_root ++ slug).
Proof.
  unfold is_slug. rewrite andb_true_iff. intros [Hne Hs] Hr.
  assert (Hsc : all_chars slug_char slug = true).
  { revert Hs. apply all_chars_weaken. intros c. rewrite andb_true_iff. tauto. }
  rewrite search_unfold, match_here_root, (slug_span_append slug rest Hsc Hr).
  destruct slug as [|c slug]; [discriminate|].
  cbn [String.length]. rewrite <- (substring_prefix (String c slug) rest) at 2.
  now rewrite <- substring_append.
Qed.

Lemma match_literal_ci_lower (lit s r : string) :
  match_literal_ci lit s = Some r -> lower s = lit ++ lower r.
Proof.
  revert s. induction lit as [|a lit IH]; intros s; simpl.
  - now intros [= ->].
  - destruct s as [|b s]; [discriminate|].
    destruct (Ascii.eqb a (lower_char b)) eqn:E; [|discriminate].
    apply Ascii.eqb_eq in E. intros Hm. simpl. now rewrite (IH _ Hm), E.
Qed.

Lemma match_host_and_slug_lower (s : string) (n : nat) :
  match_host_and_slug s = Some n -> startswith host_literal (lower s) = true.
Proof.
  unfold match_host_and_slug.
  destruct (match_literal_ci "://www.linkedin.com/company/" s) as [r|] eqn:E; [|discriminate].
  intros _. now rewrite (match_literal_ci_lower _ _ _ E).
Qed.

Lemma startswith_contains (p s : string) : startswith p s = true -> contains p s = true.
Proof. intros Hp. destruct s; simpl in *; now rewrite Hp. Qed.

Lemma match_here_lower (s : string) (n : nat) :
  match_here s = Some n -> contains host_literal (lower s) = true.
Proof.
  unfold match_here.
  destruct (match_literal_ci "http" s) as [r|] eqn:E; [|discriminate].
  rewrite (match_literal_ci_lower _ _ _ E).
  assert (Hwithout : forall m, option_map (Nat.add 4) (match_host_and_slug r) = Some m ->
            contains host_literal ("http" ++ lower r) = true).
  { intros m. destruct (match_host_and_slug r) as [k|] eqn:Ek; [|discriminate].
    intros _. apply contains_append_r, startswith_contains.
    now apply match_host_and_slug_lower with k. }
  destruct (match_literal_ci "s" r) as [r'|] eqn:E'; [|now apply Hwithout].
  destruct (match_host_and_slug r') as [k|] eqn:Ek; [|now apply Hwithout].
  intros _. rewrite (match_literal_ci_lower _ _ _ E'), <- append_assoc.
  apply contains_append_r, startswith_contains.
  now apply match_host_and_slug_lower with k.
Qed.

Lemma search_lower (u g : string) :
  search u = Some g -> contains host_literal (lower u) = true.
Proof.
  induction u as [|c u IH]; cbn [search].
  - destruct (match_here "") eqn:E; [|discriminate]. intros _.
    now apply match_here_lower in E.
  - destruct (match_here (String c u)) eqn:E.
    + intros _. now apply match_here_lower in E.
    + intros Hs. cbn [lower contains]. rewrite (IH Hs). apply orb_true_r.
Qed.

Lemma lstrip_by_append (p : ascii -> bool) (a b : string) (c : ascii) :
  p c = false -> lstrip_by p (a ++ String c b) = lstrip_by p a ++ String c b.
Proof.
  intros Hc. induction a as [|x a IH]; simpl.
  - now rewrite Hc.
  - now destruct (p x).
Qed.

Lemma rstrip_by_all (p : ascii -> bool) (w : string) :
  all_chars p w = true -> rstrip_by p w = "".
Proof.
  induction w as [|c w IH]; simpl; [reflexivity|].
  rewrite andb_true_iff. intros [Hc Hw]. now rewrite (IH Hw), Hc.
Qed.

Lemma rstrip_by_spaces (p : ascii -> bool) (x w : string) :
  all_chars p w = true -> rstrip_by p (x ++ w) = rstrip_by p x.
Proof.
  intros Hw. induction x as [|c x IH]; simpl.
  - now apply rstrip_by_all.
  - now rewrite IH.
Qed.

Lemma match_here_http (s : string) (n : nat) :
  match_here s = Some n -> startswith "http" (lower s) = true.
Proof.
  unfold match_here.
  destruct (match_literal_ci "http" s) as [r|] eqn:E; [|discriminate].
  intros _. now rewrite (match_literal_ci_lower _ _ _ E).
Qed.

(** No match begins in a text without [http] that is followed by the root:
    the four letters cannot be made of the end of that text and of the
    beginning of the root. *)
Lemma no_match_before_root (c : ascii) (pre x : string) :
  startswith "http" (lower (String c pre)) = false ->
  match_here (String c pre ++ company_root ++ x) = None.
Proof.
  intros Hno. destruct (match_here _) as [n|] eqn:E; [|reflexivity].
  apply match_here_http in E. exfalso. revert E.
  destruct pre as [|c2 [|c3 [|c4 pre]]];
    unfold company_root; cbn [append lower startswith] in *.
  - destruct (Ascii.eqb "h" (lower_char c)); vm_compute; discriminate.
  - destruct (Ascii.eqb "h" (lower_char c)), (Ascii.eqb "t" (lower_char c2));
      vm_compute; discriminate.
  - destruct (Ascii.eqb "h" (lower_char c)), (Ascii.eqb "t" (lower_char c2)),
             (Ascii.eqb "t" (lower_char c3)); vm_compute; discriminate.
  - now rewrite Hno.
Qed.

Lemma search_after_prefix (pre slug rest : string) :
  contains "http" (lower pre) = false ->
  is_slug slug = true -> is_suffix rest = true ->
  search (pre ++ company_root ++ slug ++ rest) = Some (company_root ++ slug).
Proof.
  intros Hpre Hs Hr. induction pre as [|c pre IH].
  - now apply search_root_slug.
  - cbn [lower contains] in Hpre. apply orb_false_iff in Hpre as [Hhere Hlater].
    rewrite search_unfold, no_match_before_root by exact Hhere.
    cbn [append]. now apply IH.
Qed.

(** Stripping an input made of a text, the root, a slug, a suffix and
    white space. *)
Lemma strip_around_root_slug (pre slug rest ws : string) :
  contains "http" (lower pre) = false ->
  is_slug slug = true -> is_suffix rest = true -> all_chars is_space ws = true ->
  exists pre' rest',
    contains "http" (lower pre') = false /\ is_suffix rest' = true /\
    strip (pre ++ company_root ++ slug ++ rest ++ ws)
    = pre' ++ company_root ++ slug ++ rest'.
Proof.
  intros Hpre Hs Hr Hws.
  destruct (strip_root_slug slug rest Hs Hr) as [rest' [Hr' Hstrip]].
  destruct (lstrip_by_suffix is_space pre) as [head Hhead].
  exists (lstrip_by is_space pre), rest'. split; [|split; [exact Hr'|]].
  - destruct (contains "http" (lower (lstrip_by is_space pre))) eqn:E; [|reflexivity].
    rewrite Hhead, lower_append, (contains_append_r _ _ _ E) in Hpre. discriminate.
  - unfold strip in *.
    change (lstrip_by is_space (company_root ++ slug ++ rest))
      with (company_root ++ slug ++ rest) in Hstrip.
    assert (Hl : lstrip_by is_space (pre ++ company_root ++ slug ++ rest ++ ws)
                 = lstrip_by is_space pre ++ company_root ++ slug ++ rest ++ ws)
      by (apply (lstrip_by_append is_space pre _ "h"); reflexivity).
    rewrite Hl.
    assert (Hx : rstrip_by is_space (company_root ++ slug ++ rest ++ ws)
                 = company_root ++ slug ++ rest').
    { rewrite <- Hstrip, <- (rstrip_by_spaces is_space (company_root ++ slug ++ rest) ws Hws).
      now rewrite !append_assoc. }
    rewrite rstrip_by_keeps; rewrite Hx; [reflexivity | discriminate].
Qed.

(** *** The search, on every input *)

Lemma match_literal_ci_spec (lit s r : string) :
  match_literal_ci lit s = Some r <-> exists x, s = x ++ r /\ lower x = lit.
Proof.
  split.
  - revert s. induction lit as [|a lit IH]; intros s; simpl.
    + intros [= ->]. now exists "".
    + destruct s as [|b s]; [discriminate|].
      destruct (Ascii.eqb a (lower_char b)) eqn:E; [|discriminate].
      apply Ascii.eqb_eq in E. intros Hm. destruct (IH _ Hm) as (x & -> & <-).
      exists (String b x). now rewrite E.
  - intros (x & -> & <-). induction x as [|b x IH]; simpl; [reflexivity|].
    now rewrite Ascii.eqb_refl.
Qed.

Lemma lower_length (s : string) : String.length (lower s) = String.length s.
Proof. induction s as [|c s IH]; simpl; [reflexivity | now rewrite IH]. Qed.

Lemma append_length (a b : string) :
  String.length (a ++ b) = (String.length a + String.length b)%nat.
Proof. induction a as [|c a IH]; simpl; [reflexivity | now rewrite IH]. Qed.

Lemma slug_span_spec (s : string) :
  exists slug rest,
    s = slug ++ rest /\ String.length slug = slug_span s /\
    all_chars slug_char slug = true /\ is_suffix rest = true.
Proof.
  induction s as [|c s (slug & rest & Hs & Hn & Hall & Hsuf)]; simpl.
  - now exists "", "".
  - destruct (slug_char c) eqn:Ec.
    + exists (String c slug), rest. simpl. rewrite Ec, Hall, Hn. now rewrite Hs at 1.
    + exists "", (String c s). simpl. now rewrite Ec.
Qed.

Lemma match_host_and_slug_spec (s : string) (n : nat) :
  match_host_and_slug s = Some n ->
  exists host slug rest,
    s = host ++ slug ++ rest /\ lower host = host_literal /\
    slug <> "" /\ all_chars slug_char slug = true /\ is_suffix rest = true /\
    n = (String.length host + String.length slug)%nat.
Proof.
  unfold match_host_and_slug.
  destruct (match_literal_ci "://www.linkedin.com/company/" s) as [r|] eqn:E; [|discriminate].
  apply match_literal_ci_spec in E as (host & -> & Hhost).
  destruct (slug_span_spec r) as (slug & rest & -> & Hn & Hall & Hsuf).
  destruct (slug_span (slug ++ rest)) as [|k] eqn:Ek; [discriminate|].
  intros [= <-]. exists host, slug, rest. repeat split; try assumption.
  - intros ->. discriminate Hn.
  - rewrite Hn. rewrite <- (lower_length host), Hhost. reflexivity.
Qed.

Lemma match_host_and_slug_head (host rest : string) (c : ascii) :
  lower host = host_literal -> slug_char c = true ->
  match_host_and_slug (host ++ String c rest) <> None.
Proof.
  intros Hhost Hc. unfold match_host_and_slug.
  assert (E : match_literal_ci "://www.linkedin.com/company/" (host ++ String c rest)
              = Some (String c rest))
    by (apply match_literal_ci_spec; now exists host).
  rewrite E. simpl. now rewrite Hc.
Qed.

Lemma match_here_spec (s : string) (n : nat) :
  match_here s = Some n ->
  exists scheme host slug rest,
    s = scheme ++ host ++ slug ++ rest /\
    (lower scheme = "http" \/ lower scheme = "https") /\
    lower host = host_literal /\
    slug <> "" /\ all_chars slug_char slug = true /\ is_suffix rest = true /\
    n = String.length (scheme ++ host ++ slug).
Proof.
  unfold match_here.
  destruct (match_literal_ci "http" s) as [r|] eqn:E; [|discriminate].
  apply match_literal_ci_spec in E as (x & -> & Hx).
  assert (Hwithout : option_map (Nat.add 4) (match_host_and_slug r) = Some n ->
            exists scheme host slug rest,
              x ++ r = scheme ++ host ++ slug ++ rest /\
              (lower scheme = "http" \/ lower scheme = "https") /\
              lower host = host_literal /\
              slug <> "" /\ all_chars slug_char slug = true /\ is_suffix rest = true /\
              n = String.length (scheme ++ host ++ slug)).
  { destruct (match_host_and_slug r) as [k|] eqn:Ek; [|discriminate].
    intros [= <-].
    apply match_host_and_slug_spec in Ek as (host & slug & rest & -> & Hh & Hne & Hall & Hsuf & ->).
    exists x, host, slug, rest. repeat split; auto.
    rewrite !append_length, <- (lower_length x), Hx. reflexivity. }
  destruct (match_literal_ci "s" r) as [r'|] eqn:E'; [|exact Hwithout].
  destruct (match_host_and_slug r') as [k|] eqn:Ek; [|exact Hwithout].
  intros [= <-].
  apply match_literal_ci_spec in E' as (y & -> & Hy).
  apply match_host_and_slug_spec in Ek as (host & slug & rest & -> & Hh & Hne & Hall & Hsuf & ->).
  exists (x ++ y), host, slug, rest. repeat split; auto.
  - now rewrite append_assoc.
  - right. now rewrite lower_append, Hx, Hy.
  - rewrite !append_length, <- (lower_length x), <- (lower_length y), Hx, Hy. reflexivity.
Qed.

Lemma match_here_head (s : string) : matches_at_head s -> match_here s <> None.
Proof.
  intros (scheme & host & c & rest & -> & Hscheme & Hhost & Hc).
  pose proof (match_host_and_slug_head host rest c Hhost Hc) as Hslug.
  unfold match_here. destruct Hscheme as [Hs | Hs].
  - assert (E : match_literal_ci "http" (scheme ++ host ++ String c rest)
                = Some (host ++ String c rest))
      by (apply match_literal_ci_spec; now exists scheme).
    rewrite E.
    destruct (match_host_and_slug (host ++ String c rest)) as [k|]; [|contradiction].
    destruct (match_literal_ci "s" _) as [r'|]; [destruct (match_host_and_slug r')|];
      discriminate.
  - assert (Hsplit : exists x y, scheme = x ++ y /\ lower x = "http" /\ lower y = "s").
    { destruct scheme as [|c1 [|c2 [|c3 [|c4 [|c5 [|c6 scheme]]]]]]; try discriminate Hs.
      exists (String c1 (String c2 (String c3 (String c4 "")))), (String c5 "").
      simpl in Hs. injection Hs as H1 H2 H3 H4 H5. simpl. now rewrite H1, H2, H3, H4, H5. }
    destruct Hsplit as (x & y & -> & Hx & Hy).
    assert (E : match_literal_ci "http" ((x ++ y) ++ host ++ String c rest)
                = Some (y ++ host ++ String c rest))
      by (apply match_literal_ci_spec; exists x; now rewrite append_assoc).
    rewrite E.
    assert (E' : match_literal_ci "s" (y ++ host ++ String c rest)
                 = Some (host ++ String c rest))
      by (apply match_literal_ci_spec; now exists y).
    rewrite E'.
    destruct (match_host_and_slug (host ++ String c rest)) as [k|]; [|contradiction].
    discriminate.
Qed.

Lemma match_here_matches (s : string) (n : nat) : match_here s = Some n -> matches_at_head s.
Proof.
  intros H. apply match_here_spec in H
    as (scheme & host & slug & rest & -> & Hs & Hh & Hne & Hall & _).
  destruct slug as [|c slug]; [contradiction|].
  exists scheme, host, c, (slug ++ rest). repeat split; auto.
  simpl in Hall. now apply andb_true_iff in Hall as [Hc _].
Qed.

(** The leftmost match: what is found, and that no match begins before. *)
Lemma search_spec (u g : string) :
  search u = Some g ->
  exists pre scheme host slug rest,
    u = pre ++ scheme ++ host ++ slug ++ rest /\
    g = scheme ++ host ++ slug /\
    (lower scheme = "http" \/ lower scheme = "https") /\
    lower host = host_literal /\
    slug <> "" /\ all_chars slug_char slug = true /\ is_suffix rest = true /\
    forall a b, pre = a ++ b -> b <> "" ->
                ~ matches_at_head (b ++ scheme ++ host ++ slug ++ rest).
Proof.
  revert g. induction u as [|c u IH]; intros g; rewrite search_unfold.
  - destruct (match_here "") as [n|] eqn:E; [|discriminate].
    apply match_here_spec in E
      as (scheme & host & slug & rest & Hu & _ & _ & Hne & _).
    destruct scheme, host, slug; try discriminate Hu. contradiction.
  - destruct (match_here (String c u)) as [n|] eqn:E.
    + apply match_here_spec in E
        as (scheme & host & slug & rest & Hu & Hs & Hh & Hne & Hall & Hsuf & ->).
      rewrite Hu.
      replace (scheme ++ host ++ slug ++ rest) with ((scheme ++ host ++ slug) ++ rest)
        by now rewrite !append_assoc.
      rewrite substring_prefix. intros [= <-].
      exists "", scheme, host, slug, rest. repeat split; auto.
      * now rewrite !append_assoc.
      * intros a b Hab Hb. destruct a, b; try discriminate Hab. contradiction.
    + intros Hs. destruct (IH g Hs)
        as (pre & scheme & host & slug & rest & -> & -> & Hsch & Hh & Hne & Hall & Hsuf & Hleft).
      exists (String c pre), scheme, host, slug, rest. repeat split; auto.
      intros a b Hab Hb Hm. destruct a as [|c' a].
      * simpl in Hab. subst b. apply match_here_head in Hm. now apply Hm.
      * injection Hab as -> ->. now apply (Hleft a b).
Qed.

Lemma search_none (u : string) :
  search u = None <-> forall a b, u = a ++ b -> ~ matches_at_head b.
Proof.
  induction u as [|c u IH]; rewrite search_unfold.
  - split.
    + destruct (match_here "") eqn:E; [discriminate|]. intros _ a b Hab Hm.
      destruct a, b; try discriminate Hab. apply match_here_head in Hm. now apply Hm.
    + intros Hno. destruct (match_here "") as [n|] eqn:E; [|reflexivity].
      exfalso. apply (Hno "" ""); [reflexivity|]. now apply match_here_matches with n.
  - split.
    + destruct (match_here (String c u)) eqn:E; [discriminate|]. intros Hs a b Hab Hm.
      destruct a as [|c' a].
      * simpl in Hab. subst b. apply match_here_head in Hm. now apply Hm.
      * injection Hab as -> ->. now apply (proj1 IH Hs a b).
    + intros Hno. destruct (match_here (String c u)) as [n|] eqn:E.
      * exfalso. apply (Hno "" (String c u)); [reflexivity|].
        now apply match_here_matches with n.
      * apply IH. intros a b -> Hm. now apply (Hno (String c a) b).
Qed.

(** A match does not end with [/]. *)
Lemma rstrip_slash_match (scheme host slug : string) :
  slug <> "" -> all_chars slug_char slug = true ->
  rstrip_slash (scheme ++ host ++ slug) = scheme ++ host ++ slug.
Proof.
  intros Hne Hall.
  assert (Hid : rstrip_slash slug = slug).
  { apply rstrip_by_id. revert Hall. apply all_chars_weaken. intros c.
    unfold slug_char. rewrite !negb_true_iff, !orb_false_iff. tauto. }
  unfold rstrip_slash in *.
  rewrite rstrip_by_keeps; rewrite rstrip_by_keeps; rewrite Hid; auto.
  now destruct host, slug.
Qed.

Lemma normalize_by_search (u : string) :
  _normalize_company_url u =
  match search (strip u) with
  | None => ""
  | Some g => rstrip_slash g ++ "/"
  end.
Proof.
  unfold _normalize_company_url. destruct (strip u) as [|c s] eqn:E; reflexivity.
Qed.

Lemma append_slash_not_empty (g : string) : g ++ "/" <> "".
Proof. now destruct g. Qed.

End UrlFacts.

(** C5, as the code has it.  An input that holds the root
    [https://www.linkedin.com/company/] followed by a slug and then
    nothing, a path, a query or a fragment, after a text without [http]
    and before white space, is mapped to the root, the slug and one [/];
    an input in which [://www.linkedin.com/company/] does not occur, in
    any letter case, is mapped to the empty string (the empty input and
    every URL of another host among them).  On every input: the result is
    empty exactly when the pattern matches nowhere in the stripped input;
    otherwise it is the leftmost match, as it is written, and one [/]:
    [http] or [https], the host and path [://www.linkedin.com/company/]
    and the longest run of characters other than [/], [?] and [#], each
    in any letter case. *)
Theorem normalize_company_url_canonical (pre slug rest ws u : string) :
  (Text.contains "http" (Text.lower pre) = false ->
   Url.is_slug slug = true -> Url.is_suffix rest = true ->
   Url.all_chars Text.is_space ws = true ->
   Url._normalize_company_url (pre ++ Url.company_root ++ slug ++ rest ++ ws)
   = Url.company_root ++ slug ++ "/")
  /\ (Text.contains "://www.linkedin.com/company/" (Text.lower u) = false ->
      Url._normalize_company_url u = "")
  /\ (Url._normalize_company_url u = "" <->
      forall a b, Text.strip u = a ++ b -> ~ Url.matches_at_head b)
  /\ (Url._normalize_company_url u <> "" ->
      exists before scheme host name after,
        Text.strip u = before ++ scheme ++ host ++ name ++ after /\
        (Text.lower scheme = "http" \/ Text.lower scheme = "https") /\
        Text.lower host = Url.host_literal /\
        name <> "" /\ Url.all_chars Url.slug_char name = true /\
        Url.is_suffix after = true /\
        (forall a b, before = a ++ b -> b <> "" ->
                     ~ Url.matches_at_head (b ++ scheme ++ host ++ name ++ after)) /\
        Url._normalize_company_url u = scheme ++ host ++ name ++ "/").
Proof.
  split; [|split; [|split]].
  - intros Hpre Hs Hr Hws. unfold Url._normalize_company_url.
    destruct (UrlFacts.strip_around_root_slug pre slug rest ws Hpre Hs Hr Hws)
      as (pre' & rest' & Hpre' & Hr' & ->).
    rewrite (UrlFacts.search_after_prefix pre' slug rest' Hpre' Hs Hr').
    assert (Htruthy : Text.truthy (pre' ++ Url.company_root ++ slug ++ rest') = true)
      by (now destruct pre').
    rewrite Htruthy. cbn [negb].
    assert (Hid : Text.rstrip_slash slug = slug).
    { apply UrlFacts.rstrip_by_id. unfold Url.is_slug in Hs.
      apply andb_true_iff in Hs as [_ Hs]. revert Hs.
      apply UrlFacts.all_chars_weaken. intros c.
      unfold Url.slug_char. rewrite andb_true_iff, !negb_true_iff, !orb_false_iff. tauto. }
    unfold Text.rstrip_slash in *. rewrite TextFacts.rstrip_by_keeps.
    + now rewrite Hid, TextFacts.append_assoc.
    + rewrite Hid. now destruct slug.
  - intros Hno. unfold Url._normalize_company_url.
    destruct (negb (Text.truthy (Text.strip u))); [reflexivity|].
    destruct (Url.search (Text.strip u)) as [g|] eqn:E; [|reflexivity].
    apply UrlFacts.search_lower, TextFacts.contains_strip in E.
    unfold Url.host_literal in E. congruence.
  - rewrite UrlFacts.normalize_by_search.
    destruct (Url.search (Text.strip u)) as [g|] eqn:E.
    + split; [intros H; now apply UrlFacts.append_slash_not_empty in H|].
      intros Hno. apply UrlFacts.search_none in Hno. congruence.
    + split; [intros _; now apply UrlFacts.search_none | reflexivity].
  - rewrite UrlFacts.normalize_by_search.
    destruct (Url.search (Text.strip u)) as [g|] eqn:E; [|contradiction].
    intros _. apply UrlFacts.search_spec in E
      as (before & scheme & host & name & after & Hu & -> & Hs & Hh & Hne & Hall & Hsuf & Hleft).
    exists before, scheme, host, name, after. repeat split; try assumption.
    rewrite (UrlFacts.rstrip_slash_match scheme host name Hne Hall).
    now rewrite !TextFacts.append_assoc.
Qed.

Lemma normalize_company_url_canonical_witness :
  Url._normalize_company_url "https://www.linkedin.com/company/acme/life?x=1"
  = "https://www.linkedin.com/company/acme/"
  /\ Url._normalize_company_url "https://jobs.example.org/company/acme/" = ""
  /\ exists scheme host name,
       Url._normalize_company_url "see HTTP://www.LinkedIn.com/Company/Acme#jobs"
       = scheme ++ host ++ name ++ "/"
       /\ Text.lower host = Url.host_literal.
Proof.
  split; [|split].
  - apply (proj1 (normalize_company_url_canonical "" "acme" "/life?x=1" "" ""));
      reflexivity.
  - apply (proj1 (proj2 (normalize_company_url_canonical "" "" "" ""
                           "https://jobs.example.org/company/acme/"))); reflexivity.
  - destruct (normalize_company_url_canonical "" "" "" ""
                "see HTTP://www.LinkedIn.com/Company/Acme#jobs") as (_ & _ & _ & H).
    destruct H as (before & scheme & host & name & after & _ & _ & Hh & _ & _ & _ & _ & Hr).
    + vm_compute. discriminate.
    + now exists scheme, host, name.
Defined.

(** C5, as the claim has it, fails.  An input written with [http://] holds
    no canonical form, and the result is not the empty string: the match
    is returned with the scheme it has.  An input that holds the
    canonical form after such a match is not mapped to the canonical
    form: the first match wins, and its slug runs on to the next [/]. *)
Lemma normalize_returns_other_schemes :
  let plain := "http://www.linkedin.com/company/acme" in
  let both := "http://www.linkedin.com/company/x https://www.linkedin.com/company/acme" in
  Text.contains Url.company_root plain = false /\
  Url._normalize_company_url plain = "http://www.linkedin.com/company/acme/" /\
  Url._normalize_company_url plain <> "" /\
  Text.contains (Url.company_root ++ "acme") both = true /\
  Url._normalize_company_url both = "http://www.linkedin.com/company/x https:/" /\
  Url._normalize_company_url both <> "https://www.linkedin.com/company/acme/".
Proof. cbv zeta. repeat split; try (vm_compute; reflexivity); vm_compute; discriminate. Qed.

(** ** The store file and its schema upgrade *)
Module StoreFacts.
Import Text Store.

Lemma mem_In (c : string) (l : list string) : mem c l = true <-> In c l.
Proof.
  unfold mem. rewrite existsb_exists. split.
  - intros [x [Hx He]]. apply String.eqb_eq in He. now subst.
  - intros Hc. exists c. split; [assumption | apply String.eqb_refl].
Qed.

Lemma mem_false (c : string) (l : list string) : mem c l = false <-> ~ In c l.
Proof. rewrite <- mem_In. now destruct (mem c l). Qed.

Lemma fit_length (n : nat) (r : row) : length (fit n r) = n.
Proof. revert r. induction n as [|n IH]; intros [|x r]; simpl; auto. Qed.

Lemma fit_id (r : row) : fit (length r) r = r.
Proof. induction r as [|x r IH]; simpl; [reflexivity | now rewrite IH]. Qed.

Lemma nth_fit (n i : nat) (r : row) : (i < n)%nat -> nth i (fit n r) "" = nth i r "".
Proof.
  revert i r. induction n as [|n IH]; intros i r Hi; [lia|].
  destruct r as [|x r]; destruct i as [|i]; simpl; try reflexivity.
  - rewrite IH by lia. now destruct i.
  - apply IH. lia.
Qed.

Lemma col_index_lt (c : string) (cols : list string) (i : nat) :
  col_index c cols = Some i -> (i < length cols)%nat /\ nth i cols "" = c.
Proof.
  revert i. induction cols as [|c' cols IH]; intros i; simpl; [discriminate|].
  destruct (String.eqb c c') eqn:E.
  - intros [= <-]. apply String.eqb_eq in E. split; [lia | now subst].
  - destruct (col_index c cols) as [j|]; simpl; [|discriminate].
    intros [= <-]. destruct (IH j eq_refl). split; [lia | assumption].
Qed.

Lemma col_index_In (c : string) (cols : list string) :
  In c cols -> exists i, col_index c cols = Some i.
Proof.
  induction cols as [|c' cols IH]; simpl; [tauto|].
  destruct (String.eqb c c') eqn:E; [eauto|].
  intros [->|Hc]; [rewrite String.eqb_refl in E; discriminate|].
  destruct (IH Hc) as [i ->]. simpl. eauto.
Qed.

Lemma col_index_None (c : string) (cols : list string) :
  ~ In c cols -> col_index c cols = None.
Proof.
  induction cols as [|c' cols IH]; simpl; [reflexivity|].
  intros Hn. destruct (String.eqb c c') eqn:E.
  - apply String.eqb_eq in E. subst. tauto.
  - rewrite IH; [reflexivity | tauto].
Qed.

Lemma col_index_app_l (c : string) (cols more : list string) (i : nat) :
  col_index c cols = Some i -> col_index c (cols ++ more) = Some i.
Proof.
  revert i. induction cols as [|c' cols IH]; intros i; simpl; [discriminate|].
  destruct (String.eqb c c'); [trivial|].
  destruct (col_index c cols) as [j|]; simpl; [|discriminate].
  intros [= <-]. now rewrite (IH j eq_refl).
Qed.

Lemma col_index_app_r (c : string) (cols more : list string) (j : nat) :
  ~ In c cols -> col_index c more = Some j ->
  col_index c (cols ++ more) = Some (length cols + j)%nat.
Proof.
  intros Hn Hj. induction cols as [|c' cols IH]; simpl; [assumption|].
  destruct (String.eqb c c') eqn:E.
  - apply String.eqb_eq in E. subst. simpl in Hn. tauto.
  - rewrite IH; [reflexivity | simpl in Hn; tauto].
Qed.

(** Reading a cell of a row rebuilt over [wanted]. *)
Lemma cell_of_rebuilt (wanted : list string) (g : string -> string) (c : string) :
  In c wanted -> cell_of wanted c (map g wanted) = g c.
Proof.
  intros Hc. unfold cell_of. destruct (col_index_In c wanted Hc) as [i Hi].
  rewrite Hi. destruct (col_index_lt _ _ _ Hi) as [Hlt Hnth].
  transitivity (nth i (map g wanted) (g "")).
  - apply nth_indep. now rewrite length_map.
  - now rewrite map_nth, Hnth.
Qed.

(** Case analysis on the test [read_csv] makes on the lines. *)
Ltac case_lines ls :=
  cbv zeta;
  match goal with
  | |- context [forallb ?p ls] => destruct (forallb p ls)
  end.

Lemma expected_fields_ge (h : row) (ls : list row) :
  (length h <= expected_fields h ls)%nat.
Proof. unfold expected_fields. destruct ls; lia. Qed.

Lemma expected_fields_short (h : row) (ls : list row) :
  List.Forall (fun l => (length l <= length h)%nat) ls -> expected_fields h ls = length h.
Proof.
  unfold expected_fields. destruct ls as [|first ls]; [reflexivity|].
  intros Hs. inversion Hs; subst. lia.
Qed.

(** A sheet without a line longer than its header reads field by field. *)
Lemma read_csv_short (h : row) (ls : list row) :
  List.Forall (fun l => (length l <= length h)%nat) ls ->
  read_csv (Sheet h ls) = Ok {| columns := h; rows := map (fit (length h)) ls |}.
Proof.
  intros Hs. cbn [read_csv]. rewrite (expected_fields_short h ls Hs), Nat.sub_diag.
  assert (Hall : forallb (fun l => (length l <=? length h)%nat) ls = true).
  { apply forallb_forall. intros l Hl. rewrite List.Forall_forall in Hs.
    apply Nat.leb_le. now apply Hs. }
  now rewrite Hall.
Qed.

Lemma read_csv_rectangular (f : csv_file) (df : DataFrame) :
  read_csv f = Ok df -> rectangular df.
Proof.
  destruct f as [| |ls|h ls]; cbn [read_csv]; try discriminate.
  case_lines ls; [|discriminate].
  intros [= <-].
  unfold rectangular. cbn [rows columns]. apply List.Forall_map, List.Forall_forall.
  intros r _. rewrite length_skipn, fit_length.
  pose proof (expected_fields_ge h ls). lia.
Qed.

(** The columns added one after the other by the loop over [missing]. *)
Lemma add_missing_columns (missing : list string) (df : DataFrame) :
  List.NoDup missing -> (forall c, In c missing -> ~ In c (columns df)) ->
  rectangular df ->
  let df' := fold_left (fun d c => set_column c cannot_fetch d) missing df in
  columns df' = (columns df ++ missing)%list /\
  rows df' = map (fun r => (r ++ repeat cannot_fetch (length missing))%list) (rows df).
Proof.
  revert df. induction missing as [|c missing IH]; intros df Hnd Hfresh Hrect; simpl.
  - split; [now rewrite app_nil_r|].
    rewrite <- (map_id (rows df)) at 1. apply map_ext. intros r. now rewrite app_nil_r.
  - inversion Hnd as [|? ? Hc Hnd']; subst.
    assert (Hset : set_column c cannot_fetch df =
              {| columns := (columns df ++ [c])%list;
                 rows := map (fun r => (r ++ [cannot_fetch])%list) (rows df) |}).
    { unfold set_column. rewrite col_index_None by (apply Hfresh; now left).
      f_equal. apply map_ext_in. intros r Hr.
      unfold rectangular in Hrect. rewrite List.Forall_forall in Hrect.
      now rewrite <- (Hrect r Hr), fit_id. }
    rewrite Hset.
    destruct (IH {| columns := (columns df ++ [c])%list;
                    rows := map (fun r => (r ++ [cannot_fetch])%list) (rows df) |} Hnd')
      as [Hcols Hrows].
    + simpl. intros c' Hc' Hin. apply in_app_or in Hin as [Hin|[->|[]]].
      * apply (Hfresh c'); [now right | assumption].
      * contradiction.
    + unfold rectangular in *. simpl. rewrite List.Forall_forall in *.
      intros r' Hr'. apply in_map_iff in Hr' as [r [<- Hr]].
      rewrite !length_app, (Hrect r Hr). reflexivity.
    + simpl in Hcols, Hrows. rewrite Hcols, Hrows. split.
      * now rewrite <- app_assoc.
      * rewrite map_map. apply map_ext. intros r. now rewrite <- app_assoc.
Qed.

(** A cell of a row widened by the missing columns. *)
Lemma cell_of_widened (cols missing : list string) (c : string) (r : row) :
  length r = length cols -> List.NoDup missing ->
  cell_of (cols ++ missing)%list c (r ++ repeat cannot_fetch (length missing))%list =
  if mem c cols then cell_of cols c r
  else if mem c missing then cannot_fetch else "".
Proof.
  intros Hlen Hnd. unfold cell_of. destruct (mem c cols) eqn:Hc.
  - apply mem_In, col_index_In in Hc as [i Hi].
    rewrite (col_index_app_l _ _ _ _ Hi), Hi.
    apply app_nth1. rewrite Hlen. now apply col_index_lt in Hi.
  - apply mem_false in Hc. destruct (mem c missing) eqn:Hm.
    + apply mem_In, col_index_In in Hm as [j Hj].
      rewrite (col_index_app_r _ _ _ _ Hc Hj), <- Hlen, app_nth2_plus.
      apply nth_repeat_lt. now apply col_index_lt in Hj.
    + apply mem_false in Hm. rewrite col_index_None; [reflexivity|].
      intros Hin. apply in_app_or in Hin. tauto.
Qed.

Lemma filter_negb_nil (p : string -> bool) (l : list string) :
  List.filter (fun c => negb (p c)) l = [] <-> forallb p l = true.
Proof.
  induction l as [|x l IH]; simpl; [tauto|].
  destruct (p x); simpl; [exact IH | split; discriminate].
Qed.

Lemma missing_spec (cols : list string) (c : string) :
  In c (List.filter (fun c => negb (mem c cols)) _header) <-> In c _header /\ ~ In c cols.
Proof. now rewrite filter_In, negb_true_iff, mem_false. Qed.

Lemma distinct_NoDup (l : list string) : distinct l = true -> List.NoDup l.
Proof.
  induction l as [|x l IH]; simpl; [constructor|].
  rewrite andb_true_iff, negb_true_iff, mem_false. intros [Hx Hl].
  constructor; auto.
Qed.

Lemma header_NoDup : List.NoDup _header.
Proof. apply distinct_NoDup. vm_compute. reflexivity. Qed.

(** A file under the canonical header is left as it is. *)
Lemma ensure_canonical (ls : list row) :
  _ensure_header_or_upgrade (Sheet _header ls) = Sheet _header ls.
Proof.
  unfold _ensure_header_or_upgrade, read_csv.
  case_lines ls; reflexivity.
Qed.

(** The file is kept, or written under the canonical header. *)
Lemma ensure_cases (f : csv_file) :
  _ensure_header_or_upgrade f = f \/
  exists ls, _ensure_header_or_upgrade f = Sheet _header ls.
Proof.
  unfold _ensure_header_or_upgrade.
  destruct f as [| |ls|h ls]; try (right; now exists []); try (now left).
  destruct (read_csv (Sheet h ls)) as [df|e]; [|now left].
  destruct (List.filter _ _); [now left|].
  right. unfold to_csv, reindex. cbn [columns rows]. eauto.
Qed.

Lemma upgraded_rows (df : DataFrame) :
  rectangular df ->
  rows (upgraded df) =
  map (fun r => map (fun c => if mem c (columns df) then cell_of (columns df) c r
                              else cannot_fetch) _header) (rows df).
Proof.
  intros Hrect. unfold upgraded, reindex. cbn [rows].
  set (missing := List.filter (fun c => negb (mem c (columns df))) _header).
  assert (Hnd : List.NoDup missing) by (apply List.NoDup_filter, header_NoDup).
  destruct (add_missing_columns missing df Hnd) as [Hcols Hrows];
    [intros c Hc; now apply missing_spec in Hc | assumption |].
  cbv zeta in Hcols, Hrows. rewrite Hcols, Hrows, map_map.
  apply map_ext_in. intros r Hr. apply map_ext_in. intros c Hc.
  unfold rectangular in Hrect. rewrite List.Forall_forall in Hrect.
  rewrite (cell_of_widened _ _ _ _ (Hrect r Hr) Hnd).
  destruct (mem c (columns df)) eqn:E; [reflexivity|].
  assert (Hm : mem c missing = true).
  { apply mem_In, missing_spec. split; [assumption | now apply mem_false]. }
  now rewrite Hm.
Qed.

Lemma read_upgraded (df : DataFrame) :
  read_csv (to_csv (upgraded df)) = Ok (upgraded df).
Proof.
  unfold to_csv.
  assert (Hlen : List.Forall (fun r => length r = length _header) (rows (upgraded df))).
  { unfold upgraded, reindex. cbn [rows]. apply List.Forall_map, List.Forall_forall.
    intros r _. now rewrite length_map. }
  change (columns (upgraded df)) with _header.
  rewrite read_csv_short.
  - destruct (upgraded df) as [cols rs] eqn:E.
    assert (Hcols : cols = _header) by (unfold upgraded, reindex in E; congruence).
    cbn [rows] in *. subst cols. do 2 f_equal.
    rewrite <- (map_id rs) at 2. apply map_ext_in. intros r Hr.
    rewrite List.Forall_forall in Hlen. rewrite <- (Hlen r Hr). apply fit_id.
  - revert Hlen. apply List.Forall_impl. intros r Hr. lia.
Qed.

Lemma read_csv_sheet (h : row) (ls : list row) (df : DataFrame) :
  read_csv (Sheet h ls) = Ok df -> columns df = h.
Proof.
  cbn [read_csv]. case_lines ls; [|discriminate]. now intros [= <-].
Qed.

(** A canonical column after the upgrade. *)
Lemma upgraded_column (df : DataFrame) (c : string) :
  rectangular df -> In c _header ->
  column c (upgraded df) =
  if mem c (columns df) then column c df
  else repeat cannot_fetch (length (rows df)).
Proof.
  intros Hrect Hc. unfold column. rewrite (upgraded_rows df Hrect), map_map.
  change (columns (upgraded df)) with _header.
  destruct (mem c (columns df)) eqn:Ec.
  - apply map_ext. intros r. rewrite (cell_of_rebuilt _header _ c Hc). now rewrite Ec.
  - induction (rows df) as [|r rs IH]; [reflexivity|].
    cbn [map length repeat]. rewrite IH.
    rewrite (cell_of_rebuilt _header _ c Hc). now rewrite Ec.
Qed.

(** What the upgrade does to a file that parses. *)
Lemma ensure_readable (f : csv_file) (df : DataFrame) :
  f <> Absent -> f <> Blank -> read_csv f = Ok df ->
  _ensure_header_or_upgrade f =
  if forallb (fun c => mem c (columns df)) _header then f else to_csv (upgraded df).
Proof.
  intros Ha Hb Er. unfold _ensure_header_or_upgrade.
  destruct f as [| |ls|h ls]; try contradiction; try discriminate; rewrite Er.
  destruct (forallb (fun c => mem c (columns df)) _header) eqn:Ea.
  - apply filter_negb_nil in Ea. now rewrite Ea.
  - destruct (List.filter (fun c => negb (mem c (columns df))) _header) eqn:Em;
      [|now rewrite <- Em].
    apply filter_negb_nil in Em. congruence.
Qed.

End StoreFacts.



Example days_from_civil_2024 : Fixtures.days_from_civil 2024 2 10 = 19763%Z.
Proof. reflexivity. Qed.
Example strptime_padded_ok :
  Fixtures.strptime_padded "2024-01-01 00:00:00" = Ok (Fixtures.datetime 2024 1 1 0 0 0).
Proof. reflexivity. Qed.
Example strptime_padded_unknown : Fixtures.strptime_padded "unknown" = Raised "ValueError".
Proof. reflexivity. Qed.

(** ** The fallback data client *)
Module ApiFacts.
Import Text Api.

Section Client.
Context {parsers : Parsers}.

Lemma str_or_empty (s : string) : str_or s "" = s.
Proof. now destruct s. Qed.

Lemma first_long_candidate_found (candidates : list (option string)) (i : nat) (txt : string) :
  nth_error candidates i = Some (Some txt) ->
  qualifies (Some txt) = true ->
  forallb (fun c => negb (qualifies c)) (firstn i candidates) = true ->
  first_long_candidate candidates = Some (strip txt).
Proof.
  revert i. induction candidates as [|c cs IH]; intros i Hi Hq Hbefore.
  - now destruct i.
  - destruct i as [|i]; simpl in Hi.
    + injection Hi as ->. simpl in *. now rewrite Hq.
    + simpl in Hbefore. apply andb_true_iff in Hbefore as [Hc Hcs].
      apply negb_true_iff in Hc. specialize (IH i Hi Hq Hcs).
      simpl. destruct c as [t|]; [|exact IH]. simpl in Hc. now rewrite Hc.
Qed.

Lemma first_long_candidate_none (candidates : list (option string)) :
  forallb (fun c => negb (qualifies c)) candidates = true ->
  first_long_candidate candidates = None.
Proof.
  induction candidates as [|c cs IH]; simpl; [reflexivity|].
  rewrite andb_true_iff, negb_true_iff. intros [Hc Hcs].
  destruct c as [t|]; [simpl in Hc; rewrite Hc|]; auto.
Qed.

(** The guest endpoint raises what the constructor raises on the body of
    a response that is good, and nothing else. *)
Lemma fetch_guest_jd_raises (http : res Response) (e : string) :
  fetch_guest_jd http = Raised e <->
  exists r, http = Ok r /\ failed http = false /\ soup_raises (text r) = Some e.
Proof.
  unfold fetch_guest_jd, failed. destruct http as [r|e0].
  - destruct (negb (status_code r =? 200)%Z || negb (truthy (strip (text r)))) eqn:Ef.
    + split; [discriminate|]. intros (r' & [= <-] & Hf & _). discriminate.
    + destruct (soup_raises (text r)) as [e1|] eqn:Es.
      * split; [intros [= <-]; now exists r|].
        intros (r' & [= <-] & _ & Hs). congruence.
      * split; [destruct (first_long_candidate _); discriminate|].
        intros (r' & [= <-] & _ & Hs). congruence.
  - split; [discriminate|]. intros (r & Hr & _). discriminate.
Qed.

Lemma fetch_voyager_json_ok (http : res Response) : exists data, fetch_voyager_json http = Ok data.
Proof.
  unfold fetch_voyager_json. destruct http as [r|e]; [|eauto].
  destruct (_ || _); [eauto|].
  destruct (json_loads (strip_guard _)); [eauto|]. destruct (json_loads _); eauto.
Qed.

Lemma fetch_guest_jd_failed (http : res Response) :
  failed http = true -> fetch_guest_jd http = Ok "".
Proof.
  unfold failed, fetch_guest_jd. destruct http as [r|e]; [|reflexivity]. now intros ->.
Qed.

Lemma fetch_voyager_json_failed (http : res Response) :
  failed http || malformed http = true -> fetch_voyager_json http = Ok (JObj []).
Proof.
  unfold failed, malformed, fetch_voyager_json. destruct http as [r|e]; [|reflexivity].
  destruct (negb (status_code r =? 200)%Z || negb (truthy (strip (text r))));
    [reflexivity|].
  cbn [orb].
  destruct (json_loads (strip_guard (strip (text r)))); [discriminate|].
  now destruct (json_loads (text r)).
Qed.

(** The value returned, in terms of what the two endpoints returned. *)
Lemma fetch_jd_and_posted_at_eq (idx : nat) (refresh : res unit) (guest voyager : res Response)
    (jd_guest : string) (data : json) :
  refreshed idx refresh ->
  fetch_guest_jd guest = Ok jd_guest ->
  fetch_voyager_json voyager = Ok data ->
  jd_raises data = None ->
  fetch_jd_and_posted_at idx refresh guest voyager =
  Ok (if truthy jd_guest then jd_guest else jd_from_json data,
      if json_truthy data then _extract_posted_at data else "").
Proof.
  intros Hr Hg Hv Hj. unfold fetch_jd_and_posted_at. unfold refreshed in Hr.
  destruct (refresh_due idx); [rewrite (Hr eq_refl)|];
    now rewrite Hg, Hv, Hj, !str_or_empty.
Qed.

(** A call that returned: nothing was raised on the way. *)
Lemma fetch_jd_and_posted_at_returned (idx : nat) (refresh : res unit)
    (guest voyager : res Response) (out : string * string) :
  fetch_jd_and_posted_at idx refresh guest voyager = Ok out ->
  exists jd_guest data,
    refreshed idx refresh /\
    fetch_guest_jd guest = Ok jd_guest /\
    fetch_voyager_json voyager = Ok data /\
    jd_raises data = None /\
    out = (if truthy jd_guest then jd_guest else jd_from_json data,
           if json_truthy data then _extract_posted_at data else "").
Proof.
  unfold fetch_jd_and_posted_at, refreshed.
  assert (Hstep : forall go : res unit,
            match go with
            | Raised e => Raised e
            | Ok _ =>
                match fetch_guest_jd guest with
                | Raised e => Raised e
                | Ok jd_guest =>
                    match fetch_voyager_json voyager with
                    | Raised e => Raised e
                    | Ok data =>
                        let posted_at := if json_truthy data then _extract_posted_at data else "" in
                        match jd_raises data with
                        | Some e => Raised e
                        | None =>
                            let jd_voyager := jd_from_json data in
                            let jd_final := if truthy jd_guest then jd_guest else jd_voyager in
                            Ok (str_or jd_final "", str_or posted_at "")
                        end
                    end
                end
            end = Ok out ->
            exists u, go = Ok u /\
            exists jd_guest data,
              fetch_guest_jd guest = Ok jd_guest /\
              fetch_voyager_json voyager = Ok data /\
              jd_raises data = None /\
              out = (if truthy jd_guest then jd_guest else jd_from_json data,
                     if json_truthy data then _extract_posted_at data else "")).
  { intros [u|e0]; [|discriminate]. 
    destruct (fetch_guest_jd guest) as [jd_guest|e1]; [|discriminate].
    destruct (fetch_voyager_json voyager) as [data|e2]; [|discriminate].
    cbv zeta. destruct (jd_raises data) eqn:Ej; [discriminate|].
    rewrite !str_or_empty. intros [= <-]. exists u. split; [reflexivity|].
    now exists jd_guest, data. }
  intros H. apply Hstep in H as (u & Hu & jd_guest & data & H).
  exists jd_guest, data. split; [|exact H].
  intros Hd. rewrite Hd in Hu. now destruct u.
Qed.

(** What the combined method raises: what the refresh raises when it is
    due, else what the guest endpoint raises, else what line 927 raises. *)
Lemma fetch_jd_and_posted_at_raises (idx : nat) (refresh : res unit)
    (guest voyager : res Response) (e : string) :
  fetch_jd_and_posted_at idx refresh guest voyager = Raised e <->
  (refresh_due idx = true /\ refresh = Raised e) \/
  (refreshed idx refresh /\
   (fetch_guest_jd guest = Raised e \/
    exists jd_guest data,
      fetch_guest_jd guest = Ok jd_guest /\
      fetch_voyager_json voyager = Ok data /\
      jd_raises data = Some e)).
Proof.
  unfold fetch_jd_and_posted_at, refreshed.
  destruct (refresh_due idx) eqn:Ed.
  - destruct refresh as [[]|e0].
    + destruct (fetch_guest_jd guest) as [jd_guest|e1] eqn:Eg.
      * destruct (fetch_voyager_json_ok voyager) as [data Hv]. rewrite Hv. cbv zeta.
        destruct (jd_raises data) as [e2|] eqn:Ej.
        -- split.
           ++ intros [= <-]. right. split; [reflexivity|]. right. now exists jd_guest, data.
           ++ intros [[_ H] | [_ [H | (j & d & [= <-] & [= <-] & H)]]]; congruence.
        -- split; [discriminate|].
           intros [[_ H] | [_ [H | (j & d & [= <-] & [= <-] & H)]]]; congruence.
      * split.
        -- intros [= <-]. right. split; [reflexivity|]. now left.
        -- intros [[_ H] | [_ [H | (j & d & H & _)]]]; congruence.
    + split.
      * intros [= <-]. now left.
      * intros [[_ H] | [H _]]; [congruence|]. specialize (H eq_refl). discriminate.
  - destruct (fetch_guest_jd guest) as [jd_guest|e1] eqn:Eg.
    + destruct (fetch_voyager_json_ok voyager) as [data Hv]. rewrite Hv. cbv zeta.
      destruct (jd_raises data) as [e2|] eqn:Ej.
      * split.
        -- intros [= <-]. right. split; [discriminate|]. right. now exists jd_guest, data.
        -- intros [[H _] | [_ [H | (j & d & [= <-] & [= <-] & H)]]]; congruence.
      * split; [discriminate|].
        intros [[H _] | [_ [H | (j & d & [= <-] & [= <-] & H)]]]; congruence.
    + split.
      * intros [= <-]. right. split; [discriminate|]. now left.
      * intros [[H _] | [_ [H | (j & d & H & _)]]]; congruence.
Qed.

Lemma In_insert_by_len (h x : string * string) (sorted : list (string * string)) :
  In x (insert_by_len h sorted) -> x = h \/ In x sorted.
Proof.
  induction sorted as [|h' rest IH]; simpl.
  - intros [<-|[]]. now left.
  - destruct (_ <? _)%nat; simpl.
    + intros [<-|[<-|Hx]]; auto.
    + intros [<-|Hx]; [auto|]. destruct (IH Hx); auto.
Qed.

Lemma In_sort_by_len_desc (hits : list (string * string)) (x : string * string) :
  In x (sort_by_len_desc hits) -> In x hits.
Proof.
  unfold sort_by_len_desc.
  assert (Hgen : forall acc, In x (fold_left (fun sorted h => insert_by_len h sorted) hits acc) ->
                             In x hits \/ In x acc).
  { induction hits as [|h hits IH]; intros acc; simpl; [auto|].
    intros Hx. destruct (IH _ Hx) as [Hx'|Hx']; [auto|].
    destruct (In_insert_by_len _ _ _ Hx'); subst; auto. }
  intros Hx. destruct (Hgen [] Hx) as [Hx'|[]]. exact Hx'.
Qed.

Lemma In_firstn (n : nat) (l : list (string * string)) (x : string * string) :
  In x (firstn n l) -> In x l.
Proof.
  revert l. induction n as [|n IH]; intros [|y l]; simpl; try tauto.
  intros [->|Hx]; auto.
Qed.

(** [jd_raises] and [jd_from_json] look at the same string. *)
Lemma jd_from_json_of_best (data : json) :
  jd_from_json data =
  if json_truthy data then
    if truthy (best_string data)
    then let b := clean_description (best_string data) in
         if (80 <? String.length b)%nat then b else ""
    else ""
  else "".
Proof. reflexivity. Qed.

End Client.
End ApiFacts.

(** C7, as the code has it.  On a response with status 200 and a body that
    is not blank and that the parser accepts, the description is the
    stripped text of the first container that qualifies; when none of the
    four qualifies it is the text of the whole document if that text,
    stripped, is longer than 80 characters, and the empty string
    otherwise. *)
Theorem fetch_guest_jd_first_container {parsers : Api.Parsers}
    (r : Api.Response) (i : nat) (txt : string) :
  Api.status_code r = 200%Z ->
  Text.truthy (Text.strip (Api.text r)) = true ->
  Api.soup_raises (Api.text r) = None ->
  let candidates := map (Api.select_one_text (Api.text r)) Api.guest_selectors in
  (nth_error candidates i = Some (Some txt) ->
   Api.qualifies (Some txt) = true ->
   forallb (fun c => negb (Api.qualifies c)) (firstn i candidates) = true ->
   Api.fetch_guest_jd (Ok r) = Ok (Text.strip txt))
  /\ (forallb (fun c => negb (Api.qualifies c)) candidates = true ->
      Api.fetch_guest_jd (Ok r) =
      Ok (let whole := Api._html_to_text (Api.text r) in
          if (80 <? String.length (Text.strip whole))%nat then whole else "")).
Proof.
  intros Hstatus Hbody Hparsed candidates. unfold Api.fetch_guest_jd.
  rewrite Hstatus, Hbody, Hparsed. cbn [Z.eqb Pos.eqb negb orb]. fold candidates. split.
  - intros Hi Hq Hbefore.
    now rewrite (ApiFacts.first_long_candidate_found candidates i txt Hi Hq Hbefore).
  - intros Hnone. now rewrite (ApiFacts.first_long_candidate_none candidates Hnone).
Qed.

Lemma fetch_guest_jd_first_container_witness :
  Api.fetch_guest_jd
    (parsers := Fixtures.one_container "div.description__text" Fixtures.sample_text)
    (Ok {| Api.status_code := 200; Api.text := "<html>...</html>" |})
  = Ok (Text.strip Fixtures.sample_text)
  /\ Api.fetch_guest_jd (parsers := Fixtures.plain_text)
       (Ok {| Api.status_code := 200; Api.text := "n/a" |})
     = Ok "".
Proof.
  split.
  - apply (fetch_guest_jd_first_container
             (parsers := Fixtures.one_container "div.description__text" Fixtures.sample_text)
             {| Api.status_code := 200; Api.text := "<html>...</html>" |}
             1 Fixtures.sample_text); reflexivity.
  - apply (fetch_guest_jd_first_container (parsers := Fixtures.plain_text)
             {| Api.status_code := 200; Api.text := "n/a" |} 0 ""); reflexivity.
Defined.

(** C7, as the claim has it, fails: no container is found in a body of
    plain text, and the description returned is not empty: it is the
    text of the whole document. *)
Lemma fetch_guest_jd_whole_document :
  let r := {| Api.status_code := 200; Api.text := Fixtures.sample_text |} in
  forallb (fun c => negb (Api.qualifies c))
    (map (Api.select_one_text (Parsers := Fixtures.plain_text) (Api.text r))
       Api.guest_selectors) = true
  /\ Api.fetch_guest_jd (parsers := Fixtures.plain_text) (Ok r) = Ok Fixtures.sample_text
  /\ Api.fetch_guest_jd (parsers := Fixtures.plain_text) (Ok r) <> Ok "".
Proof.
  cbv zeta. split; [reflexivity|]. split; [reflexivity|]. vm_compute. discriminate.
Qed.

(** C8, as the code has it.  A request that fails (network error, status
    other than 200, blank body) gives the empty string on the guest
    endpoint and the empty payload on the JSON endpoint, as does a
    payload that does not parse, and the failure of one endpoint leaves
    the value of the other in the combined result.  The JSON endpoint
    never raises.  The guest endpoint raises exactly what the HTML parser
    raises on the body of a good response; the method that combines the
    two raises exactly what the session refresh raises when it is due,
    what the guest endpoint raises, and what the HTML parser raises on
    the string chosen in the payload. *)
Theorem fallback_failures_give_empty_results {parsers : Api.Parsers}
    (idx : nat) (refresh : res unit) (guest voyager : res Api.Response) :
  (exists data, Api.fetch_voyager_json voyager = Ok data) /\
  (Api.failed guest = true -> Api.fetch_guest_jd guest = Ok "") /\
  (Api.failed voyager || Api.malformed voyager = true ->
   Api.fetch_voyager_json voyager = Ok (Api.JObj [])) /\
  (forall e,
     Api.fetch_guest_jd guest = Raised e <->
     exists r, guest = Ok r /\ Api.failed guest = false /\
               Api.soup_raises (Api.text r) = Some e) /\
  (forall e,
     Api.fetch_jd_and_posted_at idx refresh guest voyager = Raised e <->
     (Api.refresh_due idx = true /\ refresh = Raised e) \/
     (Api.refreshed idx refresh /\
      (Api.fetch_guest_jd guest = Raised e \/
       exists jd_guest data,
         Api.fetch_guest_jd guest = Ok jd_guest /\
         Api.fetch_voyager_json voyager = Ok data /\
         Api.jd_raises data = Some e))) /\
  (Api.failed guest = true -> Api.refreshed idx refresh ->
   exists data,
     Api.fetch_voyager_json voyager = Ok data /\
     (Api.jd_raises data = None ->
      Api.fetch_jd_and_posted_at idx refresh guest voyager =
        Ok (Api.jd_from_json data,
            if Api.json_truthy data then Api._extract_posted_at data else ""))) /\
  (Api.failed voyager || Api.malformed voyager = true -> Api.refreshed idx refresh ->
   forall jd, Api.fetch_guest_jd guest = Ok jd ->
              Api.fetch_jd_and_posted_at idx refresh guest voyager = Ok (jd, "")).
Proof.
  destruct (ApiFacts.fetch_voyager_json_ok voyager) as [data Hv].
  split; [now exists data|].
  split; [apply ApiFacts.fetch_guest_jd_failed|].
  split; [apply ApiFacts.fetch_voyager_json_failed|].
  split; [intros e; apply ApiFacts.fetch_guest_jd_raises|].
  split; [intros e; apply ApiFacts.fetch_jd_and_posted_at_raises|].
  split.
  - intros Hf Hr. exists data. split; [assumption|]. intros Hj.
    now rewrite (ApiFacts.fetch_jd_and_posted_at_eq idx refresh guest voyager "" data Hr
                   (ApiFacts.fetch_guest_jd_failed guest Hf) Hv Hj).
  - intros Hf Hr jd Hg.
    rewrite (ApiFacts.fetch_voyager_json_failed voyager Hf) in Hv. injection Hv as <-.
    rewrite (ApiFacts.fetch_jd_and_posted_at_eq idx refresh guest voyager jd (Api.JObj []) Hr
               Hg (ApiFacts.fetch_voyager_json_failed voyager Hf) eq_refl).
    now destruct jd.
Qed.

Lemma fallback_failures_give_empty_results_witness :
  Api.fetch_guest_jd (parsers := Fixtures.plain_text) (Raised "ConnectTimeout") = Ok ""
  /\ Api.fetch_voyager_json (parsers := Fixtures.plain_text)
       (Ok {| Api.status_code := 200; Api.text := "for (;;); <html>" |})
     = Ok (Api.JObj [])
  /\ Api.fetch_jd_and_posted_at (parsers := Fixtures.plain_text) 7 (Ok tt)
       (Ok {| Api.status_code := 200; Api.text := Fixtures.sample_text |})
       (Ok {| Api.status_code := 503; Api.text := "" |})
     = Ok (Fixtures.sample_text, "").
Proof.
  destruct (fallback_failures_give_empty_results (parsers := Fixtures.plain_text)
              7 (Ok tt) (Raised "ConnectTimeout")
              (Ok {| Api.status_code := 200; Api.text := "for (;;); <html>" |}))
    as (_ & Hguest & Hvoyager & _).
  destruct (fallback_failures_give_empty_results (parsers := Fixtures.plain_text)
              7 (Ok tt)
              (Ok {| Api.status_code := 200; Api.text := Fixtures.sample_text |})
              (Ok {| Api.status_code := 503; Api.text := "" |}))
    as (_ & _ & _ & _ & _ & _ & Hboth).
  split; [apply Hguest; reflexivity|].
  split; [apply Hvoyager; reflexivity|].
  apply Hboth; [reflexivity | discriminate | reflexivity].
Defined.

(** C8, as the claim has it, fails: an exception leaves the client.  The
    guest endpoint answers 200 with a body the HTML parser rejects: the
    constructor of line 860, outside the [try], raises, out of
    [fetch_guest_jd] and out of [fetch_jd_and_posted_at].  At a listing
    where the refresh of the session is due and reading the cookie jar
    raises, [fetch_jd_and_posted_at] raises before any request. *)
Lemma fallback_client_can_raise :
  let page := Ok {| Api.status_code := 200; Api.text := Fixtures.rejected_markup |} in
  let down := Raised "ConnectTimeout" in
  Api.failed page = false /\
  Api.fetch_guest_jd (parsers := Fixtures.strict_parser) page
  = Raised "ParserRejectedMarkup" /\
  Api.fetch_jd_and_posted_at (parsers := Fixtures.strict_parser) 7 (Ok tt) page down
  = Raised "ParserRejectedMarkup" /\
  Api.fetch_jd_and_posted_at (parsers := Fixtures.plain_text) 40
    (Raised "CookieConflictError") down down
  = Raised "CookieConflictError".
Proof. cbv zeta. repeat split. Qed.


Example streaks_40_40_missing_40 :
  map (fun n =>
         snd (fst (Collector.collect_loop (clock := Fixtures.padded_clock)
                     (Collector.__init__ Fixtures.policies) "data engineer" "Berlin"
                     (Fixtures.listings [Fixtures.forty_days_ago; Fixtures.forty_days_ago;
                                         ""; Fixtures.forty_days_ago])
                     (Store.__init__ Store.Absent) 0 0
                     (firstn n Fixtures.four_ids))))
      [1; 2; 3; 4]%nat
  = [1; 2; 0; 1]%Z.
Proof. vm_compute. reflexivity. Qed.

(** ** The orchestrator *)
Module CollectorFacts.
Import Text Collector.

Section Orchestrator.
Context {clock : Clock}.

Lemma add_ok (rec : Store.JobRecord) (s : Store.JobStore) :
  Store.add rec (Ok tt) s = (fst (Store.add rec (Ok tt) s), Ok tt).
Proof. unfold Store.add. now destruct (negb _ || negb _). Qed.

(** What each way out of the loop body leaves behind. *)
Lemma collect_one_inv (self : JobCollector) (pos loc : string)
    (store : Store.JobStore) (k : Z) (jobID : string) (o : ListingObs) :
  match collect_one self pos loc store k jobID o with
  | (store1, k1, Saved rec stop) =>
      Store.has store jobID = false /\
      Store.jobID rec = jobID /\
      o_write o = Ok tt /\
      Store.add rec (Ok tt) store = (store1, Ok tt) /\
      stop_old_posted self (o_now o) (Store.posted_at rec) k = (k1, stop)
  | (store1, k1, _) => store1 = store /\ k1 = k
  end.
Proof.
  unfold collect_one. destruct (Store.has store jobID); [now split|].
  destruct (o_open_job_view o); [|now split].
  destruct (o_fields o); [|now split].
  destruct (o_easy_apply o); [|now split].
  destruct (o_api o) as [[jd posted]|]; [|now split].
  destruct (if fetch_company_about_enabled self then _ else _) as [[url size] members].
  destruct (title_blacklisted self _); [now split|].
  destruct (o_write o) as [[]|e] eqn:Ew; [|now split].
  match goal with
  | |- context [Store.add ?r (Ok tt) store] => rewrite (add_ok r store)
  end.
  destruct (stop_old_posted self (o_now o) posted k) as [k1 stop] eqn:Es.
  repeat split; solve [apply add_ok | exact Es].
Qed.

(** One more identifier in the list: the loop after it. *)
Lemma collect_loop_cons (self : JobCollector) (pos loc : string)
    (world : nat -> string -> ListingObs)
    (store : Store.JobStore) (k : Z) (idx : nat) (jobID : string) (rest : list string) :
  collect_loop self pos loc world store k idx (jobID :: rest) =
  match collect_one self pos loc store k jobID (world idx jobID) with
  | (store1, k1, Saved _ true) => (store1, k1, true)
  | (store1, k1, _) => collect_loop self pos loc world store1 k1 (S idx) rest
  end.
Proof. reflexivity. Qed.


Lemma add_line_count (rec : Store.JobRecord) (s s1 : Store.JobStore) :
  Store.add rec (Ok tt) s = (s1, Ok tt) ->
  Store.line_count (Store.file s1) = S (Store.line_count (Store.file s)).
Proof.
  unfold Store.add. intros Ha.
  assert (Hf : Store.file s1 = Store.append_line (Store.row_of rec) (Store.file s))
    by (destruct (negb _ || negb _); now injection Ha as <-).
  rewrite Hf. destruct (Store.file s); simpl; try reflexivity;
    rewrite length_app; simpl; lia.
Qed.

Lemma stop_old_posted_bounds (self : JobCollector) (now : Z) (posted_at : string)
    (k k1 : Z) (stop : bool) :
  stop_old_posted self now posted_at k = (k1, stop) -> (0 <= k)%Z ->
  (0 <= k1 <= k + 1)%Z /\
  (stop = true -> (stop_old_posted_consecutive_limit self <= k1)%Z).
Proof.
  unfold stop_old_posted. destruct (stop_old_posted_enabled self).
  - destruct (truthy posted_at && _); intros [= <- <-] Hk; split; try lia;
      intros Hs; now apply Z.leb_le in Hs.
  - intros [= <- <-] Hk. split; [lia | discriminate].
Qed.

(** The streak never exceeds the records appended since the loop began. *)
Lemma collect_loop_bounds (self : JobCollector) (pos loc : string)
    (world : nat -> string -> ListingObs) (jobIDs : list string) :
  forall (store : Store.JobStore) (k : Z) (idx : nat) store1 k1 stop,
    collect_loop self pos loc world store k idx jobIDs = (store1, k1, stop) ->
    (0 <= k)%Z ->
    let appended := (Z.of_nat (Store.line_count (Store.file store1))
                     - Z.of_nat (Store.line_count (Store.file store)))%Z in
    (0 <= k1 <= k + appended)%Z /\ (0 <= appended <= Z.of_nat (length jobIDs))%Z /\
    (stop = true -> (stop_old_posted_consecutive_limit self <= k1)%Z).
Proof.
  induction jobIDs as [|jobID rest IH]; intros store k idx store1 k1 stop.
  - simpl. intros [= <- <- <-] Hk. repeat split; try lia; try discriminate.
  - rewrite collect_loop_cons.
    pose proof (collect_one_inv self pos loc store k jobID (world idx jobID)) as Hinv.
    destruct (collect_one self pos loc store k jobID (world idx jobID))
      as [[store' k'] ex].
    assert (Hskip : store' = store -> k' = k ->
              collect_loop self pos loc world store' k' (S idx) rest = (store1, k1, stop) ->
              (0 <= k)%Z ->
              let appended := (Z.of_nat (Store.line_count (Store.file store1))
                               - Z.of_nat (Store.line_count (Store.file store)))%Z in
              (0 <= k1 <= k + appended)%Z /\
              (0 <= appended <= Z.of_nat (length (jobID :: rest)))%Z /\
              (stop = true -> (stop_old_posted_consecutive_limit self <= k1)%Z)).
    { intros -> -> Hl Hk. destruct (IH _ _ _ _ _ _ Hl Hk) as (H1 & H2 & H3).
      cbn [length]. repeat split; try lia; auto. }
    destruct ex as [| |e|rec stop']; try (destruct Hinv; now apply Hskip).
    destruct Hinv as (_ & _ & _ & Hadd & Hstop). apply add_line_count in Hadd.
    intros Hl Hk. destruct (stop_old_posted_bounds _ _ _ _ _ _ Hstop Hk) as [Hk' Hlim].
    destruct stop'.
    + injection Hl as <- <- <-. cbn [length]. repeat split; try lia; auto.
    + destruct (IH _ _ _ _ _ _ Hl (proj1 Hk')) as (H1 & H2 & H3).
      cbn [length]. repeat split; try lia; auto.
Qed.

(** A listing that fails leaves the store and the streak as they were. *)
Lemma collect_one_exception (self : JobCollector) (pos loc : string)
    (store : Store.JobStore) (k : Z) (jobID : string) (o : ListingObs) (e : string) :
  Store.has store jobID = false ->
  listing_exception self o = Some e ->
  collect_one self pos loc store k jobID o = (store, k, Failed e).
Proof.
  unfold listing_exception, collect_one. intros ->.
  destruct (o_open_job_view o); [|now intros [= ->]].
  destruct (o_fields o); [|now intros [= ->]].
  destruct (o_easy_apply o); [|now intros [= ->]].
  destruct (o_api o) as [[jd posted]|]; [|now intros [= ->]].
  destruct (if fetch_company_about_enabled self then _ else _) as [[url size] members].
  destruct (title_blacklisted self _); [discriminate|].
  destruct (o_write o); [discriminate|]. now intros [= ->].
Qed.

Lemma collect_one_no_exception (self : JobCollector) (pos loc : string)
    (store : Store.JobStore) (k : Z) (jobID : string) (o : ListingObs) :
  Store.has store jobID = false ->
  listing_exception self o = None ->
  match collect_one self pos loc store k jobID o with
  | (store1, k1, TitleBlacklisted) => store1 = store /\ k1 = k
  | (_, _, Saved rec _) =>
      if fetch_company_about_enabled self then
        match o_about o with
        | Ok (url, size, members) =>
            enrichment rec =
            (str_or url Store.cannot_fetch, str_or size Store.cannot_fetch,
             str_or members Store.cannot_fetch)
        | Raised _ =>
            enrichment rec = (Store.cannot_fetch, Store.cannot_fetch, Store.cannot_fetch)
        end
      else enrichment rec = (Store.cannot_fetch, Store.cannot_fetch, Store.cannot_fetch)
  | _ => False
  end.
Proof.
  unfold listing_exception, collect_one. intros ->.
  destruct (o_open_job_view o); [|discriminate].
  destruct (o_fields o); [|discriminate].
  destruct (o_easy_apply o); [|discriminate].
  destruct (o_api o) as [[jd posted]|]; [|discriminate].
  destruct (title_blacklisted self _).
  - intros _. destruct (if fetch_company_about_enabled self then _ else _) as [[url size] members].
    now split.
  - destruct (o_write o) as [[]|]; [|discriminate]. intros _.
    destruct (fetch_company_about_enabled self).
    + destruct (o_about o) as [[[url size] members]|]; [destruct (o_back o)| ];
        match goal with
        | |- context [Store.add ?r (Ok tt) store] => rewrite (add_ok r store)
        end;
        destruct (stop_old_posted _ _ _ _); reflexivity.
    + match goal with
      | |- context [Store.add ?r (Ok tt) store] => rewrite (add_ok r store)
      end.
      destruct (stop_old_posted _ _ _ _); reflexivity.
Qed.

End Orchestrator.
End CollectorFacts.




(** C9, as the code has it.  For a listing not yet in the store, an
    exception raised by the navigation, the field extraction, the
    fallback retrieval or the append reaches the handler of the loop
    body: the store and the streak are as before and the loop goes on
    with the next identifier.  When none of them raises, the listing is
    blacklisted by its title or appended; an exception raised in the
    enrichment block is caught inside the block and the record is
    appended, with the sentinel in its three enrichment fields when the
    fetch of these fields raised. *)
Theorem listing_failure_is_contained {clock : Collector.Clock}
    (self : Collector.JobCollector) (pos loc : string)
    (world : nat -> string -> Collector.ListingObs)
    (store : Store.JobStore) (k : Z) (idx : nat) (jobID : string) (rest : list string) :
  Store.has store jobID = false ->
  match Collector.listing_exception self (world idx jobID) with
  | Some e =>
      Collector.collect_one self pos loc store k jobID (world idx jobID)
      = (store, k, Collector.Failed e) /\
      Collector.collect_loop self pos loc world store k idx (jobID :: rest) =
      Collector.collect_loop self pos loc world store k (S idx) rest
  | None =>
      match Collector.collect_one self pos loc store k jobID (world idx jobID) with
      | (store1, k1, Collector.TitleBlacklisted) => store1 = store /\ k1 = k
      | (_, _, Collector.Saved rec _) =>
          if Collector.fetch_company_about_enabled self then
            match Collector.o_about (world idx jobID) with
            | Ok (url, size, members) =>
                Collector.enrichment rec =
                (Text.str_or url Store.cannot_fetch, Text.str_or size Store.cannot_fetch,
                 Text.str_or members Store.cannot_fetch)
            | Raised _ =>
                Collector.enrichment rec =
                (Store.cannot_fetch, Store.cannot_fetch, Store.cannot_fetch)
            end
          else Collector.enrichment rec =
               (Store.cannot_fetch, Store.cannot_fetch, Store.cannot_fetch)
      | _ => False
      end
  end.
Proof.
  intros Hnew.
  destruct (Collector.listing_exception self (world idx jobID)) as [e|] eqn:Ee.
  - pose proof (CollectorFacts.collect_one_exception self pos loc store k jobID _ e Hnew Ee)
      as Hone.
    split; [exact Hone|]. now rewrite CollectorFacts.collect_loop_cons, Hone.
  - now apply CollectorFacts.collect_one_no_exception.
Qed.

Lemma listing_failure_is_contained_witness :
  let self := Collector.__init__ Fixtures.policies in
  let world := fun (_ : nat) (_ : string) => Fixtures.listing_without_fields "" in
  let store := Store.__init__ Store.Absent in
  Collector.collect_one self "data engineer" "Berlin" store 2 "1001" (world 0%nat "1001")
  = (store, 2%Z, Collector.Failed "NoSuchElementException") /\
  Collector.collect_loop self "data engineer" "Berlin" world store 2 0 ["1001"; "1002"] =
  Collector.collect_loop self "data engineer" "Berlin" world store 2 1 ["1002"].
Proof.
  cbv zeta.
  apply (listing_failure_is_contained (Collector.__init__ Fixtures.policies)
           "data engineer" "Berlin"
           (fun _ _ => Fixtures.listing_without_fields "")
           (Store.__init__ Store.Absent) 2 0 "1001" ["1002"]).
  reflexivity.
Defined.

(** C9, as the claim has it, fails for the enrichment: the navigation
    back to the job page times out, or the fetch of the company fields
    raises, and the listing is not skipped: it is appended, in the second
    case with the sentinel in the three enrichment fields. *)
Lemma enrichment_failure_still_appends :
  let self := Collector.__init__ Fixtures.policies in
  let store := Store.__init__ Store.Absent in
  let back_raises :=
    Fixtures.listing_enrichment_raises
      (Ok ("https://www.linkedin.com/company/acme/about/", "51-200 employees", "120"))
      (Raised "TimeoutException") Fixtures.forty_days_ago in
  let fetch_raises :=
    Fixtures.listing_enrichment_raises
      (Raised "WebDriverException") (Ok tt) Fixtures.forty_days_ago in
  Collector.fetch_company_about_enabled self = true /\
  Store.has store "1001" = false /\
  match Collector.collect_one self "data engineer" "Berlin" store 0 "1001" back_raises with
  | (store1, _, Collector.Saved rec _) =>
      Store.has store1 "1001" = true /\
      Store.line_count (Store.file store1) = S (Store.line_count (Store.file store)) /\
      Collector.enrichment rec =
      ("https://www.linkedin.com/company/acme/about/", "51-200 employees", "120")
  | _ => False
  end /\
  match Collector.collect_one self "data engineer" "Berlin" store 0 "1001" fetch_raises with
  | (store1, _, Collector.Saved rec _) =>
      Store.has store1 "1001" = true /\
      Store.line_count (Store.file store1) = S (Store.line_count (Store.file store)) /\
      Collector.enrichment rec = ("cannot fetch", "cannot fetch", "cannot fetch")
  | _ => False
  end.
Proof. cbv zeta. repeat split; vm_compute; reflexivity. Qed.

(** C10.  [_collect_jobs] starts its streak at zero: when it returns
    [True], at least as many records as the limit were appended to the
    store during this very call, out of this page's identifiers, whatever
    the store held and whatever the pages before appended. *)
Theorem stale_streak_starts_at_zero {clock : Collector.Clock}
    (self : Collector.JobCollector) (store : Store.JobStore) (jobIDs : list string)
    (pos loc : string) (world : nat -> string -> Collector.ListingObs) :
  let '(store1, should_stop) := Collector._collect_jobs self store jobIDs pos loc world in
  let appended := (Z.of_nat (Store.line_count (Store.file store1))
                   - Z.of_nat (Store.line_count (Store.file store)))%Z in
  Collector._collect_jobs self store jobIDs pos loc world =
    (let '(s, _, b) := Collector.collect_loop self pos loc world store 0 0 jobIDs in (s, b)) /\
  if should_stop
  then (Collector.stop_old_posted_consecutive_limit self <= appended)%Z /\
       (appended <= Z.of_nat (length jobIDs))%Z
  else True.
Proof.
  unfold Collector._collect_jobs.
  destruct (Collector.collect_loop self pos loc world store 0 0 jobIDs)
    as [[store1 k1] stop] eqn:El.
  split; [reflexivity|].
  destruct (CollectorFacts.collect_loop_bounds self pos loc world jobIDs
              store 0%Z 0%nat store1 k1 stop El ltac:(lia)) as (Hk & Ha & Hs).
  destruct stop; [|exact I]. specialize (Hs eq_refl). lia.
Qed.

(** Two stale postings at the end of one page and two at the start of the
    next do not reach a limit of three; the same four on one page do. *)
Example no_carry_over_between_pages :
  let self := Collector.__init__ Fixtures.policies in
  let stale := Fixtures.listings (repeat Fixtures.forty_days_ago 4) in
  let '(store1, stop1) :=
    Collector._collect_jobs self (Store.__init__ Store.Absent) ["1001"; "1002"]
      "data engineer" "Berlin" stale in
  let '(store2, stop2) :=
    Collector._collect_jobs self store1 ["1003"; "1004"] "data engineer" "Berlin" stale in
  stop1 = false /\ stop2 = false /\ Store.line_count (Store.file store2) = 5%nat /\
  snd (Collector._collect_jobs self (Store.__init__ Store.Absent) Fixtures.four_ids
         "data engineer" "Berlin" stale) = true.
Proof. vm_compute. repeat split. Qed.

(** ** The empty-pages policy over the pages of a combination *)
Module SearchFacts.
Import Text Collector.

Lemma trailing_zeros_snoc (l : list nat) (n : nat) :
  trailing_zeros (l ++ [n]) = match n with
                              | 0 => S (trailing_zeros l)
                              | _ => 0
                              end%nat.
Proof. unfold trailing_zeros. rewrite rev_unit. now destruct n. Qed.

Lemma prefix_snoc (pre before after : list nat) (n : nat) :
  (pre ++ [n])%list = (before ++ after)%list ->
  (after = [] /\ before = (pre ++ [n])%list) \/ exists after', pre = (before ++ after')%list.
Proof.
  intros Heq. destruct after as [|x after] using rev_ind.
  - left. split; [reflexivity|]. now rewrite app_nil_r in Heq.
  - right. exists after. rewrite app_assoc in Heq. now apply app_inj_tail in Heq.
Qed.

Section Orchestrator.
Context {clock : Clock}.

Lemma stop_empty_pages_enabled_eq (self : JobCollector) (jobIDs : list string) (k : Z) :
  stop_empty_pages_enabled self = true ->
  stop_empty_pages self jobIDs k =
  let k1 := match jobIDs with [] => (k + 1)%Z | _ => 0%Z end in
  (k1, (stop_empty_pages_consecutive_limit self <=? k1)%Z).
Proof. unfold stop_empty_pages. now intros ->. Qed.

(** One pass of the loop, by what the page yields. *)
Lemma combo_iteration_inv (self : JobCollector) (pos loc : string)
    (st : ComboState) (p : PageObs) :
  match found_on_page self st p with
  | None => exists e, combo_iteration self pos loc st p = (st, LoopException e)
  | Some jobIDs =>
      match combo_iteration self pos loc st p with
      | (st1, EmptyPages) =>
          stop_empty_pages self jobIDs (empty_page_streak st)
          = (empty_page_streak st1, true)
      | (st1, StalePostings) | (st1, NextPage _) =>
          stop_empty_pages self jobIDs (empty_page_streak st)
          = (empty_page_streak st1, false)
      | (_, LoopException _) => False
      end
  end.
Proof.
  unfold found_on_page, combo_iteration.
  destruct (p_render p) as [[]|e]; [|eauto].
  destruct (collect_job_ids_from_result _ _ _) as [jobIDs|e]; [|eauto].
  destruct (stop_empty_pages self jobIDs (empty_page_streak st)) as [k1 stop].
  destruct stop; [reflexivity|].
  destruct (match jobIDs with [] => _ | _ => _ end) as [store' should_stop].
  now destruct should_stop.
Qed.

(** The streak is the number of empty pages the log ends with, and the
    loop never goes past [N] of them. *)
Lemma search_loop_log (self : JobCollector) (pos loc : string) :
  stop_empty_pages_enabled self = true ->
  (1 <= stop_empty_pages_consecutive_limit self)%Z ->
  forall (pages : list PageObs) (st : ComboState) (pre : list nat),
    empty_page_streak st = Z.of_nat (trailing_zeros pre) ->
    (forall before after, pre = (before ++ after)%list ->
       (Z.of_nat (trailing_zeros before) < stop_empty_pages_consecutive_limit self)%Z) ->
    let '(st1, e) := search_loop self pos loc st pages in
    let log := (pre ++ page_yields self pos loc st pages)%list in
    (e = AbandonedEmpty <->
     Z.of_nat (trailing_zeros log) = stop_empty_pages_consecutive_limit self) /\
    empty_page_streak st1 = Z.of_nat (trailing_zeros log) /\
    (forall before after, log = (before ++ after)%list -> after <> [] ->
       (Z.of_nat (trailing_zeros before) < stop_empty_pages_consecutive_limit self)%Z).
Proof.
  intros Hen HN. set (N := stop_empty_pages_consecutive_limit self) in *.
  induction pages as [|p pages IH]; intros st pre Hk Hpre.
  - cbn [search_loop page_yields]. rewrite app_nil_r.
    pose proof (Hpre pre [] (eq_sym (app_nil_r pre))) as Hlt.
    split; [split; [discriminate | lia]|]. split; [exact Hk|].
    intros before after Heq _. now apply (Hpre before after).
  - cbn [search_loop page_yields].
    pose proof (combo_iteration_inv self pos loc st p) as Hinv.
    destruct (found_on_page self st p) as [jobIDs|].
    + rewrite (stop_empty_pages_enabled_eq self jobIDs _ Hen) in Hinv.
      cbv zeta in Hinv. fold N in Hinv.
      assert (Hk1 : (match jobIDs with [] => empty_page_streak st + 1 | _ => 0 end)%Z
                    = Z.of_nat (trailing_zeros (pre ++ [length jobIDs]))).
      { rewrite trailing_zeros_snoc, Hk. destruct jobIDs; cbn [length]; lia. }
      pose proof (Hpre pre [] (eq_sym (app_nil_r pre))) as Hlt.
      assert (Hle : (Z.of_nat (trailing_zeros (pre ++ [length jobIDs])) <= N)%Z).
      { rewrite trailing_zeros_snoc. destruct (length jobIDs); lia. }
      assert (Hprefix : forall before after,
                (pre ++ [length jobIDs])%list = (before ++ after)%list -> after <> [] ->
                (Z.of_nat (trailing_zeros before) < N)%Z).
      { intros before after Heq Hne.
        destruct (prefix_snoc _ _ _ _ Heq) as [[-> _]|[after' ->]]; [contradiction|].
        now apply (Hpre before after'). }
      rewrite Hk1 in Hinv.
      destruct (combo_iteration self pos loc st p) as [st1 [e| | |opened]];
        [contradiction| | |]; injection Hinv as Hst1 Hstop; symmetry in Hst1.
      * apply Z.leb_le in Hstop. split; [split; [lia | reflexivity]|].
        split; [exact Hst1 | exact Hprefix].
      * apply Z.leb_gt in Hstop. split; [split; [discriminate | lia]|].
        split; [exact Hst1 | exact Hprefix].
      * apply Z.leb_gt in Hstop.
        specialize (IH st1 (pre ++ [length jobIDs])%list Hst1).
        rewrite <- app_assoc in IH. apply IH.
        intros before after Heq.
        destruct (prefix_snoc _ _ _ _ Heq) as [[_ ->]|[after' ->]]; [exact Hstop|].
        now apply (Hpre before after').
    + destruct Hinv as [e ->]. cbn [app]. now apply IH.
Qed.

End Orchestrator.
End SearchFacts.

(** C3.  With the empty-pages policy on and [N] its limit as [__init__]
    sets it, the combination is abandoned for empty pages exactly when
    the pages collected so far end with [N] pages without a new
    identifier; the streak is the number of such pages the log ends with,
    so a page with a new identifier sets it to zero; and no page is
    collected after [N] empty pages in a row. *)
Theorem empty_pages_stop_exact {clock : Collector.Clock}
    (a : Collector.InitArgs) (pos loc : string) (store : Store.JobStore)
    (pages : list Collector.PageObs) :
  Collector.arg_stop_empty_pages_enabled a = true ->
  let self := Collector.__init__ a in
  let N := Collector.stop_empty_pages_consecutive_limit self in
  let st0 := {| Collector.store := store; Collector.empty_page_streak := 0;
                Collector.jobs_per_page := 0 |} in
  let '(st1, e) := Collector.search_loop self pos loc st0 pages in
  let yields := Collector.page_yields self pos loc st0 pages in
  (e = Collector.AbandonedEmpty <-> Z.of_nat (Collector.trailing_zeros yields) = N) /\
  Collector.empty_page_streak st1 = Z.of_nat (Collector.trailing_zeros yields) /\
  (forall before after, yields = (before ++ after)%list -> after <> [] ->
     (Z.of_nat (Collector.trailing_zeros before) < N)%Z).
Proof.
  intros Hen self N st0.
  assert (HN : (1 <= N)%Z) by (unfold N, self, Collector.__init__; cbn; lia).
  pose proof (SearchFacts.search_loop_log self pos loc Hen HN pages st0 [] eq_refl) as Hlog.
  cbn [app] in Hlog. apply Hlog.
  intros before after Heq. symmetry in Heq. apply app_eq_nil in Heq as [-> _].
  cbn. lia.
Qed.

Lemma empty_pages_stop_exact_witness :
  Collector.arg_stop_empty_pages_enabled Fixtures.policies = true /\
  let self := Collector.__init__ Fixtures.policies in
  let N := Collector.stop_empty_pages_consecutive_limit self in
  let st0 := {| Collector.store := Store.__init__ Store.Absent;
                Collector.empty_page_streak := 0; Collector.jobs_per_page := 0 |} in
  let pages := repeat Fixtures.empty_page 3 in
  let '(st1, e) := Collector.search_loop self "data engineer" "Berlin" st0 pages in
  let yields := Collector.page_yields self "data engineer" "Berlin" st0 pages in
  (e = Collector.AbandonedEmpty <-> Z.of_nat (Collector.trailing_zeros yields) = N) /\
  Collector.empty_page_streak st1 = Z.of_nat (Collector.trailing_zeros yields) /\
  (forall before after, yields = (before ++ after)%list -> after <> [] ->
     (Z.of_nat (Collector.trailing_zeros before) < N)%Z).
Proof.
  split; [reflexivity|].
  apply (empty_pages_stop_exact Fixtures.policies "data engineer" "Berlin"
           (Store.__init__ Store.Absent) (repeat Fixtures.empty_page 3)).
  reflexivity.
Defined.

(** Three empty pages with a limit of three: the combination goes on after
    the second and is abandoned at the third; a page with a new identifier
    in between starts the count again. *)
Example three_empty_pages :
  let self := Collector.__init__ Fixtures.policies in
  let st0 := Fixtures.first_pass (Store.__init__ Store.Absent) in
  let loop pages := Collector.search_loop self "data engineer" "Berlin" st0 pages in
  let yields pages := Collector.page_yields self "data engineer" "Berlin" st0 pages in
  snd (loop (repeat Fixtures.empty_page 2)) = Collector.TimeBudgetOver /\
  snd (loop (repeat Fixtures.empty_page 3)) = Collector.AbandonedEmpty /\
  yields (repeat Fixtures.empty_page 7) = [0; 0; 0]%nat /\
  snd (loop (repeat Fixtures.empty_page 2 ++ [Fixtures.page_with ["1001"]]
             ++ repeat Fixtures.empty_page 2)%list) = Collector.TimeBudgetOver /\
  yields (repeat Fixtures.empty_page 2 ++ [Fixtures.page_with ["1001"]]
          ++ repeat Fixtures.empty_page 7)%list = [0; 0; 1; 0; 0; 0]%nat.
Proof. vm_compute. repeat split. Qed.

(** ** Deduplication across runs *)
Module DedupFacts.
Import Text Store StoreFacts.

Lemma In_unique (x : string) (l : list string) : In x l -> In x (unique l).
Proof.
  induction l as [|y l IH]; simpl; [tauto|].
  destruct (String.eqb y x) eqn:E.
  - apply String.eqb_eq in E. auto.
  - intros [->|Hx]; [rewrite String.eqb_refl in E; discriminate|].
    right. apply List.filter_In. split; [auto | now rewrite E].
Qed.

Lemma unique_In (x : string) (l : list string) : In x (unique l) -> In x l.
Proof.
  induction l as [|y l IH]; simpl; [tauto|].
  intros [->|Hx]; [auto|]. apply List.filter_In in Hx as [Hx _]. auto.
Qed.

Lemma unique_NoDup (l : list string) : List.NoDup (unique l).
Proof.
  induction l as [|y l IH]; simpl; constructor.
  - intros Hy. apply List.filter_In in Hy as [_ Hy]. now rewrite String.eqb_refl in Hy.
  - now apply List.NoDup_filter.
Qed.

Lemma extends_refl (s : JobStore) : extends s s.
Proof. exists []. now rewrite app_nil_r. Qed.

Lemma extends_trans (s s1 s2 : JobStore) : extends s s1 -> extends s1 s2 -> extends s s2.
Proof.
  intros [n1 H1] [n2 H2]. exists (n1 ++ n2)%list. now rewrite H2, H1, app_assoc.
Qed.

Lemma numeral_truthy (s : string) : numeral s = true -> truthy s = true.
Proof. unfold numeral. rewrite !andb_true_iff. tauto. Qed.

Lemma dropna_numerals (l : list string) :
  List.Forall (fun id => numeral id = true) l -> dropna l = l.
Proof.
  unfold dropna. induction 1 as [|x l Hx _ IH]; simpl; [reflexivity|].
  now rewrite (numeral_truthy x Hx), IH.
Qed.

Lemma NoDup_distinct (l : list string) : List.NoDup l -> distinct l = true.
Proof.
  induction 1 as [|x l Hx _ IH]; [reflexivity|]. cbn [distinct].
  apply andb_true_iff. split; [|exact IH]. now apply negb_true_iff, mem_false.
Qed.

(** A sheet with a field for every label on every line is read as it is. *)
Lemma read_csv_full (h : row) (ls : list row) :
  List.Forall (fun l => length l = length h) ls ->
  read_csv (Sheet h ls) = Ok {| columns := h; rows := ls |}.
Proof.
  intros Hfull. rewrite read_csv_short.
  - f_equal. f_equal. rewrite <- (map_id ls) at 2. apply map_ext_in. intros l Hl.
    rewrite List.Forall_forall in Hfull. rewrite <- (Hfull l Hl). apply fit_id.
  - revert Hfull. apply List.Forall_impl. intros l ->. lia.
Qed.

Lemma cell_of_jobID (l : row) : cell_of _header "jobID" l = nth 3 l "".
Proof. reflexivity. Qed.

(** [add] of an identifier the index does not know. *)
Lemma add_kept (Q : string -> bool) (rec : JobRecord) (s s1 : JobStore) :
  kept Q s -> has s (jobID rec) = false -> Q (jobID rec) = true ->
  add rec (Ok tt) s = (s1, Ok tt) ->
  kept Q s1 /\ extends s s1.
Proof.
  intros [(ls & Hf & Hlen & Hnd & Hidx) HQ] Hnew Hq Hadd.
  assert (Hs1 : file s1 = Sheet _header (ls ++ [row_of rec]) /\
                savedJobIDs s1 = {[ jobID rec ]} ∪ savedJobIDs s).
  { unfold add in Hadd. rewrite Hf in Hadd. cbn [append_line] in Hadd.
    destruct (negb _ || negb _); injection Hadd as <-; now split. }
  destruct Hs1 as [Hf1 Hsaved1].
  assert (Hids : line_ids (file s1) = (line_ids (file s) ++ [jobID rec])%list).
  { rewrite Hf1, Hf. cbn [line_ids]. now rewrite map_app. }
  assert (Hfresh : ~ In (jobID rec) (line_ids (file s))).
  { intros Hin. apply Hidx in Hin. unfold has in Hnew.
    now apply bool_decide_eq_false in Hnew. }
  split; [|now exists [jobID rec]]. split.
  - exists (ls ++ [row_of rec])%list. repeat split; try assumption.
    + apply List.Forall_app. split; [assumption|]. now constructor.
    + rewrite Hids. apply List.NoDup_app; [assumption | |].
      * constructor; [tauto | constructor].
      * intros x Hx [<-|[]]. contradiction.
    + intros id. rewrite Hids, Hsaved1. intros Hin. apply in_app_or in Hin as [Hin|Hin].
      * apply elem_of_union. right. now apply Hidx.
      * destruct Hin as [<-|[]]. apply elem_of_union. left. now apply elem_of_singleton.
  - rewrite Hids. apply List.Forall_app. split; [assumption|]. now constructor.
Qed.

(** Opening a store this program wrote. *)
Lemma ensure_well_formed (f : csv_file) :
  well_formed f = true ->
  exists ls,
    _ensure_header_or_upgrade f = Sheet _header ls /\
    List.Forall (fun l => length l = length _header) ls /\
    line_ids (Sheet _header ls) = jobID_cells f /\
    List.NoDup (jobID_cells f) /\
    List.Forall (fun id => numeral id = true) (jobID_cells f).
Proof.
  destruct f as [| |ls|h ls]; cbn [well_formed]; try discriminate.
  - intros _. exists []. repeat split; constructor.
  - intros _. exists []. repeat split; constructor.
  - rewrite !andb_true_iff. intros [[[[Hfull Hjob] Hcanon] Hnum] Hdist].
    assert (Hfull' : List.Forall (fun l => length l = length h) ls).
    { apply List.Forall_forall. intros l Hl. rewrite forallb_forall in Hfull.
      apply Nat.eqb_eq. now apply Hfull. }
    assert (Hnd : List.NoDup (jobID_cells (Sheet h ls))) by now apply distinct_NoDup.
    assert (Hnum' : List.Forall (fun id => numeral id = true) (jobID_cells (Sheet h ls))).
    { apply List.Forall_forall. intros id Hid. rewrite forallb_forall in Hnum. auto. }
    pose proof (read_csv_full h ls Hfull') as Er.
    rewrite (ensure_readable (Sheet h ls) {| columns := h; rows := ls |});
      [|discriminate|discriminate|exact Er].
    cbn [columns].
    destruct (forallb (fun c => mem c h) _header) eqn:Ea.
    + cbn [negb orb] in Hcanon. apply bool_decide_eq_true in Hcanon. subst h.
      exists ls. repeat split; assumption.
    + pose proof (read_csv_rectangular _ _ Er) as Hrect.
      exists (rows (upgraded {| columns := h; rows := ls |})).
      split; [reflexivity|].
      rewrite (upgraded_rows _ Hrect). cbn [columns rows].
      repeat split; try assumption.
      * apply List.Forall_map, List.Forall_forall. intros r _. now rewrite length_map.
      * cbn [line_ids jobID_cells]. rewrite map_map. apply map_ext. intros l.
        change (nth 3 (map (fun c : string =>
                              if mem c h then cell_of h c l else cannot_fetch) _header) "")
          with (if mem "jobID" h then cell_of h "jobID" l else cannot_fetch).
        now rewrite Hjob.
Qed.

Lemma open_ensure (f : csv_file) : __init__ (_ensure_header_or_upgrade f) = __init__ f.
Proof.
  unfold __init__. destruct (ensure_cases f) as [Hk|[ls Hw]].
  - now rewrite !Hk.
  - now rewrite Hw, ensure_canonical.
Qed.

Lemma open_canonical (ls : list row) :
  List.Forall (fun l => length l = length _header) ls ->
  List.NoDup (line_ids (Sheet _header ls)) ->
  List.Forall (fun id => numeral id = true) (line_ids (Sheet _header ls)) ->
  kept numeral (__init__ (Sheet _header ls)) /\
  file (__init__ (Sheet _header ls)) = Sheet _header ls.
Proof.
  intros Hlen Hnd Hnum. unfold __init__. rewrite ensure_canonical. cbn [file].
  split; [|reflexivity]. split; [|exact Hnum].
  exists ls. cbn [file savedJobIDs]. repeat split; try assumption.
  intros id Hin. unfold _load_saved_jobIDs. rewrite (read_csv_full _ ls Hlen).
  cbn [columns]. change (mem "jobID" _header) with true. cbn [set_of].
  apply elem_of_list_to_set, list_elem_of_In, In_unique.
  unfold column. cbn [columns rows].
  rewrite (map_ext _ _ cell_of_jobID). rewrite dropna_numerals; assumption.
Qed.

Lemma open_kept (f : csv_file) :
  well_formed f = true ->
  kept numeral (__init__ f) /\ line_ids (file (__init__ f)) = jobID_cells f.
Proof.
  intros Hwf. destruct (ensure_well_formed f Hwf) as (ls & He & Hlen & Hids & Hnd & Hnum).
  rewrite <- open_ensure, He.
  destruct (open_canonical ls Hlen) as [Hkept Hfile]; try now rewrite Hids.
  split; [assumption|]. now rewrite Hfile.
Qed.

Lemma kept_weaken (Q : string -> bool) (s : JobStore) : kept Q s -> kept (fun _ => true) s.
Proof.
  intros [Hidx _]. split; [exact Hidx|]. apply List.Forall_forall. reflexivity.
Qed.

(** A store the runs left, with numerals for identifiers, can be opened
    again. *)
Lemma kept_well_formed (s : JobStore) : kept numeral s -> well_formed (file s) = true.
Proof.
  intros [(ls & Hf & Hlen & Hnd & _) Hnum]. rewrite Hf in *.
  unfold well_formed.
  assert (Hcells : jobID_cells (Sheet _header ls) = line_ids (Sheet _header ls))
    by reflexivity.
  rewrite Hcells.
  apply andb_true_iff. split; [apply andb_true_iff; split;
    [apply andb_true_iff; split; [apply andb_true_iff; split|]|]|].
  - apply forallb_forall. intros l Hl. rewrite List.Forall_forall in Hlen.
    apply Nat.eqb_eq. now apply Hlen.
  - reflexivity.
  - apply orb_true_iff. right. now apply bool_decide_eq_true.
  - apply forallb_forall. intros id Hid. rewrite List.Forall_forall in Hnum. auto.
  - now apply NoDup_distinct.
Qed.

Section Orchestrator.
Import Collector.
Context {clock : Clock}.
Variable Q : string -> bool.

Lemma collect_one_kept (self : JobCollector) (pos loc : string)
    (store : JobStore) (k : Z) (jobID : string) (o : ListingObs) :
  kept Q store -> Q jobID = true ->
  let '(store1, _, _) := collect_one self pos loc store k jobID o in
  kept Q store1 /\ extends store store1.
Proof.
  intros Hkept Hq.
  pose proof (CollectorFacts.collect_one_inv self pos loc store k jobID o) as Hinv.
  destruct (collect_one self pos loc store k jobID o) as [[store1 k1] [| |e|rec stop]];
    try (destruct Hinv as [-> _]; split; [assumption | apply extends_refl]).
  destruct Hinv as (Hnew & Hid & _ & Hadd & _). rewrite <- Hid in Hnew, Hq.
  now apply (add_kept Q rec).
Qed.

Lemma collect_loop_kept (self : JobCollector) (pos loc : string)
    (world : nat -> string -> ListingObs) (jobIDs : list string) :
  List.Forall (fun id => Q id = true) jobIDs ->
  forall (store : JobStore) (k : Z) (idx : nat),
    kept Q store ->
    let '(store1, _, _) := collect_loop self pos loc world store k idx jobIDs in
    kept Q store1 /\ extends store store1.
Proof.
  induction 1 as [|jobID rest Hq _ IH]; intros store k idx Hkept.
  - cbn. split; [assumption | apply extends_refl].
  - rewrite CollectorFacts.collect_loop_cons.
    pose proof (collect_one_kept self pos loc store k jobID (world idx jobID) Hkept Hq)
      as Hone.
    destruct (collect_one self pos loc store k jobID (world idx jobID))
      as [[store' k'] ex].
    destruct Hone as [Hkept' Hext].
    assert (Hgo : let '(store1, _, _) :=
                    collect_loop self pos loc world store' k' (S idx) rest in
                  kept Q store1 /\ extends store store1).
    { specialize (IH store' k' (S idx) Hkept').
      destruct (collect_loop self pos loc world store' k' (S idx) rest) as [[store1 k1] b].
      destruct IH. split; [assumption | now apply extends_trans with store']. }
    destruct ex as [| |e|rec [|]]; try exact Hgo. now split.
Qed.

Lemma collect_jobs_kept (self : JobCollector) (store : JobStore)
    (jobIDs : list string) (pos loc : string) (world : nat -> string -> ListingObs) :
  List.Forall (fun id => Q id = true) jobIDs ->
  kept Q store ->
  kept Q (fst (_collect_jobs self store jobIDs pos loc world)) /\
  extends store (fst (_collect_jobs self store jobIDs pos loc world)).
Proof.
  intros Hq Hkept. unfold _collect_jobs.
  pose proof (collect_loop_kept self pos loc world jobIDs Hq store 0%Z 0%nat Hkept) as Hl.
  now destruct (collect_loop self pos loc world store 0 0 jobIDs) as [[store1 k1] b].
Qed.

(** The identifiers collected on a page satisfy what its links do. *)
Lemma link_job_ids_shown (blacklist : list string) (saved_ids : gset string)
    (links : list LinkObs) (id : string) :
  forallb (link_shows Q) links = true ->
  In id (link_job_ids blacklist saved_ids links) -> Q id = true.
Proof.
  induction links as [|link links IH]; cbn [link_job_ids forallb]; [intros _ []|].
  rewrite andb_true_iff. intros [Hl Hls].
  destruct (link_job_id blacklist saved_ids link) as [jobID|] eqn:E; [|now apply IH].
  intros [<-|Hin]; [|now apply IH].
  unfold link_job_id in E. unfold link_shows in Hl.
  destruct (link_text link) as [txt|]; [|discriminate].
  destruct (contains "Applied" txt); [discriminate|].
  destruct (Store.mem txt blacklist); [discriminate|].
  destruct (data_job_id link) as [[j|]|]; try discriminate.
  destruct (negb (truthy j) || String.eqb j "search"); [discriminate|].
  destruct (bool_decide (j ∈ saved_ids)); [discriminate|].
  injection E as <-. exact Hl.
Qed.

Lemma combo_iteration_kept (self : JobCollector) (pos loc : string)
    (st : ComboState) (p : PageObs) :
  page_shows Q p = true ->
  kept Q (Collector.store st) ->
  kept Q (Collector.store (fst (combo_iteration self pos loc st p))) /\
  extends (Collector.store st) (Collector.store (fst (combo_iteration self pos loc st p))).
Proof.
  intros Hp Hkept. unfold combo_iteration.
  assert (Hsame : kept Q (Collector.store st) /\
                  extends (Collector.store st) (Collector.store st))
    by (split; [assumption | apply extends_refl]).
  destruct (p_render p); [|exact Hsame].
  destruct (collect_job_ids_from_result _ _ _) as [jobIDs|e] eqn:Ec; [|exact Hsame].
  assert (Hq : List.Forall (fun id => Q id = true) jobIDs).
  { unfold collect_job_ids_from_result in Ec. unfold page_shows in Hp.
    destruct (p_links p) as [links|]; [|discriminate]. injection Ec as <-.
    apply List.Forall_forall. intros id Hin. apply unique_In in Hin.
    now apply (link_job_ids_shown (blacklist self) (Store.savedJobIDs (Collector.store st))
                 links). }
  destruct (stop_empty_pages self jobIDs (empty_page_streak st)) as [streak stop].
  cbn [Collector.store]. destruct stop; [exact Hsame|].
  destruct jobIDs as [|jobID rest]; [exact Hsame|].
  pose proof (collect_jobs_kept self (Collector.store st) (jobID :: rest) pos loc
                (p_listing p) Hq Hkept) as Hc.
  destruct (_collect_jobs self (Collector.store st) (jobID :: rest) pos loc (p_listing p))
    as [store' should_stop].
  now destruct should_stop.
Qed.

Lemma search_loop_kept (self : JobCollector) (pos loc : string) (pages : list PageObs) :
  forallb (page_shows Q) pages = true ->
  forall st : ComboState,
    kept Q (Collector.store st) ->
    kept Q (Collector.store (fst (search_loop self pos loc st pages))) /\
    extends (Collector.store st) (Collector.store (fst (search_loop self pos loc st pages))).
Proof.
  induction pages as [|p pages IH]; intros Hpages st Hkept.
  - cbn. split; [assumption | apply extends_refl].
  - cbn [forallb] in Hpages. apply andb_true_iff in Hpages as [Hp Hpages].
    cbn [search_loop].
    pose proof (combo_iteration_kept self pos loc st p Hp Hkept) as Hit.
    destruct (combo_iteration self pos loc st p) as [st1 ex]. cbn [fst] in Hit.
    destruct Hit as [Hkept1 Hext1].
    destruct ex; try (now split);
      destruct (IH Hpages st1 Hkept1);
      (split; [assumption | now apply extends_trans with (Collector.store st1)]).
Qed.

Lemma start_kept (self : JobCollector) (combos : list (string * string * ComboObs)) :
  run_shows Q combos = true ->
  forall store : JobStore,
    kept Q store ->
    kept Q (fst (start self store combos)) /\ extends store (fst (start self store combos)).
Proof.
  induction combos as [|[[pos loc] c] combos IH]; intros Hshows store Hkept.
  - cbn. split; [assumption | apply extends_refl].
  - cbn [run_shows forallb snd] in Hshows. apply andb_true_iff in Hshows as [Hc Hshows].
    cbn [start]. unfold _search_one_combo.
    destruct (c_open c); [|cbn; split; [assumption | apply extends_refl]].
    pose proof (search_loop_kept self pos loc (c_pages c) Hc
                  {| Collector.store := store; empty_page_streak := 0; jobs_per_page := 0 |}
                  Hkept) as Hs.
    destruct (search_loop self pos loc _ (c_pages c)) as [st e]. cbn [fst Collector.store] in Hs.
    destruct Hs as [Hkept1 Hext1]. destruct (IH Hshows (Collector.store st) Hkept1).
    split; [assumption | now apply extends_trans with (Collector.store st)].
Qed.

(** The identifiers collected on a page are new to the index and distinct. *)
Lemma link_job_ids_fresh (blacklist : list string) (saved_ids : gset string)
    (links : list LinkObs) (id : string) :
  In id (link_job_ids blacklist saved_ids links) -> id ∉ saved_ids.
Proof.
  induction links as [|link links IH]; cbn [link_job_ids]; [intros []|].
  destruct (link_job_id blacklist saved_ids link) as [jobID|] eqn:E; [|exact IH].
  intros [<-|Hin]; [|now apply IH].
  unfold link_job_id in E.
  destruct (link_text link) as [txt|]; [|discriminate].
  destruct (contains "Applied" txt); [discriminate|].
  destruct (Store.mem txt blacklist); [discriminate|].
  destruct (data_job_id link) as [[j|]|]; try discriminate.
  destruct (negb (truthy j) || String.eqb j "search"); [discriminate|].
  destruct (bool_decide (j ∈ saved_ids)) eqn:Es; [discriminate|].
  injection E as <-. now apply bool_decide_eq_false in Es.
Qed.

End Orchestrator.

Lemma run_shows_anything (combos : list (string * string * Collector.ComboObs)) :
  Collector.run_shows (fun _ => true) combos = true.
Proof.
  unfold Collector.run_shows. apply forallb_forall. intros c _.
  apply forallb_forall. intros p _. unfold Collector.page_shows.
  destruct (Collector.p_links p) as [links|]; [|reflexivity].
  apply forallb_forall. intros link _. unfold Collector.link_shows.
  destruct (Collector.data_job_id link) as [[j|]|]; try reflexivity.
  now rewrite !orb_true_r.
Qed.

End DedupFacts.

(** C2, as the code has it.  For a store this program wrote for listings
    of LinkedIn (absent, empty, or a sheet with a field for every label on
    every line and a [jobID] column of numerals without duplicates), a
    run only appends to the identifiers of the file and leaves no
    identifier twice in it, whatever the combinations; when the
    identifiers its pages show are numerals, the same holds of a second
    run on the file the first one left: it appends none of the
    identifiers the file held.  The identifiers collected on a page are
    distinct and unknown to the index, and a listing the index knows is
    left before any processing.  (A file that cannot be read at opening
    is outside this statement: its index starts empty.) *)
Theorem no_duplicate_identifiers {clock : Collector.Clock}
    (a1 a2 : Collector.InitArgs) (f : Store.csv_file)
    (combos1 combos2 : list (string * string * Collector.ComboObs)) :
  Store.well_formed f = true ->
  let s1 := fst (Collector.run a1 f combos1) in
  let s2 := fst (Collector.run a2 (Store.file s1) combos2) in
  (exists new1, Store.line_ids (Store.file s1) = (Store.jobID_cells f ++ new1)%list) /\
  List.NoDup (Store.line_ids (Store.file s1)) /\
  (Collector.run_shows Store.numeral combos1 = true ->
   (exists new2, Store.line_ids (Store.file s2)
                 = (Store.line_ids (Store.file s1) ++ new2)%list) /\
   List.NoDup (Store.line_ids (Store.file s2))) /\
  (forall blacklist saved_ids links,
     match Collector.collect_job_ids_from_result blacklist saved_ids (Ok links) with
     | Ok jobIDs => List.NoDup jobIDs /\ List.Forall (fun id => id ∉ saved_ids) jobIDs
     | Raised _ => False
     end) /\
  (forall self pos loc store k jobID o,
     if Store.has store jobID
     then Collector.collect_one self pos loc store k jobID o
          = (store, k, Collector.AlreadySaved)
     else True).
Proof.
  intros Hwf s1 s2.
  destruct (DedupFacts.open_kept f Hwf) as [Hopen Hids].
  destruct (DedupFacts.start_kept (fun _ => true) (Collector.__init__ a1) combos1
              (DedupFacts.run_shows_anything combos1) _
              (DedupFacts.kept_weaken _ _ Hopen)) as [[Hidx1 _] [new1 Hnew1]].
  fold (Collector.run a1 f combos1) in Hidx1, Hnew1. fold s1 in Hidx1, Hnew1.
  split; [exists new1; now rewrite Hnew1, Hids|].
  split; [now destruct Hidx1 as (? & _ & _ & ? & _)|].
  split; [|split].
  - intros Hshows.
    destruct (DedupFacts.start_kept Store.numeral (Collector.__init__ a1) combos1
                Hshows _ Hopen) as [Hkept1 _].
    fold (Collector.run a1 f combos1) in Hkept1. fold s1 in Hkept1.
    pose proof (DedupFacts.kept_well_formed s1 Hkept1) as Hwf1.
    destruct (DedupFacts.open_kept (Store.file s1) Hwf1) as [Hopen1 Hids1].
    destruct (DedupFacts.start_kept (fun _ => true) (Collector.__init__ a2) combos2
                (DedupFacts.run_shows_anything combos2) _
                (DedupFacts.kept_weaken _ _ Hopen1)) as [[Hidx2 _] [new2 Hnew2]].
    fold (Collector.run a2 (Store.file s1) combos2) in Hidx2, Hnew2. fold s2 in Hidx2, Hnew2.
    split; [|now destruct Hidx2 as (? & _ & _ & ? & _)].
    exists new2. rewrite Hnew2. f_equal.
    destruct Hopen1 as [(ls & Hf & _) _]. rewrite Hf.
    unfold Store.__init__ in Hf. cbn [Store.file] in Hf.
    destruct Hidx1 as (ls1 & Hf1 & _). rewrite Hf1, StoreFacts.ensure_canonical in Hf.
    now rewrite Hf1, Hf.
  - intros blacklist saved_ids links. cbn [Collector.collect_job_ids_from_result].
    split; [apply DedupFacts.unique_NoDup|].
    apply List.Forall_forall. intros id Hin.
    apply DedupFacts.unique_In in Hin. now apply DedupFacts.link_job_ids_fresh in Hin.
  - intros self pos loc store k jobID o. unfold Collector.collect_one.
    now destruct (Store.has store jobID).
Qed.

Lemma no_duplicate_identifiers_witness :
  let f := Fixtures.annotated_store in
  let s1 := fst (Collector.run Fixtures.policies f Fixtures.two_listings) in
  let s2 := fst (Collector.run Fixtures.policies (Store.file s1) Fixtures.two_listings) in
  Store.well_formed f = true /\
  Collector.run_shows Store.numeral Fixtures.two_listings = true /\
  Store.line_ids (Store.file s1) = ["1001"; "1002"] /\
  List.NoDup (Store.line_ids (Store.file s1)) /\
  List.NoDup (Store.line_ids (Store.file s2)).
Proof.
  cbv zeta. split; [reflexivity|]. split; [reflexivity|].
  split; [vm_compute; reflexivity|].
  destruct (no_duplicate_identifiers Fixtures.policies Fixtures.policies
              Fixtures.annotated_store Fixtures.two_listings Fixtures.two_listings eq_refl)
    as (_ & Hnd1 & Hsecond & _).
  split; [exact Hnd1|]. now destruct (Hsecond eq_refl) as [_ Hnd2].
Defined.

(** The same combination run twice on an absent store: two records after
    the first run, and the same two after the second. *)
Example second_run_appends_nothing :
  let s1 := fst (Collector.run Fixtures.policies Store.Absent Fixtures.two_listings) in
  let s2 := fst (Collector.run Fixtures.policies (Store.file s1) Fixtures.two_listings) in
  Store.line_ids (Store.file s1) = ["1001"; "1002"] /\
  Store.line_ids (Store.file s2) = ["1001"; "1002"] /\
  Store.file s2 = Store.file s1.
Proof. vm_compute. repeat split. Qed.

(** C2, as the claim has it, fails on an existing store that cannot be
    read: one line of the file has a field too many, [read_csv] raises,
    the index starts empty, and a run whose page shows the two
    identifiers the file holds appends both again. *)
Lemma unreadable_store_is_appended_again :
  let f := Fixtures.torn_store in
  let s1 := fst (Collector.run Fixtures.policies f Fixtures.two_listings) in
  Store.read_csv f = Raised "ParserError" /\
  Store._load_saved_jobIDs (Store._ensure_header_or_upgrade f) = None /\
  Store.savedJobIDs (Store.__init__ f) = ∅ /\
  Store.line_ids f = ["1001"; "1002"] /\
  Store.line_ids (Store.file s1) = ["1001"; "1002"; "1001"; "1002"] /\
  ~ List.NoDup (Store.line_ids (Store.file s1)).
Proof.
  cbv zeta. repeat split; try (vm_compute; reflexivity).
  assert (Hids : Store.line_ids
                   (Store.file (fst (Collector.run Fixtures.policies Fixtures.torn_store
                                       Fixtures.two_listings)))
                 = ["1001"; "1002"; "1001"; "1002"]) by (vm_compute; reflexivity).
  rewrite Hids. intros Hnd. inversion Hnd as [|? ? Hnotin _]. apply Hnotin. cbn. tauto.
Qed.

(** The upgrade of a store of the older schema that has a column of its
    owner's: the three enrichment columns are added, the row and its
    canonical values are kept, the other column is dropped. *)
Example upgrade_keeps_canonical_columns_only :
  Store._ensure_header_or_upgrade Fixtures.annotated_store
  = Store.Sheet Store._header
      [ (firstn 15 (Store.row_of (Fixtures.record "1001"))
         ++ ["cannot fetch"; "cannot fetch"; "cannot fetch"])%list ].
Proof. vm_compute. reflexivity. Qed.

(** A file of the six positional names: read on its own it gives its
    identifiers, but the upgrade runs first at opening, takes its first
    line for a header and leaves the sentinel in every field. *)
Example positional_store_is_overwritten :
  Store._load_saved_jobIDs Fixtures.positional_store = Some ["3001"; "3002"; "3003"] /\
  Store._ensure_header_or_upgrade Fixtures.positional_store
  = Store.Sheet Store._header [repeat "cannot fetch" 18; repeat "cannot fetch" 18] /\
  elements (Store.savedJobIDs (Store.__init__ Fixtures.positional_store)) = ["cannot fetch"].
Proof. vm_compute. repeat split. Qed.

(** The match is returned as it is written: scheme and letter case are
    kept.  Another host gives the empty string, unless the root occurs
    further in the input. *)
Example normalize_variants :
  Url._normalize_company_url "HTTP://WWW.LinkedIn.com/Company/Acme/people"
  = "HTTP://WWW.LinkedIn.com/Company/Acme/" /\
  Url._normalize_company_url "https://linkedin.com/company/acme" = "" /\
  Url._normalize_company_url "" = "" /\
  Url._normalize_company_url "  see https://www.linkedin.com/company/acme?trk=x  "
  = "https://www.linkedin.com/company/acme/" /\
  Url._normalize_company_url "https://example.org/r?u=https://www.linkedin.com/company/acme/life"
  = "https://www.linkedin.com/company/acme/".
Proof. vm_compute. repeat split. Qed.

(* ================================================================== *)
(** * Part III: the rest of the module *)
(* ================================================================== *)

(** ** [str.strip] *)
Module StripFacts.
Import Text TextFacts.

Lemma lstrip_by_head (p : ascii -> bool) (s : string) :
  lstrip_by p s = "" \/ exists c s', lstrip_by p s = String c s' /\ p c = false.
Proof.
  induction s as [|c s IH]; simpl; [now left|].
  destruct (p c) eqn:E; [exact IH|]. right. now exists c, s.
Qed.

Lemma rstrip_by_idem (p : ascii -> bool) (s : string) :
  rstrip_by p (rstrip_by p s) = rstrip_by p s.
Proof.
  induction s as [|c s IH]; [reflexivity|].
  simpl. destruct (rstrip_by p s) as [|a r] eqn:E.
  - destruct (p c) eqn:Ec; [reflexivity|]. simpl. now rewrite Ec.
  - change (rstrip_by p (String c (String a r))) with
      (match rstrip_by p (String a r) with
       | EmptyString => if p c then EmptyString else String c EmptyString
       | r0 => String c r0
       end).
    now rewrite IH.
Qed.

Lemma lstrip_by_length (p : ascii -> bool) (s : string) :
  (String.length (lstrip_by p s) <= String.length s)%nat.
Proof. induction s as [|c s IH]; simpl; [lia|]. destruct (p c); simpl; lia. Qed.

Lemma rstrip_by_length (p : ascii -> bool) (s : string) :
  (String.length (rstrip_by p s) <= String.length s)%nat.
Proof.
  induction s as [|c s IH]; simpl; [lia|].
  destruct (rstrip_by p s); [destruct (p c)|]; simpl in *; lia.
Qed.

Lemma strip_length (s : string) : (String.length (strip s) <= String.length s)%nat.
Proof.
  unfold strip. pose proof (rstrip_by_length is_space (lstrip_by is_space s)).
  pose proof (lstrip_by_length is_space s). lia.
Qed.

Lemma strip_idem (s : string) : strip (strip s) = strip s.
Proof.
  unfold strip. destruct (lstrip_by_head is_space s) as [E | (c & s' & E & Hc)]; rewrite E.
  - reflexivity.
  - destruct (rstrip_by_head is_space c s' Hc) as [r Er]. rewrite Er.
    simpl lstrip_by. rewrite Hc. rewrite <- Er. apply rstrip_by_idem.
Qed.

Lemma contains_strip_plain (p s : string) :
  contains p (strip s) = true -> contains p s = true.
Proof.
  intros H. unfold strip in H.
  destruct (lstrip_by_suffix is_space s) as [head Hh].
  destruct (rstrip_by_prefix is_space (lstrip_by is_space s)) as [tail Ht].
  rewrite Hh. apply contains_append_r. rewrite Ht. now apply contains_append_l.
Qed.

Lemma all_chars_lstrip (q p : ascii -> bool) (s : string) :
  Url.all_chars q s = true -> Url.all_chars q (lstrip_by p s) = true.
Proof.
  induction s as [|c s IH]; simpl; [easy|]. intros H.
  apply andb_true_iff in H as [Hc Hs]. destruct (p c); [now apply IH|].
  simpl. now rewrite Hc, Hs.
Qed.

Lemma all_chars_rstrip (q p : ascii -> bool) (s : string) :
  Url.all_chars q s = true -> Url.all_chars q (rstrip_by p s) = true.
Proof.
  induction s as [|c s IH]; simpl; [easy|]. intros H.
  apply andb_true_iff in H as [Hc Hs]. specialize (IH Hs).
  destruct (rstrip_by p s); [destruct (p c); simpl; [easy | now rewrite Hc]|].
  simpl in *. now rewrite Hc, IH.
Qed.

Lemma all_chars_strip (q : ascii -> bool) (s : string) :
  Url.all_chars q s = true -> Url.all_chars q (strip s) = true.
Proof. intros H. unfold strip. now apply all_chars_rstrip, all_chars_lstrip. Qed.

End StripFacts.

(** ** [_normalize_space] *)
Module SpaceFacts.
Import Text Space StripFacts.

Lemma sub_spaces_chars (b : bool) (s : string) :
  Url.all_chars plain_or_blank (sub_spaces b s) = true.
Proof.
  revert b. induction s as [|c s IH]; intros b; simpl; [reflexivity|].
  destruct (is_space c) eqn:Ec.
  - destruct b; [apply IH|]. simpl. apply IH.
  - simpl. unfold plain_or_blank at 1. rewrite Ec. simpl. apply IH.
Qed.

Lemma sub_spaces_single (b : bool) (s : string) :
  contains "  " (sub_spaces b s) = false /\
  (b = true -> startswith " " (sub_spaces b s) = false).
Proof.
  revert b. induction s as [|c s IH]; intros b; simpl; [now split|].
  destruct (is_space c) eqn:Ec.
  - destruct b; [apply IH|].
    destruct (IH true) as [H1 H2]. split; [|discriminate].
    change (contains "  " (String " " (sub_spaces true s)))
      with (startswith "  " (String " " (sub_spaces true s))
            || contains "  " (sub_spaces true s)).
    rewrite H1, orb_false_r.
    change (startswith "  " (String " " (sub_spaces true s)))
      with (Ascii.eqb " " " " && startswith " " (sub_spaces true s)).
    now rewrite H2.
  - assert (Hc : Ascii.eqb " " c = false).
    { destruct (Ascii.eqb_spec " "%char c) as [<-|]; [discriminate Ec | reflexivity]. }
    destruct (IH false) as [H1 _]. split.
    + change (contains "  " (String c (sub_spaces false s)))
        with (startswith "  " (String c (sub_spaces false s))
              || contains "  " (sub_spaces false s)).
      rewrite H1, orb_false_r.
      change (startswith "  " (String c (sub_spaces false s)))
        with (Ascii.eqb " " c && startswith " " (sub_spaces false s)).
      now rewrite Hc.
    + intros _. change (Ascii.eqb " " c && true = false). now rewrite Hc.
Qed.

Lemma sub_spaces_fixed (s : string) :
  forall b, Url.all_chars plain_or_blank s = true -> contains "  " s = false ->
            (b = true -> startswith " " s = false) -> sub_spaces b s = s.
Proof.
  induction s as [|c s IH]; intros b Hall Hno Hstart; [reflexivity|].
  simpl in Hall. apply andb_true_iff in Hall as [Hc Hall].
  change (contains "  " (String c s))
    with (startswith "  " (String c s) || contains "  " s) in Hno.
  apply orb_false_iff in Hno as [Hno1 Hno2].
  simpl. destruct (is_space c) eqn:Ec.
  - unfold plain_or_blank in Hc. rewrite Ec in Hc. simpl in Hc.
    apply Ascii.eqb_eq in Hc. subst c.
    destruct b.
    + specialize (Hstart eq_refl). discriminate Hstart.
    + f_equal. apply IH; [assumption | assumption |]. intros _.
      change (startswith "  " (String " " s))
        with (Ascii.eqb " " " " && startswith " " s) in Hno1.
      exact Hno1.
  - f_equal. apply IH; [assumption | assumption | discriminate].
Qed.

Lemma letters_sub_spaces (b : bool) (s : string) : letters (sub_spaces b s) = letters s.
Proof.
  revert b. induction s as [|c s IH]; intros b; simpl; [reflexivity|].
  destruct (is_space c) eqn:Ec.
  - destruct b; [apply IH|]. simpl. apply IH.
  - simpl. rewrite Ec. f_equal. apply IH.
Qed.

Lemma letters_lstrip (s : string) : letters (lstrip_by is_space s) = letters s.
Proof.
  induction s as [|c s IH]; simpl; [reflexivity|].
  destruct (is_space c) eqn:Ec; [exact IH|]. simpl. now rewrite Ec.
Qed.

Lemma letters_rstrip (s : string) : letters (rstrip_by is_space s) = letters s.
Proof.
  induction s as [|c s IH]; simpl; [reflexivity|].
  destruct (rstrip_by is_space s) as [|a r] eqn:E.
  - destruct (is_space c) eqn:Ec; simpl; rewrite ?Ec; simpl; now rewrite <- IH.
  - change (letters (String c (String a r)))
      with (if is_space c then letters (String a r) else String c (letters (String a r))).
    now rewrite IH.
Qed.

Lemma letters_strip (s : string) : letters (strip s) = letters s.
Proof. unfold strip. now rewrite letters_rstrip, letters_lstrip. Qed.

Lemma normalize_space_fixed (r : string) :
  Url.all_chars plain_or_blank r = true -> contains "  " r = false -> strip r = r ->
  _normalize_space r = r.
Proof.
  intros Hall Hno Hstrip. unfold _normalize_space.
  rewrite (sub_spaces_fixed r false); [assumption | assumption | assumption | discriminate].
Qed.

Lemma normalize_space_idem (s : string) :
  _normalize_space (_normalize_space s) = _normalize_space s.
Proof.
  apply normalize_space_fixed.
  - apply all_chars_strip, sub_spaces_chars.
  - destruct (contains "  " (_normalize_space s)) eqn:E; [|reflexivity].
    apply contains_strip_plain in E. now rewrite (proj1 (sub_spaces_single false s)) in E.
  - apply strip_idem.
Qed.

End SpaceFacts.

(** X1. [_normalize_space] gives a normal form: its result has no white
    space but single spaces between words, none at either end, the same
    characters other than white space as the input, in the same order, and
    is left as it is by a second pass. *)
Theorem normalize_space_normal_form (s : string) :
  let r := Space._normalize_space s in
  Url.all_chars (fun c => negb (Text.is_space c) || Ascii.eqb c " ") r = true /\
  Text.contains "  " r = false /\
  Text.strip r = r /\
  Space.letters r = Space.letters s /\
  Space._normalize_space r = r.
Proof.
  cbv zeta. repeat split.
  - apply StripFacts.all_chars_strip, SpaceFacts.sub_spaces_chars.
  - destruct (Text.contains "  " (Space._normalize_space s)) eqn:E; [|reflexivity].
    apply StripFacts.contains_strip_plain in E.
    now rewrite (proj1 (SpaceFacts.sub_spaces_single false s)) in E.
  - apply StripFacts.strip_idem.
  - unfold Space._normalize_space.
    now rewrite SpaceFacts.letters_strip, SpaceFacts.letters_sub_spaces.
  - apply SpaceFacts.normalize_space_idem.
Qed.

(** ** The description taken from the JSON payload *)
Module CleanFacts.
Import Text Api Shape StripFacts.

Lemma newline_head (c : ascii) (s : string) :
  Ascii.eqb c newline = false -> contains triple_newline (String c s) = contains triple_newline s.
Proof.
  intros Hc. rewrite Ascii.eqb_sym in Hc.
  change (contains triple_newline (String c s)) with (startswith triple_newline (String c s) || contains triple_newline s).
  change (startswith triple_newline (String c s))
    with (Ascii.eqb newline c && startswith (String newline (String newline "")) s).
  now rewrite Hc.
Qed.

Lemma flush_no_triple (pending : nat) (c : ascii) (s : string) :
  Ascii.eqb c newline = false -> contains triple_newline s = false ->
  contains triple_newline (flush_newlines pending (String c s)) = false.
Proof.
  intros Hc Hs. pose proof (newline_head c s Hc) as Hh. rewrite Hs in Hh.
  rewrite Ascii.eqb_sym in Hc.
  destruct pending as [|[|k]]; unfold flush_newlines; [exact Hh| |].
  - change (contains triple_newline (String newline (String c s)))
      with (Ascii.eqb newline newline && (Ascii.eqb newline c
              && startswith (String newline "") s)
            || contains triple_newline (String c s)).
    now rewrite Hc, Hh, andb_false_r.
  - change (contains triple_newline (String newline (String newline (String c s))))
      with (Ascii.eqb newline newline && (Ascii.eqb newline newline
              && (Ascii.eqb newline c && startswith "" s))
            || (Ascii.eqb newline newline && (Ascii.eqb newline c
                  && startswith (String newline "") s)
                || contains triple_newline (String c s))).
    now rewrite Hc, Hh, !andb_false_r.
Qed.

Lemma collapse_newlines_from_no_triple (s : string) :
  forall pending, contains triple_newline (collapse_newlines_from pending s) = false.
Proof.
  induction s as [|c s IH]; intros pending.
  - destruct pending as [|[|k]]; reflexivity.
  - simpl. destruct (Ascii.eqb c newline) eqn:Ec; [apply IH|].
    apply flush_no_triple; [exact Ec | apply IH].
Qed.

Lemma collapse_newlines_no_triple (s : string) : contains triple_newline (collapse_newlines s) = false.
Proof. apply collapse_newlines_from_no_triple. Qed.

Section Client.
Context {parsers : Parsers}.

Lemma jd_from_json_cases (data : json) :
  jd_from_json data = "" \/
  exists x, jd_from_json data = strip (collapse_newlines x) /\
            (80 < String.length (strip (collapse_newlines x)))%nat.
Proof.
  unfold jd_from_json. cbv zeta.
  destruct (json_truthy data); [|now left].
  match goal with |- context [if truthy ?b then _ else _] => destruct (truthy b) end;
    [|now left].
  match goal with |- context [strip (collapse_newlines ?x)] => set (y := x) end.
  destruct (80 <? String.length (strip (collapse_newlines y)))%nat eqn:E; [|now left].
  right. exists y. split; [reflexivity|]. now apply Nat.ltb_lt.
Qed.

Lemma fetch_guest_jd_cases (http : res Response) (jd : string) :
  fetch_guest_jd http = Ok jd -> jd = "" \/ (80 < String.length jd)%nat.
Proof.
  unfold fetch_guest_jd. destruct http as [r|e]; [|intros [= <-]; now left].
  destruct (negb (status_code r =? 200)%Z || negb (truthy (strip (text r))));
    [intros [= <-]; now left|].
  destruct (soup_raises (text r)); [discriminate|]. cbv zeta.
  destruct (first_long_candidate (map (select_one_text (text r)) guest_selectors))
    as [txt|] eqn:E.
  - intros [= <-]. right.
    revert E. generalize (map (select_one_text (text r)) guest_selectors).
    induction l as [|c l IH]; simpl; [discriminate|].
    destruct c as [t|]; [|exact IH].
    destruct (80 <? String.length (strip t))%nat eqn:El; [|exact IH].
    intros [= <-]. now apply Nat.ltb_lt.
  - destruct (80 <? String.length (strip (_html_to_text (text r))))%nat eqn:El;
      intros [= <-]; [right | now left].
    apply Nat.ltb_lt in El.
    pose proof (strip_length (_html_to_text (text r))). lia.
Qed.

End Client.
End CleanFacts.

(** X2. The description [fetch_jd_and_posted_at] returns is never a short
    one: whenever the call returns, whatever the two requests answered,
    the description is empty or longer than 80 characters. *)
Theorem description_empty_or_long {parsers : Api.Parsers}
    (idx : nat) (refresh : res unit) (guest voyager : res Api.Response)
    (jd posted_at : string) :
  Api.fetch_jd_and_posted_at idx refresh guest voyager = Ok (jd, posted_at) ->
  jd = "" \/ (80 < String.length jd)%nat.
Proof.
  intros H.
  apply ApiFacts.fetch_jd_and_posted_at_returned
    in H as (jd_guest & data & _ & Hg & _ & _ & [= -> _]).
  apply CleanFacts.fetch_guest_jd_cases in Hg.
  destruct (Text.truthy jd_guest) eqn:Et.
  - destruct Hg as [-> | Hlen]; [discriminate Et | now right].
  - destruct (CleanFacts.jd_from_json_cases data) as [-> | (x & -> & Hx)]; [now left | now right].
Qed.

Lemma description_empty_or_long_witness :
  Api.fetch_jd_and_posted_at (parsers := Fixtures.plain_text) 0 (Ok tt)
    (Ok {| Api.status_code := 200; Api.text := Fixtures.sample_text |})
    (Raised "ConnectTimeout")
  = Ok (Fixtures.sample_text, "")
  /\ (Fixtures.sample_text = "" \/ (80 < String.length Fixtures.sample_text)%nat).
Proof.
  split; [reflexivity|].
  apply (description_empty_or_long (parsers := Fixtures.plain_text) 0 (Ok tt)
           (Ok {| Api.status_code := 200; Api.text := Fixtures.sample_text |})
           (Raised "ConnectTimeout") Fixtures.sample_text "").
  reflexivity.
Defined.


(** X3. The description taken from the JSON payload is clean: when it is
    not empty it is longer than 80 characters, has no white space at
    either end and no three newlines in a row. *)
Theorem jd_from_json_clean {parsers : Api.Parsers} (data : Api.json) :
  let jd := Api.jd_from_json data in
  jd = "" \/
  ((80 < String.length jd)%nat /\
   Text.strip jd = jd /\
   Text.contains Shape.triple_newline jd = false).
Proof.
  cbv zeta. destruct (CleanFacts.jd_from_json_cases data) as [-> | (x & -> & Hx)];
    [now left | right].
  split; [exact Hx|]. split; [apply StripFacts.strip_idem|].
  destruct (Text.contains _ (Text.strip (Api.collapse_newlines x))) eqn:E; [|reflexivity].
  apply StripFacts.contains_strip_plain in E.
  now rewrite CleanFacts.collapse_newlines_no_triple in E.
Qed.

(** ** The guard before the JSON payload *)
Module GuardFacts.
Import Text Api TextFacts.

Lemma substring_all (s : string) (m : nat) :
  (String.length s <= m)%nat -> substring 0 m s = s.
Proof.
  revert m. induction s as [|c s IH]; intros m H; destruct m; simpl in *;
    try reflexivity; try lia.
  f_equal. apply IH. lia.
Qed.

Lemma substring_drop (a b : string) (m : nat) :
  (String.length b <= m)%nat -> substring (String.length a) m (a ++ b) = b.
Proof.
  induction a as [|c a IH]; intros H; simpl; [now apply substring_all | now apply IH].
Qed.

Lemma length_append (a b : string) :
  String.length (a ++ b) = (String.length a + String.length b)%nat.
Proof. induction a as [|c a IH]; simpl; [reflexivity | now rewrite IH]. Qed.

Lemma startswith_self (lit x : string) : startswith lit (lit ++ x) = true.
Proof.
  induction lit as [|c lit IH]; simpl; [now destruct x|]. now rewrite Ascii.eqb_refl.
Qed.

Lemma lstrip_spaces (w body : string) :
  Url.all_chars is_space w = true -> lstrip_by is_space body = body ->
  lstrip_by is_space (w ++ body) = body.
Proof.
  intros Hw Hb. induction w as [|c w IH]; simpl in *; [exact Hb|].
  apply andb_true_iff in Hw as [Hc Hw]. rewrite Hc. now apply IH.
Qed.

(** What follows a literal and white space, as the pattern reads on. *)
Lemma skip_after (lit w rest : string) :
  Url.all_chars is_space w = true -> lstrip_by is_space rest = rest ->
  lstrip_by is_space
    (substring (String.length lit) (String.length (lit ++ w ++ rest)) (lit ++ w ++ rest))
  = rest.
Proof.
  intros Hw Hr. rewrite substring_drop; [now apply lstrip_spaces|].
  rewrite !length_append. lia.
Qed.

Lemma strip_guard_removes (w1 w2 w3 w4 body : string) :
  Url.all_chars is_space w1 = true -> Url.all_chars is_space w2 = true ->
  Url.all_chars is_space w3 = true -> Url.all_chars is_space w4 = true ->
  lstrip_by is_space body = body ->
  strip_guard ("for" ++ w1 ++ "(" ++ w2 ++ ";;" ++ w3 ++ ");" ++ w4 ++ body) = body.
Proof.
  intros H1 H2 H3 H4 Hb. unfold strip_guard. cbv zeta.
  pose proof (skip_after "for" w1 ("(" ++ w2 ++ ";;" ++ w3 ++ ");" ++ w4 ++ body) H1 eq_refl)
    as E1.
  pose proof (skip_after "(" w2 (";;" ++ w3 ++ ");" ++ w4 ++ body) H2 eq_refl) as E2.
  pose proof (skip_after ";;" w3 (");" ++ w4 ++ body) H3 eq_refl) as E3.
  pose proof (skip_after ");" w4 body H4 Hb) as E4.
  cbn [String.length] in E1, E2, E3, E4.
  rewrite (startswith_self "for"), E1.
  rewrite (startswith_self "("), E2.
  rewrite (startswith_self ";;"), E3.
  rewrite (startswith_self ");"). exact E4.
Qed.

Lemma strip_guard_without (raw : string) : startswith "for" raw = false -> strip_guard raw = raw.
Proof. intros H. unfold strip_guard. cbv zeta. now rewrite H. Qed.

End GuardFacts.

(** X4. The JSON endpoint's answer is read without its guard: a body that
    starts, once stripped, with [for (;;);] written with any white space
    is parsed from the first character after the guard and the white
    space that follows it; a body that does not start with [for] is parsed
    as it is. *)
Theorem voyager_guard_is_removed {parsers : Api.Parsers}
    (r : Api.Response) (w1 w2 w3 w4 body : string) (data : Api.json) :
  Api.status_code r = 200%Z ->
  Api.json_loads body = Ok data ->
  (Url.all_chars Text.is_space w1 = true -> Url.all_chars Text.is_space w2 = true ->
   Url.all_chars Text.is_space w3 = true -> Url.all_chars Text.is_space w4 = true ->
   Text.lstrip_by Text.is_space body = body ->
   Text.strip (Api.text r) = "for" ++ w1 ++ "(" ++ w2 ++ ";;" ++ w3 ++ ");" ++ w4 ++ body ->
   Api.fetch_voyager_json (Ok r) = Ok data)
  /\ (Text.startswith "for" body = false -> Text.truthy body = true ->
      Text.strip (Api.text r) = body ->
      Api.fetch_voyager_json (Ok r) = Ok data).
Proof.
  intros Hs Hj. unfold Api.fetch_voyager_json. rewrite Hs. simpl (negb _ || _). split.
  - intros H1 H2 H3 H4 Hb Ht. rewrite Ht. simpl (negb (Text.truthy _)). cbv iota zeta.
    rewrite (GuardFacts.strip_guard_removes w1 w2 w3 w4 body H1 H2 H3 H4 Hb).
    now rewrite Hj.
  - intros Hf Hb Ht. rewrite Ht, Hb. simpl. rewrite (GuardFacts.strip_guard_without body Hf).
    now rewrite Hj.
Qed.

Lemma voyager_guard_is_removed_witness :
  Api.fetch_voyager_json
    (parsers := Fixtures.one_payload "[1700000000000]" Fixtures.listed_payload)
    (Ok {| Api.status_code := 200; Api.text := "  for (;;);  [1700000000000] " |})
  = Ok Fixtures.listed_payload
  /\ Api.fetch_voyager_json
       (parsers := Fixtures.one_payload "[1700000000000]" Fixtures.listed_payload)
       (Ok {| Api.status_code := 200; Api.text := "[1700000000000] " |})
     = Ok Fixtures.listed_payload.
Proof.
  split.
  - refine (proj1 (voyager_guard_is_removed
                     (parsers := Fixtures.one_payload "[1700000000000]" Fixtures.listed_payload)
                     {| Api.status_code := 200; Api.text := "  for (;;);  [1700000000000] " |}
                     " " "" "" "  " "[1700000000000]" Fixtures.listed_payload
                     eq_refl eq_refl) _ _ _ _ _ _);
      reflexivity.
  - refine (proj2 (voyager_guard_is_removed
                     (parsers := Fixtures.one_payload "[1700000000000]" Fixtures.listed_payload)
                     {| Api.status_code := 200; Api.text := "[1700000000000] " |}
                     "" "" "" "" "[1700000000000]" Fixtures.listed_payload
                     eq_refl eq_refl) _ _ _);
      reflexivity.
Defined.

(** ** The JSON payload: timestamps and long strings *)
Module JsonFacts.
Import Text Api StripFacts.

(** Induction on a JSON value, with the property on every element of an
    array and on every value of an object. *)
Lemma json_nested_ind (P : json -> Prop) :
  P JNull -> (forall b, P (JBool b)) -> (forall q, P (JNum q)) -> (forall s, P (JStr s)) ->
  (forall l, List.Forall P l -> P (JArr l)) ->
  (forall items, List.Forall (fun kv => P (snd kv)) items -> P (JObj items)) ->
  forall x, P x.
Proof.
  intros HN HB HQ HS HA HO. fix IH 1. intros [ | b | q | s | l | items].
  - exact HN.
  - apply HB.
  - apply HQ.
  - apply HS.
  - apply HA. revert l. fix IHl 1. intros [|v l]; constructor; [apply IH | apply IHl].
  - apply HO. revert items. fix IHi 1. intros [|[k v] items]; constructor;
      [apply IH | apply IHi].
Qed.

Lemma positive_number_pos (v : option json) (q : Q) :
  positive_number v = Some q -> (0 < q)%Q.
Proof.
  destruct v as [[ | [|] | q' | | | ]|]; simpl; try discriminate.
  - intros [= <-]. reflexivity.
  - destruct (Qlt_le_dec 0 q') as [H|H]; [|discriminate]. now intros [= <-].
Qed.

Lemma first_at_keys_pos (items : list (string * json)) (keys : list string) (q : Q) :
  first_at_keys items keys = Some q -> (0 < q)%Q.
Proof.
  induction keys as [|k keys IH]; simpl; [discriminate|].
  destruct (positive_number (dict_get k items)) as [v|] eqn:E; [|exact IH].
  intros [= <-]. now apply positive_number_pos in E.
Qed.

Lemma find_first_ms_pos (obj : json) :
  forall (keys : list string) (v : Q),
    _find_first_ms_by_keys_recursive obj keys = Some v -> (0 < v)%Q.
Proof.
  induction obj as [ | b | q | s | l IH | items IH] using json_nested_ind;
    intros keys v; simpl; try discriminate.
  - induction IH as [|x l Hx _ IHl]; [discriminate|].
    destruct (_find_first_ms_by_keys_recursive x keys) as [hit|] eqn:E; [|exact IHl].
    intros [= <-]. now apply Hx in E.
  - destruct (first_at_keys items keys) as [hit|] eqn:E.
    + intros [= <-]. now apply first_at_keys_pos in E.
    + clear E. induction IH as [|[k x] items Hx _ IHi]; [discriminate|].
      simpl in Hx.
      destruct (_find_first_ms_by_keys_recursive x keys) as [hit|] eqn:E; [|exact IHi].
      intros [= <-]. now apply Hx in E.
Qed.

End JsonFacts.

(** X5. The timestamp [_find_first_ms_by_keys_recursive] finds is always
    a positive number: a zero, a negative number or a value that is no
    number under one of the keys is passed over.  A positive number a
    dict holds under the key itself is the one found, whatever its values
    hold deeper. *)
Theorem posted_timestamp_is_positive :
  (forall (obj : Api.json) (keys : list string) (v : Q),
      Api._find_first_ms_by_keys_recursive obj keys = Some v -> (0 < v)%Q) /\
  (forall (items : list (string * Api.json)) (k : string) (q : Q),
      Api.dict_get k items = Some (Api.JNum q) -> (0 < q)%Q ->
      Api._find_first_ms_by_keys_recursive (Api.JObj items) [k] = Some q).
Proof.
  split.
  - intros obj. apply JsonFacts.find_first_ms_pos.
  - intros items k q Hk Hq. simpl. rewrite Hk. simpl.
    destruct (Qlt_le_dec 0 q) as [_|H]; [reflexivity|].
    exfalso. apply (Qle_not_lt _ _ H Hq).
Qed.

Lemma posted_timestamp_is_positive_witness :
  (0 < 1700000000000)%Q /\
  Api._find_first_ms_by_keys_recursive
    (Api.JObj [("job", Api.JObj [("listedAt", Api.JNum 5)]); ("listedAt", Api.JNum 7)])
    ["listedAt"] = Some 7%Q.
Proof.
  split.
  - apply (proj1 posted_timestamp_is_positive
             (Api.JObj [("listedAt", Api.JNum 0);
                        ("job", Api.JObj [("listedAt", Api.JNum 1700000000000)])])
             ["listedAt"] 1700000000000%Q).
    reflexivity.
  - apply (proj2 posted_timestamp_is_positive
             [("job", Api.JObj [("listedAt", Api.JNum 5)]); ("listedAt", Api.JNum 7)]
             "listedAt" 7%Q); reflexivity.
Defined.

(** ** [_find_long_strings] *)
Module HitsFacts.
Import Text Api Shape StripFacts ApiFacts JsonFacts.

Lemma walk_hits (min_len : nat) (x : json) :
  forall path,
    List.Forall (fun h => (min_len <= String.length (snd h))%nat /\ strip (snd h) = snd h)
      (walk min_len x path).
Proof.
  induction x as [ | b | q | s | l IH | items IH] using json_nested_ind;
    intros path; simpl; try constructor.
  - destruct (min_len <=? String.length (strip s))%nat eqn:E; constructor; [|constructor].
    simpl. split; [now apply Nat.leb_le | apply strip_idem].
  - generalize 0%nat. induction IH as [|v l Hv _ IHl]; intros i; [constructor|].
    apply List.Forall_app. split; [apply Hv | apply IHl].
  - induction IH as [|[k v] items Hv _ IHi]; [constructor|].
    apply List.Forall_app. split; [apply Hv | apply IHi].
Qed.

Lemma insert_by_len_perm (h : string * string) (sorted : list (string * string)) :
  Permutation (insert_by_len h sorted) (h :: sorted).
Proof.
  induction sorted as [|h' rest IH]; simpl; [reflexivity|].
  destruct (String.length (snd h') <? String.length (snd h))%nat; [reflexivity|].
  rewrite IH. apply perm_swap.
Qed.

Lemma sort_by_len_desc_perm_acc (hits acc : list (string * string)) :
  Permutation (fold_left (fun sorted h => insert_by_len h sorted) hits acc) (hits ++ acc).
Proof.
  revert acc. induction hits as [|h hits IH]; intros acc; simpl; [reflexivity|].
  rewrite IH, insert_by_len_perm. symmetry. apply Permutation_middle.
Qed.

Lemma sort_by_len_desc_perm (hits : list (string * string)) :
  Permutation (sort_by_len_desc hits) hits.
Proof.
  unfold sort_by_len_desc. rewrite sort_by_len_desc_perm_acc. now rewrite app_nil_r.
Qed.

Lemma insert_by_len_sorted (h : string * string) (sorted : list (string * string)) :
  StronglySorted not_longer sorted -> StronglySorted not_longer (insert_by_len h sorted).
Proof.
  induction 1 as [|h' rest Hs IH Hall]; simpl; [repeat constructor|].
  destruct (String.length (snd h') <? String.length (snd h))%nat eqn:E.
  - apply Nat.ltb_lt in E. constructor; [now constructor|].
    constructor; [unfold not_longer; lia|].
    eapply List.Forall_impl; [|exact Hall]. unfold not_longer. intros; lia.
  - apply Nat.ltb_ge in E. constructor; [exact IH|].
    apply List.Forall_forall. intros x Hx. apply In_insert_by_len in Hx as [-> | Hx].
    + exact E.
    + now apply (proj1 (List.Forall_forall _ _) Hall).
Qed.

Lemma sort_by_len_desc_sorted (hits : list (string * string)) :
  StronglySorted not_longer (sort_by_len_desc hits).
Proof.
  unfold sort_by_len_desc.
  assert (H : forall acc, StronglySorted not_longer acc ->
                          StronglySorted not_longer
                            (fold_left (fun sorted h => insert_by_len h sorted) hits acc)).
  { induction hits as [|h hits IH]; intros acc Hacc; simpl; [exact Hacc|].
    now apply IH, insert_by_len_sorted. }
  apply H. constructor.
Qed.

Lemma firstn_sorted (n : nat) (l : list (string * string)) :
  StronglySorted not_longer l -> StronglySorted not_longer (firstn n l).
Proof.
  intros H. revert n. induction H as [|h l Hs IH Hall]; intros [|n]; simpl;
    try constructor; [apply IH|].
  apply List.Forall_forall. intros x Hx. apply In_firstn in Hx.
  now apply (proj1 (List.Forall_forall _ _) Hall).
Qed.

Lemma find_sorted (p : string * string -> bool) (l : list (string * string))
    (h : string * string) :
  StronglySorted not_longer l -> find p l = Some h ->
  In h l /\ p h = true /\ forall h', In h' l -> p h' = true -> not_longer h h'.
Proof.
  induction 1 as [|x l Hs IH Hall]; simpl; [discriminate|].
  destruct (p x) eqn:Ep.
  - intros [= <-]. split; [now left|]. split; [exact Ep|].
    intros h' [<- | Hin] _; [unfold not_longer; lia|].
    now apply (proj1 (List.Forall_forall _ _) Hall).
  - intros Hf. destruct (IH Hf) as (Hin & Hp & Hmax). split; [now right|].
    split; [exact Hp|]. intros h' [<- | Hin'] Hp'; [congruence | now apply Hmax].
Qed.

End HitsFacts.

(** X6. [_find_long_strings] returns the strings [walk] visits, each once
    for each visit, the longest first; every one of them is stripped and
    at least [min_len] characters long. *)
Theorem find_long_strings_longest_first (obj : Api.json) (min_len : nat) :
  let hits := Api._find_long_strings obj min_len in
  Permutation hits (Api.walk min_len obj "") /\
  StronglySorted Shape.not_longer hits /\
  List.Forall
    (fun h => (min_len <= String.length (snd h))%nat /\ Text.strip (snd h) = snd h) hits.
Proof.
  cbv zeta. unfold Api._find_long_strings. split; [|split].
  - apply HitsFacts.sort_by_len_desc_perm.
  - apply HitsFacts.sort_by_len_desc_sorted.
  - apply List.Forall_forall. intros h Hin. apply ApiFacts.In_sort_by_len_desc in Hin.
    now apply (proj1 (List.Forall_forall _ _) (HitsFacts.walk_hits min_len obj "")).
Qed.

Module ChoiceFacts.
Import Text Api Shape.

Lemma long_truthy (s : string) : (200 <= String.length s)%nat -> truthy s = true.
Proof. destruct s; simpl; [lia | reflexivity]. Qed.

Section Client.
Context {parsers : Parsers}.

Lemma hit_truthy (data : json) (h : string * string) :
  In h (_find_long_strings data 200) -> truthy (snd h) = true.
Proof.
  intros Hin. apply long_truthy. apply ApiFacts.In_sort_by_len_desc in Hin.
  now apply (proj1 (List.Forall_forall _ _) (HitsFacts.walk_hits 200 data "")) in Hin as [H _].
Qed.

Lemma jd_from_json_best (data : json) (best : string) :
  json_truthy data = true ->
  (match find (fun h => contains "description" (lower (fst h)))
           (firstn 200 (_find_long_strings data 200)) with
   | Some h => snd h
   | None => match _find_long_strings data 200 with
             | h :: _ => snd h
             | [] => ""
             end
   end) = best ->
  jd_from_json data =
  if truthy best
  then let b := clean_description best in if (80 <? String.length b)%nat then b else ""
  else "".
Proof.
  intros Ht Hb. unfold jd_from_json, clean_description. rewrite Ht. cbv zeta.
  destruct (find _ (firstn 200 (_find_long_strings data 200))) as [h|] eqn:Ef.
  - subst best. apply find_some in Ef as [Hin _]. apply ApiFacts.In_firstn in Hin.
    rewrite (hit_truthy data h Hin). cbn [negb]. rewrite (hit_truthy data h Hin).
    reflexivity.
  - simpl (negb (truthy "")). cbv iota.
    destruct (_find_long_strings data 200) as [|h tl]; subst best; reflexivity.
Qed.


End Client.
End ChoiceFacts.



(** X7. Which string of the payload becomes the description: the longest
    of the strings, among the 200 longest, whose path mentions
    "description" in any letter case, even when a longer string stands
    elsewhere; when there is none, the longest string of all; the empty
    description when the payload has no string of 200 characters. *)
Theorem jd_from_json_choice {parsers : Api.Parsers} (data : Api.json) :
  Api.json_truthy data = true ->
  let hits := Api._find_long_strings data 200 in
  let described := fun h : string * string =>
                     Text.contains "description" (Text.lower (fst h)) in
  let kept := fun s : string =>
                let b := Api.clean_description s in
                if (80 <? String.length b)%nat then b else "" in
  match find described (firstn 200 hits) with
  | Some h =>
      Api.jd_from_json data = kept (snd h) /\
      In h (Api.walk 200 data "") /\ described h = true /\
      forall h', In h' (firstn 200 hits) -> described h' = true ->
                 (String.length (snd h') <= String.length (snd h))%nat
  | None =>
      match hits with
      | [] => Api.walk 200 data "" = [] /\ Api.jd_from_json data = ""
      | h :: _ =>
          Api.jd_from_json data = kept (snd h) /\
          In h (Api.walk 200 data "") /\
          forall h', In h' (Api.walk 200 data "") ->
                     (String.length (snd h') <= String.length (snd h))%nat
      end
  end.
Proof.
  intros Ht. cbv zeta.
  pose proof (ChoiceFacts.jd_from_json_best data _ Ht eq_refl) as Hjd.
  pose proof (HitsFacts.sort_by_len_desc_sorted (Api.walk 200 data "")) as Hsorted.
  pose proof (HitsFacts.sort_by_len_desc_perm (Api.walk 200 data "")) as Hperm.
  fold (Api._find_long_strings data 200) in Hsorted, Hperm.
  destruct (find _ (firstn 200 (Api._find_long_strings data 200))) as [h|] eqn:Ef.
  - destruct (HitsFacts.find_sorted _ _ _ (HitsFacts.firstn_sorted 200 _ Hsorted) Ef)
      as (Hin & Hd & Hmax).
    apply ApiFacts.In_firstn in Hin.
    rewrite (ChoiceFacts.hit_truthy data h Hin) in Hjd.
    split; [exact Hjd|]. split; [now apply (Permutation_in _ Hperm)|].
    split; [exact Hd|]. exact Hmax.
  - destruct (Api._find_long_strings data 200) as [|h tl] eqn:Eh.
    + split; [|exact Hjd]. now apply Permutation_nil in Hperm.
    + assert (Hin : In h (Api._find_long_strings data 200)) by (rewrite Eh; now left).
      rewrite (ChoiceFacts.hit_truthy data h Hin) in Hjd.
      split; [exact Hjd|]. split; [apply (Permutation_in _ Hperm); now left|].
      intros h' Hh'. symmetry in Hperm. apply (Permutation_in _ Hperm) in Hh'.
      destruct Hh' as [<- | Hh']; [lia|].
      inversion Hsorted as [|? ? _ Hall]; subst.
      now apply (proj1 (List.Forall_forall _ _) Hall).
Qed.

Lemma jd_from_json_choice_witness :
  Api.json_truthy Fixtures.described_payload = true /\
  Api.jd_from_json (parsers := Fixtures.plain_text) Fixtures.described_payload
  = Fixtures.sample_text ++ Fixtures.sample_text.
Proof.
  split; [reflexivity|].
  pose proof (jd_from_json_choice (parsers := Fixtures.plain_text)
                Fixtures.described_payload eq_refl) as H.
  cbv zeta in H.
  assert (E : find (fun h : string * string =>
                      Text.contains "description" (Text.lower (fst h)))
                (firstn 200 (Api._find_long_strings Fixtures.described_payload 200))
              = Some ("description.text", Fixtures.sample_text ++ Fixtures.sample_text))
    by (vm_compute; reflexivity).
  rewrite E in H. destruct H as [-> _]. vm_compute. reflexivity.
Defined.

(** ** The store: lookups after an append, and what opening rebuilds *)
Module IndexFacts.
Import Text Store StoreFacts.

Lemma member_after_insert (id x : string) (S : gset string) :
  bool_decide (id ∈ ({[ x ]} ∪ S : gset string)) = String.eqb id x || bool_decide (id ∈ S).
Proof.
  destruct (String.eqb_spec id x) as [->|Hne]; simpl.
  - apply bool_decide_eq_true. apply elem_of_union. left. now apply elem_of_singleton.
  - apply bool_decide_ext. rewrite elem_of_union, elem_of_singleton. tauto.
Qed.

Lemma ensure_columns (f : csv_file) (df : DataFrame) :
  read_csv (_ensure_header_or_upgrade f) = Ok df ->
  forall c, In c _header -> In c (columns df).
Proof.
  destruct f as [| |ls|h ls].
  - intros [= <-] c Hc. exact Hc.
  - intros [= <-] c Hc. exact Hc.
  - discriminate.
  - destruct (read_csv (Sheet h ls)) as [df0|e] eqn:Er.
    + rewrite (ensure_readable (Sheet h ls) df0 ltac:(discriminate) ltac:(discriminate) Er).
      destruct (forallb (fun c => mem c (columns df0)) _header) eqn:Ea.
      * rewrite Er. intros [= <-] c Hc. apply mem_In.
        now apply (proj1 (forallb_forall _ _) Ea).
      * rewrite read_upgraded. intros [= <-] c Hc. exact Hc.
    + unfold _ensure_header_or_upgrade. rewrite Er. rewrite Er. discriminate.
Qed.

Lemma ensure_unreadable (f : csv_file) (e : string) :
  read_csv (_ensure_header_or_upgrade f) = Raised e -> _ensure_header_or_upgrade f = f.
Proof.
  destruct f as [| |ls|h ls]; try discriminate; [reflexivity|].
  destruct (read_csv (Sheet h ls)) as [df0|e0] eqn:Er.
  - rewrite (ensure_readable (Sheet h ls) df0 ltac:(discriminate) ltac:(discriminate) Er).
    destruct (forallb (fun c => mem c (columns df0)) _header); [reflexivity|].
    rewrite read_upgraded. discriminate.
  - unfold _ensure_header_or_upgrade. now rewrite Er.
Qed.

Lemma filter_none (p : string -> bool) (l : list string) :
  (forall x, In x l -> p x = false) -> List.filter p l = [].
Proof.
  induction l as [|x l IH]; intros H; simpl; [reflexivity|].
  rewrite (H x (or_introl eq_refl)). apply IH. intros y Hy. apply H. now right.
Qed.

Lemma dropna_repeat (v : string) (n : nat) : truthy v = true -> dropna (repeat v n) = repeat v n.
Proof.
  intros Hv. unfold dropna. induction n as [|n IH]; simpl; [reflexivity|].
  now rewrite Hv, IH.
Qed.

Lemma unique_dropna_repeat (v : string) (n : nat) :
  truthy v = true ->
  unique (dropna (repeat v n)) = match n with 0 => [] | _ => [v] end%nat.
Proof.
  intros Hv. rewrite (dropna_repeat v n Hv). destruct n as [|n]; [reflexivity|].
  simpl. f_equal. apply filter_none. intros x Hx.
  apply DedupFacts.unique_In, repeat_spec in Hx. subst x. now rewrite String.eqb_refl.
Qed.

Lemma getitem_known (cols : list string) (c : string) (r : row) :
  In c cols -> getitem cols c r = Ok (cell_of cols c r).
Proof.
  intros Hin. unfold getitem, cell_of. destruct (col_index_In c cols Hin) as [i ->].
  reflexivity.
Qed.

(** A row counts for [_load_checked_companies]. *)
Lemma checked_row_known (cols : list string) (r : row) (acc : gset string) :
  In "company" cols -> In "company_size" cols -> In "associated_members" cols ->
  checked_row cols r acc =
  Ok (if (negb (String.eqb (cell_of cols "company_size" r) cannot_fetch)
          || negb (String.eqb (cell_of cols "associated_members" r) cannot_fetch))
         && truthy (cell_of cols "company" r)
      then {[ cell_of cols "company" r ]} ∪ acc else acc).
Proof.
  intros Hc Hs Hm. unfold checked_row.
  rewrite (getitem_known cols "company" r Hc), (getitem_known cols "company_size" r Hs),
    (getitem_known cols "associated_members" r Hm).
  destruct (negb (String.eqb (cell_of cols "company_size" r) cannot_fetch)); simpl.
  - now destruct (truthy (cell_of cols "company" r)).
  - destruct (negb (String.eqb (cell_of cols "associated_members" r) cannot_fetch)); simpl;
      [now destruct (truthy (cell_of cols "company" r)) | reflexivity].
Qed.

Lemma checked_rows_known (cols : list string) (rs : list row) :
  In "company" cols -> In "company_size" cols -> In "associated_members" cols ->
  forall acc, exists checked,
    checked_rows cols rs acc = Ok checked /\
    forall name,
      name ∈ checked <->
      name ∈ acc \/
      (name <> "" /\
       exists r, In r rs /\ cell_of cols "company" r = name /\
                 (cell_of cols "company_size" r <> cannot_fetch \/
                  cell_of cols "associated_members" r <> cannot_fetch)).
Proof.
  intros Hc Hs Hm. induction rs as [|r rs IH]; intros acc.
  - exists acc. split; [reflexivity|]. intros name. split; [now left|].
    intros [H | (_ & r & [] & _)]. exact H.
  - simpl. rewrite (checked_row_known cols r acc Hc Hs Hm).
    match goal with |- context [checked_rows cols rs ?a] => destruct (IH a) as (checked & E & Hspec) end.
    exists checked. split; [exact E|]. intros name. rewrite Hspec. clear Hspec E.
    destruct (negb (String.eqb (cell_of cols "company_size" r) cannot_fetch)
              || negb (String.eqb (cell_of cols "associated_members" r) cannot_fetch)) eqn:Ef;
      simpl.
    + assert (Hf : cell_of cols "company_size" r <> cannot_fetch \/
                   cell_of cols "associated_members" r <> cannot_fetch).
      { apply orb_true_iff in Ef as [Ef | Ef]; apply negb_true_iff, String.eqb_neq in Ef;
          [now left | now right]. }
      destruct (truthy (cell_of cols "company" r)) eqn:Et.
      * rewrite elem_of_union, elem_of_singleton. split.
        -- intros [[-> | H] | (Hn & r' & Hin & Hr')].
           ++ right. split; [intros E0; rewrite E0 in Et; discriminate|].
              exists r. split; [now left | now split].
           ++ now left.
           ++ right. split; [exact Hn|]. exists r'. split; [now right | exact Hr'].
        -- intros [H | (Hn & r' & [<- | Hin] & Hr')].
           ++ left. now right.
           ++ left. left. symmetry. exact (proj1 Hr').
           ++ right. split; [exact Hn|]. now exists r'.
      * split.
        -- intros [H | (Hn & r' & Hin & Hr')]; [now left|].
           right. split; [exact Hn|]. exists r'. split; [now right | exact Hr'].
        -- intros [H | (Hn & r' & [<- | Hin] & Hr')]; [now left | |].
           ++ exfalso. destruct Hr' as [E0 _]. rewrite E0 in Et.
              destruct name; [now apply Hn | discriminate].
           ++ right. split; [exact Hn|]. now exists r'.
    + apply orb_false_iff in Ef as [E1 E2].
      apply negb_false_iff, String.eqb_eq in E1, E2. split.
      * intros [H | (Hn & r' & Hin & Hr')]; [now left|].
        right. split; [exact Hn|]. exists r'. split; [now right | exact Hr'].
      * intros [H | (Hn & r' & [<- | Hin] & Hr')]; [now left | |].
        -- exfalso. destruct Hr' as (_ & [H | H]); contradiction.
        -- right. split; [exact Hn|]. now exists r'.
Qed.

Lemma load_checked_known (f : csv_file) (df : DataFrame) (name : string) :
  read_csv f = Ok df ->
  In "company" (columns df) -> In "company_size" (columns df) ->
  In "associated_members" (columns df) ->
  name ∈ _load_checked_companies f <->
  name <> "" /\
  exists r, In r (rows df) /\
            cell_of (columns df) "company" r = name /\
            (cell_of (columns df) "company_size" r <> cannot_fetch \/
             cell_of (columns df) "associated_members" r <> cannot_fetch).
Proof.
  intros Er Hc Hs Hm.
  destruct (checked_rows_known (columns df) (rows df) Hc Hs Hm ∅) as (checked & E & Hspec).
  unfold _load_checked_companies. rewrite Er, E.
  assert (Hf : match f with Absent => False | _ => True end)
    by (destruct f; try exact I; discriminate Er).
  destruct f; try contradiction; rewrite Hspec; (split; [intros [H | H]|intros H]);
    try exact H; try (now right); now apply not_elem_of_empty in H.
Qed.

Lemma has_add (rec : JobRecord) (s : JobStore) (id : string) :
  has (fst (add rec (Ok tt) s)) id = String.eqb id (jobID rec) || has s id.
Proof.
  unfold add, has. cbn [fst]. destruct (negb _ || negb _); cbn [savedJobIDs];
    apply member_after_insert.
Qed.

End IndexFacts.

(** X8. Lookup after an append: once [add] has written, [has] answers
    true for the record's identifier and as before for every other one,
    the file has the record's line at its end, and the company counts as
    checked exactly when it did before or the record carries a company
    size or a member count.  An append that raises changes nothing. *)
Theorem store_add_then_has (rec : Store.JobRecord) (s : Store.JobStore) :
  let s1 := fst (Store.add rec (Ok tt) s) in
  Store.has s1 (Store.jobID rec) = true /\
  (forall id, Store.has s1 id = String.eqb id (Store.jobID rec) || Store.has s id) /\
  Store.file s1 = Store.append_line (Store.row_of rec) (Store.file s) /\
  (forall c, Store.company_already_checked s1 c =
             String.eqb c (Store.company rec)
             && (negb (String.eqb (Store.company_size rec) Store.cannot_fetch)
                 || negb (String.eqb (Store.associated_members rec) Store.cannot_fetch))
             || Store.company_already_checked s c) /\
  (forall e, Store.add rec (Raised e) s = (s, Raised e)).
Proof.
  cbv zeta.
  assert (Hhas : forall id, Store.has (fst (Store.add rec (Ok tt) s)) id
                            = String.eqb id (Store.jobID rec) || Store.has s id).
  { intros id. unfold Store.add, Store.has. cbn [fst].
    destruct (negb _ || negb _); cbn [Store.savedJobIDs];
      apply IndexFacts.member_after_insert. }
  split; [|split; [exact Hhas|split; [|split]]].
  - rewrite Hhas. now rewrite String.eqb_refl.
  - unfold Store.add. cbn [fst]. now destruct (negb _ || negb _).
  - intros c. unfold Store.add, Store.company_already_checked. cbn [fst].
    destruct (negb _ || negb _); cbn [Store.checked_companies].
    + rewrite andb_true_r. apply IndexFacts.member_after_insert.
    + now rewrite andb_false_r.
  - reflexivity.
Qed.

(** X9. Opening a store never takes the positional reading of
    [_load_saved_jobIDs]: after [_ensure_header_or_upgrade] a file that
    can be read has every canonical column, [jobID] among them; a file
    that cannot be read is the file as it was, and gives no identifier:
    the index starts empty. *)
Theorem open_never_reads_positionally (f : Store.csv_file) :
  let f1 := Store._ensure_header_or_upgrade f in
  Store.file (Store.__init__ f) = f1 /\
  match Store.read_csv f1 with
  | Ok df =>
      List.Forall (fun c => In c (Store.columns df)) Store._header /\
      Store.mem "jobID" (Store.columns df) = true
  | Raised _ =>
      f1 = f /\ Store._load_saved_jobIDs f1 = None /\
      Store.savedJobIDs (Store.__init__ f) = ∅
  end.
Proof.
  cbv zeta. split; [reflexivity|].
  destruct (Store.read_csv (Store._ensure_header_or_upgrade f)) as [df|e] eqn:Er.
  - pose proof (IndexFacts.ensure_columns f df Er) as Hcols.
    split; [now apply List.Forall_forall|].
    apply StoreFacts.mem_In, Hcols. cbn. tauto.
  - split; [exact (IndexFacts.ensure_unreadable f e Er)|].
    assert (Hnone : Store._load_saved_jobIDs (Store._ensure_header_or_upgrade f) = None).
    { unfold Store._load_saved_jobIDs. rewrite Er.
      now destruct (Store._ensure_header_or_upgrade f). }
    split; [exact Hnone|].
    unfold Store.__init__. cbn [Store.savedJobIDs]. now rewrite Hnone.
Qed.

(** X10. A file that reads but has no [jobID] column keeps none of its
    identifiers when the store is opened: the upgrade fills the new
    column with the sentinel, so the index knows the sentinel alone, or
    nothing when the file has no data line. *)
Theorem identifiers_lost_without_jobID_column (f : Store.csv_file) (df : Store.DataFrame) :
  Store.read_csv f = Ok df ->
  Store.mem "jobID" (Store.columns df) = false ->
  Store.file_ids (Store.file (Store.__init__ f))
  = repeat Store.cannot_fetch (length (Store.rows df)) /\
  forall id,
    Store.has (Store.__init__ f) id =
    match Store.rows df with
    | [] => false
    | _ => String.eqb id Store.cannot_fetch
    end.
Proof.
  intros Er Hj.
  assert (He : Store._ensure_header_or_upgrade f = Store.to_csv (Store.upgraded df)).
  { rewrite (StoreFacts.ensure_readable f df); try exact Er;
      try (intros ->; discriminate Er).
    destruct (forallb _ Store._header) eqn:Ea; [|reflexivity].
    assert (Store.mem "jobID" (Store.columns df) = true)
      by (apply (proj1 (forallb_forall _ _) Ea); cbn; tauto).
    congruence. }
  assert (Hcol : Store.column "jobID" (Store.upgraded df)
                 = repeat Store.cannot_fetch (length (Store.rows df))).
  { rewrite StoreFacts.upgraded_column;
      [now rewrite Hj | now apply (StoreFacts.read_csv_rectangular f) | cbn; tauto]. }
  unfold Store.__init__. rewrite He. cbn [Store.file]. split.
  - unfold Store.file_ids. rewrite StoreFacts.read_upgraded, Hcol.
    now apply IndexFacts.dropna_repeat.
  - intros id. unfold Store.has. cbn [Store.savedJobIDs].
    unfold Store._load_saved_jobIDs, Store.to_csv at 1. rewrite StoreFacts.read_upgraded.
    change (Store.mem "jobID" (Store.columns (Store.upgraded df))) with true. cbv iota.
    rewrite Hcol, (IndexFacts.unique_dropna_repeat Store.cannot_fetch _ eq_refl).
    assert (Hn : length (Store.rows df) = 0%nat <-> Store.rows df = [])
      by (destruct (Store.rows df); simpl; split; congruence).
    destruct (Store.rows df) as [|r rs]; cbn [length Store.set_of].
    + apply bool_decide_eq_false. intros H. apply elem_of_list_to_set in H.
      now apply list_elem_of_In in H.
    + destruct (String.eqb_spec id Store.cannot_fetch) as [->|Hne].
      * apply bool_decide_eq_true, elem_of_list_to_set, list_elem_of_In. now left.
      * apply bool_decide_eq_false. intros H.
        apply elem_of_list_to_set, list_elem_of_In in H. destruct H as [H | []].
        now apply Hne.
Qed.

Lemma identifiers_lost_without_jobID_column_witness :
  Store.file_ids (Store.file (Store.__init__ Fixtures.positional_store))
  = ["cannot fetch"; "cannot fetch"] /\
  Store.has (Store.__init__ Fixtures.positional_store) "3002" = false.
Proof.
  pose proof (identifiers_lost_without_jobID_column Fixtures.positional_store
                {| Store.columns := ["2021-03-01 10:00:00"; "3001"; "Engineer"; "Acme";
                                     "True"; "ok"];
                   Store.rows := [ ["2021-03-02 11:00:00"; "3002"; "Analyst"; "Initech";
                                    "True"; "ok"];
                                   ["2021-03-03 12:00:00"; "3003"; "Developer"; "Globex";
                                    "False"; "failed"] ] |}
                eq_refl eq_refl) as [H1 H2].
  split; [exact H1 | exact (H2 "3002")].
Defined.

(** X11. What [_load_checked_companies] rebuilds from a file that reads
    and has the three columns it looks at: the names, other than the
    empty one, of the companies of the lines that carry a company size
    or a member count other than the sentinel. *)
Theorem checked_companies_rebuilt (f : Store.csv_file) (df : Store.DataFrame) (name : string) :
  Store.read_csv f = Ok df ->
  Store.mem "company" (Store.columns df) = true ->
  Store.mem "company_size" (Store.columns df) = true ->
  Store.mem "associated_members" (Store.columns df) = true ->
  name ∈ Store._load_checked_companies f <->
  name <> "" /\
  exists r, In r (Store.rows df) /\
            Store.cell_of (Store.columns df) "company" r = name /\
            (Store.cell_of (Store.columns df) "company_size" r <> Store.cannot_fetch \/
             Store.cell_of (Store.columns df) "associated_members" r <> Store.cannot_fetch).
Proof.
  intros Er Hc Hs Hm. apply StoreFacts.mem_In in Hc, Hs, Hm.
  now apply IndexFacts.load_checked_known.
Qed.

Lemma checked_companies_rebuilt_witness :
  "Acme" ∈ Store._load_checked_companies
             (Store.Sheet Store._header [Store.row_of (Fixtures.record "1001")]).
Proof.
  apply (proj2 (checked_companies_rebuilt
                  (Store.Sheet Store._header [Store.row_of (Fixtures.record "1001")])
                  {| Store.columns := Store._header;
                     Store.rows := [Store.row_of (Fixtures.record "1001")] |}
                  "Acme" eq_refl eq_refl eq_refl eq_refl)).
  split; [discriminate|]. exists (Store.row_of (Fixtures.record "1001")).
  split; [now left|]. split; [reflexivity|]. left. discriminate.
Defined.

(** X12. After the upgrade of a store of the older schema, which has
    neither the company size nor the member count, no company counts as
    checked, whatever the file holds. *)
Theorem upgrade_leaves_no_company_checked (f : Store.csv_file) (df : Store.DataFrame)
    (company_name : string) :
  Store.read_csv f = Ok df ->
  Store.mem "company_size" (Store.columns df) = false ->
  Store.mem "associated_members" (Store.columns df) = false ->
  Store.company_already_checked (Store.__init__ f) company_name = false.
Proof.
  intros Er Hs Hm.
  assert (He : Store._ensure_header_or_upgrade f = Store.to_csv (Store.upgraded df)).
  { rewrite (StoreFacts.ensure_readable f df); try exact Er;
      try (intros ->; discriminate Er).
    destruct (forallb _ Store._header) eqn:Ea; [|reflexivity].
    assert (Store.mem "company_size" (Store.columns df) = true)
      by (apply (proj1 (forallb_forall _ _) Ea); cbn; tauto).
    congruence. }
  unfold Store.company_already_checked, Store.__init__. cbn [Store.checked_companies].
  rewrite He. apply bool_decide_eq_false. intros Hin.
  apply (IndexFacts.load_checked_known _ (Store.upgraded df)) in Hin;
    [|apply StoreFacts.read_upgraded | cbn; tauto | cbn; tauto | cbn; tauto].
  destruct Hin as (_ & r & Hr & _ & Hf).
  rewrite (StoreFacts.upgraded_rows df (StoreFacts.read_csv_rectangular f df Er)) in Hr.
  apply in_map_iff in Hr as (r0 & <- & _).
  change (Store.columns (Store.upgraded df)) with Store._header in Hf.
  rewrite !StoreFacts.cell_of_rebuilt in Hf by (cbn; tauto).
  rewrite Hs, Hm in Hf. destruct Hf as [Hf | Hf]; now apply Hf.
Qed.

Lemma upgrade_leaves_no_company_checked_witness :
  Store.company_already_checked (Store.__init__ Fixtures.annotated_store) "Acme" = false.
Proof.
  apply (upgrade_leaves_no_company_checked Fixtures.annotated_store
           {| Store.columns := (firstn 15 Store._header ++ ["notes"])%list;
              Store.rows := [ (firstn 15 (Store.row_of (Fixtures.record "1001"))
                               ++ ["call back on Monday"])%list ] |}
           "Acme"); reflexivity.
Defined.

(** ** Substrings *)
Module ContainsFacts.
Import Text TextFacts.

Lemma startswith_split (p s : string) : startswith p s = true -> exists b, s = p ++ b.
Proof.
  revert s. induction p as [|a p IH]; intros s H; [now exists s|].
  destruct s as [|c s]; [discriminate|]. simpl in H.
  apply andb_true_iff in H as [Hc Hs]. apply Ascii.eqb_eq in Hc. subst c.
  destruct (IH s Hs) as [b ->]. now exists b.
Qed.

Lemma contains_split (p s : string) :
  contains p s = true -> exists a b, s = a ++ p ++ b.
Proof.
  induction s as [|c s IH]; simpl; intros H.
  - rewrite orb_false_r in H. destruct (startswith_split _ _ H) as [b Hb].
    exists "", b. exact Hb.
  - apply orb_true_iff in H as [H | H].
    + destruct (startswith_split _ _ H) as [b Hb]. exists "", b. exact Hb.
    + destruct (IH H) as (a & b & ->). now exists (String c a), b.
Qed.

Lemma contains_middle (p a b : string) : contains p (a ++ p ++ b) = true.
Proof.
  apply contains_append_r, UrlFacts.startswith_contains, GuardFacts.startswith_self.
Qed.

Lemma contains_trans (a b c : string) :
  contains a b = true -> contains b c = true -> contains a c = true.
Proof.
  intros Hab Hbc. destruct (contains_split _ _ Hab) as (x & y & ->).
  destruct (contains_split _ _ Hbc) as (u & v & ->).
  rewrite !append_assoc, <- (append_assoc u x). apply contains_middle.
Qed.

Lemma contains_empty (s : string) : contains "" s = true.
Proof. now destruct s. Qed.

End ContainsFacts.

(** ** The patterns of the company page *)
Module PatternFacts.
Import Text Url Space Browser TextFacts.

Lemma span_prefix (p : ascii -> bool) (s : string) :
  all_chars p (substring 0 (span p s) s) = true.
Proof.
  induction s as [|c s IH]; [reflexivity|]. simpl. destruct (p c) eqn:E; [|reflexivity].
  simpl. now rewrite E.
Qed.

Lemma span_prefix_length (p : ascii -> bool) (s : string) :
  String.length (substring 0 (span p s) s) = span p s.
Proof.
  induction s as [|c s IH]; [reflexivity|]. simpl. destruct (p c); [|reflexivity].
  simpl. now rewrite IH.
Qed.

Lemma span_append (p : ascii -> bool) (a b : string) :
  all_chars p a = true -> span p b = 0%nat -> span p (a ++ b) = String.length a.
Proof.
  intros Ha Hb. induction a as [|c a IH]; simpl in *; [exact Hb|].
  apply andb_true_iff in Ha as [Hc Ha]. rewrite Hc. now rewrite IH.
Qed.

Lemma drop_append (a b : string) : drop (String.length a) (a ++ b) = b.
Proof. induction a as [|c a IH]; simpl; [now destruct b | exact IH]. Qed.

Lemma match_literal_ci_any_case (lit x r : string) :
  lower x = lit -> match_literal_ci lit (x ++ r) = Some r.
Proof.
  revert lit. induction x as [|c x IH]; intros lit <-; simpl; [now destruct r|].
  rewrite Ascii.eqb_refl. now apply IH.
Qed.

Lemma space_is_no_digit (c : ascii) : is_space c = true -> digit_or_comma c = false.
Proof.
  destruct c as [[] [] [] [] [] [] [] []]; vm_compute; congruence.
Qed.

Lemma members_here_shape (s g : string) :
  members_here s = Some g -> g <> "" /\ all_chars digit_or_comma g = true.
Proof.
  unfold members_here. destruct (span digit_or_comma s) as [|n] eqn:E; [discriminate|].
  destruct (spaces_then "associated" _) as [r|]; [|discriminate].
  destruct (spaces_then "members" r); [|discriminate]. intros [= <-].
  rewrite <- E. split; [|apply span_prefix].
  intros H. pose proof (span_prefix_length digit_or_comma s) as Hl.
  rewrite H, E in Hl. discriminate Hl.
Qed.

Lemma search_members_shape (s g : string) :
  search_members s = Some g -> g <> "" /\ all_chars digit_or_comma g = true.
Proof.
  induction s as [|c s IH]; simpl; [discriminate|].
  destruct (members_here (String c s)) eqn:E; [|exact IH]. intros [= <-].
  now apply members_here_shape in E.
Qed.

Lemma members_from_shape (els : list (res string)) (v : string) :
  members_from els = Ok (Some v) -> counted v.
Proof.
  induction els as [|[t|e] els IH]; simpl; try discriminate.
  destruct (search_members _) as [g|] eqn:E; [|exact IH]. intros [= <-].
  exists g. split; [reflexivity|]. now apply search_members_shape in E.
Qed.

Lemma members_over_shape (p : Page) (xpaths : list string) (v : string) :
  members_over p xpaths = Some v -> counted v.
Proof.
  induction xpaths as [|xp rest IH]; simpl; [discriminate|].
  destruct (texts p xp) as [els|e]; [|exact IH].
  destruct (members_from els) as [[v'|]|e] eqn:E; try exact IH.
  intros [= <-]. now apply members_from_shape in E.
Qed.

End PatternFacts.

Module MembersFacts.
Import Text Url Space Browser TextFacts PatternFacts.

Lemma members_here_eq (s : string) :
  members_here s =
  if (span digit_or_comma s =? 0)%nat then None
  else match spaces_then "associated" (drop (span digit_or_comma s) s) with
       | None => None
       | Some r =>
           match spaces_then "members" r with
           | None => None
           | Some _ => Some (substring 0 (span digit_or_comma s) s)
           end
       end.
Proof. unfold members_here. now destruct (span digit_or_comma s). Qed.

Lemma spaces_then_eq (lit s : string) :
  spaces_then lit s =
  if (span is_space s =? 0)%nat then None
  else match_literal_ci lit (drop (span is_space s) s).
Proof. unfold spaces_then. now destruct (span is_space s). Qed.

Lemma search_members_eq (s : string) :
  search_members s =
  match members_here s with
  | Some g => Some g
  | None => match s with
            | EmptyString => None
            | String _ s' => search_members s'
            end
  end.
Proof. now destruct s. Qed.

Lemma space_keeps_case (c : ascii) : is_space c = true -> lower_char c = c.
Proof. destruct c as [[] [] [] [] [] [] [] []]; vm_compute; congruence. Qed.

(** A word that reads, in lower case, as a literal that starts with a
    letter does not start with white space. *)
Lemma word_head (x lit : string) (a : ascii) :
  lower x = String a lit -> is_space a = false -> span is_space x = 0%nat.
Proof.
  destruct x as [|c x]; [discriminate|]. simpl. intros [= Hc _] Ha.
  destruct (is_space c) eqn:E; [|reflexivity].
  rewrite (space_keeps_case c E) in Hc. congruence.
Qed.

Lemma span_head_append (p : ascii -> bool) (a b : string) :
  a <> "" -> span p a = 0%nat -> span p (a ++ b) = 0%nat.
Proof. destruct a as [|c a]; [congruence|]. simpl. now destruct (p c). Qed.

Lemma spaces_then_word (lit w x r : string) (a : ascii) (lit' : string) :
  lit = String a lit' -> is_space a = false ->
  w <> "" -> all_chars is_space w = true -> lower x = lit ->
  spaces_then lit (w ++ x ++ r) = Some r.
Proof.
  intros -> Ha Hw Hall Hx. rewrite spaces_then_eq.
  assert (Hx0 : x <> "") by (intros ->; discriminate Hx).
  rewrite (span_append is_space w (x ++ r) Hall
             (span_head_append _ _ _ Hx0 (word_head x lit' a Hx Ha))).
  destruct w as [|c w]; [congruence|]. cbn [String.length Nat.eqb].
  change (S (String.length w)) with (String.length (String c w)).
  rewrite drop_append. now apply match_literal_ci_any_case.
Qed.

Lemma members_here_phrase (g w1 a w2 m tail : string) :
  g <> "" -> all_chars digit_or_comma g = true ->
  w1 <> "" -> all_chars is_space w1 = true -> lower a = "associated" ->
  w2 <> "" -> all_chars is_space w2 = true -> lower m = "members" ->
  members_here (g ++ w1 ++ a ++ w2 ++ m ++ tail) = Some g.
Proof.
  intros Hg Hgd Hw1 Hs1 Ha Hw2 Hs2 Hm. rewrite members_here_eq.
  assert (Hspan : span digit_or_comma (g ++ w1 ++ a ++ w2 ++ m ++ tail) = String.length g).
  { apply span_append; [exact Hgd|]. apply span_head_append; [exact Hw1|].
    destruct w1 as [|c w1]; [congruence|]. simpl in *.
    apply andb_true_iff in Hs1 as [Hc _]. now rewrite (space_is_no_digit c Hc). }
  rewrite Hspan, drop_append, UrlFacts.substring_prefix.
  destruct g as [|c g]; [congruence|]. cbn [String.length Nat.eqb].
  rewrite (spaces_then_word "associated" w1 a (w2 ++ m ++ tail) "a" "ssociated"
             eq_refl eq_refl Hw1 Hs1 Ha).
  now rewrite (spaces_then_word "members" w2 m tail "m" "embers" eq_refl eq_refl Hw2 Hs2 Hm).
Qed.

Lemma search_members_phrase (pre g w1 a w2 m tail : string) :
  all_chars (fun c => negb (digit_or_comma c)) pre = true ->
  g <> "" -> all_chars digit_or_comma g = true ->
  w1 <> "" -> all_chars is_space w1 = true -> lower a = "associated" ->
  w2 <> "" -> all_chars is_space w2 = true -> lower m = "members" ->
  search_members (pre ++ g ++ w1 ++ a ++ w2 ++ m ++ tail) = Some g.
Proof.
  intros Hpre Hg Hgd Hw1 Hs1 Ha Hw2 Hs2 Hm. induction pre as [|c pre IH].
  - rewrite search_members_eq. cbn [append].
    now rewrite (members_here_phrase g w1 a w2 m tail).
  - simpl in Hpre. apply andb_true_iff in Hpre as [Hc Hpre]. apply negb_true_iff in Hc.
    rewrite search_members_eq. rewrite members_here_eq.
    cbn [append span]. rewrite Hc. cbn [Nat.eqb]. now apply IH.
Qed.

End MembersFacts.

(** X13. The member count of a company page is stored in one form:
    [_fetch_associated_members_from_anchor] returns the empty string or
    digits and commas followed by " associated members".  When no link
    gives it, it is read off the text of the page, where the two words
    may stand in any letter case and after any white space: the first
    such count of the page is the one returned. *)
Theorem associated_members_reading (p : Browser.Page) :
  (let r := Browser._fetch_associated_members_from_anchor p in
   r = "" \/
   exists g, r = g ++ " associated members" /\ g <> "" /\
             Url.all_chars Browser.digit_or_comma g = true) /\
  (forall pre g w1 a w2 m tail : string,
      Browser.members_over p Browser.people_xpaths = None ->
      Browser.body_text p = Ok (pre ++ g ++ w1 ++ a ++ w2 ++ m ++ tail) ->
      Url.all_chars (fun c => negb (Browser.digit_or_comma c)) pre = true ->
      g <> "" -> Url.all_chars Browser.digit_or_comma g = true ->
      w1 <> "" -> Url.all_chars Text.is_space w1 = true -> Text.lower a = "associated" ->
      w2 <> "" -> Url.all_chars Text.is_space w2 = true -> Text.lower m = "members" ->
      Browser._fetch_associated_members_from_anchor p = g ++ " associated members").
Proof.
  split.
  - cbv zeta. unfold Browser._fetch_associated_members_from_anchor.
    destruct (Browser.members_over p Browser.people_xpaths) as [v|] eqn:E.
    + right. exact (PatternFacts.members_over_shape p _ v E).
    + destruct (Browser.body_text p) as [body|e]; [|now left].
      destruct (Browser.search_members body) as [g|] eqn:Es; [|now left].
      right. exists g. split; [reflexivity|].
      exact (PatternFacts.search_members_shape body g Es).
  - intros pre g w1 a w2 m tail Hover Hbody Hpre Hg Hgd Hw1 Hs1 Ha Hw2 Hs2 Hm.
    unfold Browser._fetch_associated_members_from_anchor. rewrite Hover, Hbody.
    now rewrite (MembersFacts.search_members_phrase pre g w1 a w2 m tail).
Qed.

Lemma associated_members_reading_witness :
  Browser._fetch_associated_members_from_anchor
    (Fixtures.about_page "Acme - see all 1,234  Associated MEMBERS on the site")
  = "1,234 associated members".
Proof.
  refine (proj2 (associated_members_reading
                   (Fixtures.about_page
                      "Acme - see all 1,234  Associated MEMBERS on the site"))
            "Acme - see all " "1,234" "  " "Associated" " " "MEMBERS" " on the site"
            eq_refl eq_refl eq_refl _ eq_refl _ eq_refl eq_refl _ eq_refl eq_refl);
    discriminate.
Defined.

Module SizeFacts.
Import Text Url Space Browser SpaceFacts.

Lemma size_from_dts_normal (l : list (res string * res string)) (val : string) :
  size_from_dts l = Ok (Some val) -> _normalize_space val = val /\ val <> "".
Proof.
  induction l as [|[[t|e] dd] l IH]; simpl; try discriminate.
  destruct (negb (String.eqb (lower (_normalize_space (str_or t ""))) "company size"));
    [exact IH|].
  destruct dd as [d|e]; [|exact IH].
  destruct (truthy (_normalize_space (str_or d ""))) eqn:E; [|exact IH].
  intros [= <-]. split; [apply normalize_space_idem|].
  intros H. rewrite H in E. discriminate E.
Qed.

Lemma fetch_company_size_normal (p : Page) :
  _normalize_space (_fetch_company_size_from_about_dtdd p)
  = _fetch_company_size_from_about_dtdd p.
Proof.
  unfold _fetch_company_size_from_about_dtdd.
  destruct (_is_authwall_or_checkpoint p); [reflexivity|]. cbv zeta.
  assert (Hbody : _normalize_space
                    (match body_text p with
                     | Raised _ => ""
                     | Ok body_txt =>
                         match search_size body_txt with
                         | Some g => _normalize_space g
                         | None => ""
                         end
                     end)
                  = match body_text p with
                    | Raised _ => ""
                    | Ok body_txt =>
                        match search_size body_txt with
                        | Some g => _normalize_space g
                        | None => ""
                        end
                    end).
  { destruct (body_text p) as [b|e]; [|reflexivity].
    destruct (search_size b); [apply normalize_space_idem | reflexivity]. }
  destruct (dts p) as [l|e]; [|exact Hbody].
  destruct (size_from_dts l) as [[val|]|e] eqn:E; try exact Hbody.
  now apply size_from_dts_normal in E.
Qed.

End SizeFacts.

(** X14. The company size is stored normalised:
    [_fetch_company_size_from_about_dtdd] returns a text with single
    spaces, none at either end and no other white space; on a page taken
    for an authwall it returns the empty string; and the value next to
    the first label that reads "company size", in any letter case and
    spacing, is the one returned when it is not empty. *)
Theorem company_size_reading (p : Browser.Page) :
  let r := Browser._fetch_company_size_from_about_dtdd p in
  Space._normalize_space r = r /\
  (Browser._is_authwall_or_checkpoint p = true -> r = "") /\
  (forall label value rest,
      Browser._is_authwall_or_checkpoint p = false ->
      Browser.dts p = Ok ((Ok label, Ok value) :: rest) ->
      Text.lower (Space._normalize_space label) = "company size" ->
      Space._normalize_space value <> "" ->
      r = Space._normalize_space value).
Proof.
  cbv zeta. split; [apply SizeFacts.fetch_company_size_normal|]. split.
  - intros Ha. unfold Browser._fetch_company_size_from_about_dtdd. now rewrite Ha.
  - intros label value rest Ha Hd Hl Hv.
    unfold Browser._fetch_company_size_from_about_dtdd. rewrite Ha, Hd. cbv zeta.
    cbn [Browser.size_from_dts]. unfold Text.str_or.
    assert (El : Text.truthy label = true)
      by (destruct label; [discriminate Hl | reflexivity]).
    rewrite El, Hl. cbn [String.eqb negb].
    assert (Ev : Text.truthy value = true).
    { destruct value; [|reflexivity]. now contradiction Hv. }
    rewrite Ev.
    destruct (Space._normalize_space value) eqn:E; [now contradiction Hv | reflexivity].
Qed.

Lemma company_size_reading_witness :
  Browser._fetch_company_size_from_about_dtdd
    (Fixtures.company_page "https://www.linkedin.com/company/acme/about/" "About us"
       [(Ok " Company  size ", Ok "51-200   employees"); (Ok "Founded", Ok "1999")])
  = "51-200 employees"
  /\ Browser._fetch_company_size_from_about_dtdd
       (Fixtures.company_page "https://www.linkedin.com/authwall?trk=x" "About us"
          [(Ok "Company size", Ok "51-200 employees")])
     = "".
Proof.
  split.
  - refine (proj2 (proj2 (company_size_reading
                            (Fixtures.company_page
                               "https://www.linkedin.com/company/acme/about/" "About us"
                               [(Ok " Company  size ", Ok "51-200   employees");
                                (Ok "Founded", Ok "1999")])))
              " Company  size " "51-200   employees" [(Ok "Founded", Ok "1999")]
              eq_refl eq_refl eq_refl _).
    vm_compute. discriminate.
  - refine (proj1 (proj2 (company_size_reading
                            (Fixtures.company_page
                               "https://www.linkedin.com/authwall?trk=x" "About us"
                               [(Ok "Company size", Ok "51-200 employees")])))
              eq_refl).
Defined.

(** The pattern of the fallback on pages as the site writes them: a
    range or an open range on the line after the label, which may be in
    any letter case; a size on the line of the label itself is not read. *)
Example company_size_from_text :
  Browser._fetch_company_size_from_about_dtdd
    (Fixtures.about_page "Overview
Company size
1,001-5,000 employees
Headquarters")
  = "1,001-5,000 employees" /\
  Browser._fetch_company_size_from_about_dtdd
    (Fixtures.about_page "COMPANY SIZE 
   10,001+   employees (7,432 on the site)")
  = "10,001+ employees" /\
  Browser._fetch_company_size_from_about_dtdd
    (Fixtures.about_page "Company size 51 - 200 employees")
  = "".
Proof. vm_compute. repeat split. Qed.

(** ** The company link and the company page *)
Module AboutFacts.
Import Text Url Space Browser TextFacts StripFacts ContainsFacts.

Lemma first_href_shape (needle : string) (els : list (res (option string))) (h : string) :
  first_href needle els = Ok (Some h) -> contains needle h = true /\ strip h = h.
Proof.
  induction els as [|[attr|e] els IH]; simpl; try discriminate.
  destruct (contains needle (strip _)) eqn:E; [|exact IH].
  intros [= <-]. split; [exact E | apply strip_idem].
Qed.

Lemma first_over_shape (p : Page) (needle : string) (sels : list string) (h : string) :
  first_over p needle sels = Some h -> contains needle h = true /\ strip h = h.
Proof.
  induction sels as [|sel sels IH]; simpl; [discriminate|].
  destruct (hrefs p sel) as [els|e]; [|exact IH].
  destruct (first_href needle els) as [[h'|]|e] eqn:E; try exact IH.
  intros [= <-]. now apply first_href_shape in E.
Qed.

Lemma extract_shape (p : Page) :
  extract_company_url_from_job_detail p = "" \/
  (contains "/company/" (extract_company_url_from_job_detail p) = true /\
   strip (extract_company_url_from_job_detail p) = extract_company_url_from_job_detail p).
Proof.
  unfold extract_company_url_from_job_detail.
  destruct (first_over p "/company/" css_candidates) as [h|] eqn:E.
  - right. now apply first_over_shape in E.
  - destruct (hrefs p company_anchors) as [els|e]; [|now left].
    destruct (first_href "linkedin.com/company/" els) as [[h|]|e] eqn:Ef; try now left.
    right. apply first_href_shape in Ef as [Hc Hs]. split; [|exact Hs].
    now apply (contains_trans "/company/" "linkedin.com/company/" h).
Qed.

Lemma contains_truthy (needle s : string) :
  truthy needle = true -> contains needle s = true -> truthy s = true.
Proof. destruct s; [now destruct needle | reflexivity]. Qed.

Lemma wait_cons (p : Page) (polls : list Page) :
  wait_company_link_ready (p :: polls) =
  if _is_authwall_or_checkpoint p then false
  else if truthy (extract_company_url_from_job_detail p) then true
       else wait_company_link_ready polls.
Proof.
  cbn [wait_company_link_ready]. unfold extract_company_url_from_job_detail.
  destruct (_is_authwall_or_checkpoint p); [reflexivity|].
  destruct (first_over p "/company/" css_candidates) as [h|] eqn:E.
  - apply first_over_shape in E as [Hc _].
    now rewrite (contains_truthy "/company/" h eq_refl Hc).
  - destruct (hrefs p company_anchors) as [els|e]; [|reflexivity].
    destruct (first_href "linkedin.com/company/" els) as [[h|]|e] eqn:Ef; try reflexivity.
    apply first_href_shape in Ef as [Hc _].
    now rewrite (contains_truthy "linkedin.com/company/" h eq_refl Hc).
Qed.

Lemma wait_one (p : Page) :
  wait_company_link_ready [p]
  = negb (_is_authwall_or_checkpoint p) && truthy (extract_company_url_from_job_detail p).
Proof.
  rewrite wait_cons. destruct (_is_authwall_or_checkpoint p); [reflexivity|].
  now destruct (truthy _).
Qed.

Lemma wait_found (polls : list Page) :
  wait_company_link_ready polls = true ->
  exists p, In p polls /\ _is_authwall_or_checkpoint p = false /\
            contains "/company/" (extract_company_url_from_job_detail p) = true.
Proof.
  induction polls as [|p polls IH]; [discriminate|].
  rewrite wait_cons. destruct (_is_authwall_or_checkpoint p) eqn:Ea; [discriminate|].
  destruct (truthy (extract_company_url_from_job_detail p)) eqn:Et.
  - intros _. exists p. split; [now left|]. split; [exact Ea|].
    destruct (extract_shape p) as [E | [Hc _]]; [rewrite E in Et; discriminate | exact Hc].
  - intros H. destruct (IH H) as (q & Hq & Hrest). exists q. split; [now right | exact Hrest].
Qed.

(** The normalised address is a text without a slash at its end, and a
    slash. *)
Lemma normalize_ends (u : string) :
  _normalize_company_url u = "" \/
  exists x, _normalize_company_url u = x ++ "/" /\ rstrip_slash x = x.
Proof.
  unfold _normalize_company_url. destruct (negb (truthy (strip u))); [now left|].
  destruct (search (strip u)) as [g|]; [|now left].
  right. exists (rstrip_slash g). split; [reflexivity|]. apply rstrip_by_idem.
Qed.

Lemma about_url_of_root (x : string) :
  rstrip_slash x = x -> rstrip_slash (x ++ "/") ++ "/about/" = (x ++ "/") ++ "about/".
Proof.
  intros Hx. unfold rstrip_slash in *.
  rewrite (UrlFacts.rstrip_by_spaces (fun c => Ascii.eqb c "/") x "/" eq_refl), Hx.
  now rewrite append_assoc.
Qed.

Lemma normalize_root_slug (slug rest : string) :
  is_slug slug = true -> is_suffix rest = true ->
  _normalize_company_url (company_root ++ slug ++ rest) = company_root ++ slug ++ "/".
Proof.
  intros Hs Hr. unfold _normalize_company_url.
  destruct (UrlFacts.strip_root_slug slug rest Hs Hr) as (rest' & Hr' & ->).
  rewrite (UrlFacts.search_root_slug slug rest' Hs Hr').
  change (truthy (company_root ++ slug ++ rest')) with true. cbn [negb].
  assert (Hid : rstrip_slash slug = slug).
  { apply UrlFacts.rstrip_by_id. unfold is_slug in Hs.
    apply andb_true_iff in Hs as [_ Hs]. revert Hs.
    apply UrlFacts.all_chars_weaken. intros c.
    unfold slug_char. rewrite andb_true_iff, !negb_true_iff, !orb_false_iff. tauto. }
  unfold rstrip_slash in *. rewrite rstrip_by_keeps.
  - now rewrite Hid, append_assoc.
  - rewrite Hid. unfold is_slug in Hs. now destruct slug.
Qed.

Lemma any_in_found (needles : list string) (key s : string) :
  In key needles -> contains key s = true -> any_in needles s = true.
Proof. intros Hin Hc. apply existsb_exists. now exists key. Qed.

Lemma str_or_sentinel (v : string) : str_or v Store.cannot_fetch <> "".
Proof. now destruct v. Qed.

Lemma size_or_sentinel (p : Page) :
  _normalize_space (str_or (_fetch_company_size_from_about_dtdd p) Store.cannot_fetch)
  = str_or (_fetch_company_size_from_about_dtdd p) Store.cannot_fetch.
Proof.
  pose proof (SizeFacts.fetch_company_size_normal p) as H.
  now destruct (_fetch_company_size_from_about_dtdd p).
Qed.

Lemma members_or_sentinel (p : Page) :
  str_or (_fetch_associated_members_from_anchor p) Store.cannot_fetch = Store.cannot_fetch \/
  counted (str_or (_fetch_associated_members_from_anchor p) Store.cannot_fetch).
Proof.
  assert (H : _fetch_associated_members_from_anchor p = "" \/
              counted (_fetch_associated_members_from_anchor p)).
  { unfold _fetch_associated_members_from_anchor.
    destruct (members_over p people_xpaths) as [v|] eqn:Ev.
    - right. exact (PatternFacts.members_over_shape p _ v Ev).
    - destruct (body_text p) as [b|e]; [|now left].
      destruct (search_members b) as [g|] eqn:Eg; [|now left].
      right. exists g. split; [reflexivity|]. exact (PatternFacts.search_members_shape b g Eg). }
  destruct H as [-> | H]; [now left | right].
  destruct H as (g & E & Hg & Hd). rewrite E. exists g.
  split; [|now split]. unfold members_text. now destruct g.
Qed.

Lemma about_url_root_slug (slug : string) :
  is_slug slug = true ->
  rstrip_slash (company_root ++ slug ++ "/") ++ "/about/" = company_root ++ slug ++ "/about/".
Proof.
  intros Hs.
  assert (Hid : rstrip_slash slug = slug).
  { apply UrlFacts.rstrip_by_id. unfold is_slug in Hs.
    apply andb_true_iff in Hs as [_ Hs]. revert Hs.
    apply UrlFacts.all_chars_weaken. intros c.
    unfold slug_char. rewrite andb_true_iff, !negb_true_iff, !orb_false_iff. tauto. }
  assert (Hne : slug <> "") by (unfold is_slug in Hs; now destruct slug).
  unfold rstrip_slash in *.
  rewrite <- (append_assoc company_root slug "/").
  rewrite (UrlFacts.rstrip_by_spaces (fun c => Ascii.eqb c "/") (company_root ++ slug) "/" eq_refl).
  rewrite rstrip_by_keeps by (now rewrite Hid).
  now rewrite Hid, append_assoc.
Qed.

Lemma authwall_by_address (p : Page) (url t key : string) :
  current_url p = Ok url -> title p = Ok t ->
  In key ["checkpoint"; "authwall"; "login"; "challenge"] ->
  contains key (lower url) = true ->
  _is_authwall_or_checkpoint p = true.
Proof.
  intros Hu Ht Hk Hc. unfold _is_authwall_or_checkpoint. rewrite Hu, Ht. cbv zeta.
  assert (E : str_or url "" = url) by (now destruct url). rewrite E.
  now rewrite (any_in_found _ key (lower url) Hk Hc).
Qed.

Lemma fetch_about_shape (o : Browser.AboutObs) :
  let root :=
    Url._normalize_company_url (Browser.extract_company_url_from_job_detail (Browser.a_job o)) in
  match Browser.fetch_company_about_fields_from_current_job o with
  | Raised e => root = "" /\ Browser.current_url (Browser.a_job o) = Raised e
  | Ok (url, size, members) =>
      url <> "" /\ size <> "" /\ members <> "" /\
      (if Text.truthy root then url = root ++ "about/"
       else url = Store.cannot_fetch /\ size = Store.cannot_fetch
            /\ members = Store.cannot_fetch) /\
      Space._normalize_space size = size /\
      (members = Store.cannot_fetch \/ Browser.counted members)
  end.
Proof.
  cbv zeta. unfold Browser.fetch_company_about_fields_from_current_job. cbv zeta.
  destruct (normalize_ends
              (Browser.extract_company_url_from_job_detail (Browser.a_job o)))
    as [E | (x & E & Hx)]; rewrite E.
  - cbn [Text.truthy negb].
    destruct (Browser.current_url (Browser.a_job o)) as [u|e]; [|now split].
    repeat split; try discriminate. now left.
  - assert (Ht : Text.truthy (x ++ "/") = true) by (now destruct x).
    rewrite Ht. cbn [negb]. rewrite (about_url_of_root x Hx).
    assert (Hu : (x ++ "/") ++ "about/" <> "") by (now destruct x).
    assert (Hblocked :
              (x ++ "/") ++ "about/" <> "" /\ Store.cannot_fetch <> "" /\
              Store.cannot_fetch <> "" /\ (x ++ "/") ++ "about/" = (x ++ "/") ++ "about/" /\
              Space._normalize_space Store.cannot_fetch = Store.cannot_fetch /\
              (Store.cannot_fetch = Store.cannot_fetch \/ Browser.counted Store.cannot_fetch))
      by (repeat split; try assumption; try discriminate; now left).
    destruct (Browser.a_load o) as [[]|e]; [|exact Hblocked].
    destruct (Browser._is_authwall_or_checkpoint (Browser.a_loaded o)); [exact Hblocked|].
    assert (Hurl : Text.str_or ((x ++ "/") ++ "about/") Store.cannot_fetch
                   = (x ++ "/") ++ "about/") by (now destruct x).
    rewrite Hurl. split; [exact Hu|].
    split; [apply str_or_sentinel|].
    split; [apply str_or_sentinel|].
    split; [reflexivity|].
    split; [apply size_or_sentinel | apply members_or_sentinel].
Qed.

End AboutFacts.

(** X15. The company link: [extract_company_url_from_job_detail] returns
    the empty string or an address, stripped, that contains "/company/";
    and [wait_company_link_ready] agrees with it: on one pass it succeeds
    exactly when the page is taken for no authwall and the extraction
    finds an address, and when it succeeds some pass saw such a page. *)
Theorem company_link_reading :
  (forall p : Browser.Page,
      let u := Browser.extract_company_url_from_job_detail p in
      u = "" \/ (Text.contains "/company/" u = true /\ Text.strip u = u)) /\
  (forall p : Browser.Page,
      Browser.wait_company_link_ready [p]
      = negb (Browser._is_authwall_or_checkpoint p)
        && Text.truthy (Browser.extract_company_url_from_job_detail p)) /\
  (forall polls : list Browser.Page,
      Browser.wait_company_link_ready polls = true ->
      exists p, In p polls /\ Browser._is_authwall_or_checkpoint p = false /\
                Text.contains "/company/" (Browser.extract_company_url_from_job_detail p)
                = true).
Proof.
  split; [exact AboutFacts.extract_shape|].
  split; [exact AboutFacts.wait_one | exact AboutFacts.wait_found].
Qed.

Lemma company_link_reading_witness :
  exists p, In p [Fixtures.job_page "  /company/acme/life  "] /\
            Browser._is_authwall_or_checkpoint p = false /\
            Text.contains "/company/" (Browser.extract_company_url_from_job_detail p) = true.
Proof.
  apply (proj2 (proj2 company_link_reading) [Fixtures.job_page "  /company/acme/life  "]).
  reflexivity.
Defined.

(** X16. What [fetch_company_about_fields_from_current_job] gives back.
    It raises only when no company address could be normalised and the
    browser cannot tell its current address for the log line.  Otherwise
    none of the three values is empty; without a normalised address all
    three are the sentinel; with one, the first value is that address
    followed by "about/", the size is normalised text and the member
    count is the sentinel or a count in its one form. *)
Theorem about_fields_shape (o : Browser.AboutObs) :
  let root :=
    Url._normalize_company_url (Browser.extract_company_url_from_job_detail (Browser.a_job o)) in
  match Browser.fetch_company_about_fields_from_current_job o with
  | Raised e => root = "" /\ Browser.current_url (Browser.a_job o) = Raised e
  | Ok (url, size, members) =>
      url <> "" /\ size <> "" /\ members <> "" /\
      (if Text.truthy root then url = root ++ "about/"
       else url = Store.cannot_fetch /\ size = Store.cannot_fetch
            /\ members = Store.cannot_fetch) /\
      Space._normalize_space size = size /\
      (members = Store.cannot_fetch \/ Browser.counted members)
  end.
Proof. exact (AboutFacts.fetch_about_shape o). Qed.

(** X17. A company whose own name holds one of the words the authwall
    check looks for in the address ("checkpoint", "authwall", "login",
    "challenge", in any letter case) never gets its size or its member
    count: when the browser shows the company page it was sent to, the
    page is taken for an authwall, and the address comes back with the
    sentinel twice. *)
Theorem company_named_like_an_authwall (o : Browser.AboutObs) (slug rest key t : string) :
  Url.is_slug slug = true -> Url.is_suffix rest = true ->
  In key ["checkpoint"; "authwall"; "login"; "challenge"] ->
  Text.contains key (Text.lower slug) = true ->
  Browser.extract_company_url_from_job_detail (Browser.a_job o)
  = Url.company_root ++ slug ++ rest ->
  Browser.current_url (Browser.a_loaded o) = Ok (Url.company_root ++ slug ++ "/about/") ->
  Browser.title (Browser.a_loaded o) = Ok t ->
  Browser.fetch_company_about_fields_from_current_job o
  = Ok (Url.company_root ++ slug ++ "/about/", Store.cannot_fetch, Store.cannot_fetch).
Proof.
  intros Hs Hr Hk Hc Hx Hu Ht.
  unfold Browser.fetch_company_about_fields_from_current_job. cbv zeta.
  rewrite Hx, (AboutFacts.normalize_root_slug slug rest Hs Hr).
  change (Text.truthy (Url.company_root ++ slug ++ "/")) with true. cbn [negb].
  rewrite (AboutFacts.about_url_root_slug slug Hs).
  destruct (Browser.a_load o) as [[]|e]; [|reflexivity].
  rewrite (AboutFacts.authwall_by_address (Browser.a_loaded o) _ t key Hu Ht Hk);
    [reflexivity|].
  rewrite !TextFacts.lower_append.
  apply TextFacts.contains_append_r, TextFacts.contains_append_l, Hc.
Qed.

Lemma company_named_like_an_authwall_witness :
  Browser.fetch_company_about_fields_from_current_job
    (Fixtures.about_visit
       "https://www.linkedin.com/company/LoginRadius/life?trk=x"
       "https://www.linkedin.com/company/LoginRadius/about/"
       (Fixtures.company_page "https://www.linkedin.com/company/LoginRadius/about/"
          "About us" [(Ok "Company size", Ok "201-500 employees")]))
  = Ok ("https://www.linkedin.com/company/LoginRadius/about/", "cannot fetch", "cannot fetch").
Proof.
  apply (company_named_like_an_authwall
           (Fixtures.about_visit
              "https://www.linkedin.com/company/LoginRadius/life?trk=x"
              "https://www.linkedin.com/company/LoginRadius/about/"
              (Fixtures.company_page "https://www.linkedin.com/company/LoginRadius/about/"
                 "About us" [(Ok "Company size", Ok "201-500 employees")]))
           "LoginRadius" "/life?trk=x" "login" "Acme | LinkedIn");
    try reflexivity.
  cbn. tauto.
Defined.

(** The same visit for a company of another name: the three values. *)
Example about_fields_of_a_company :
  Browser.fetch_company_about_fields_from_current_job
    (Fixtures.about_visit
       "https://www.linkedin.com/company/acme/life?trk=x"
       "https://www.linkedin.com/company/acme/about/"
       (Fixtures.company_page "https://www.linkedin.com/company/acme/about/"
          "Acme has 1,234 associated members" [(Ok "Company size", Ok "201-500 employees")]))
  = Ok ("https://www.linkedin.com/company/acme/about/", "201-500 employees",
        "1,234 associated members").
Proof. vm_compute. reflexivity. Qed.

(** ** The fields of the job page *)
Module FieldsFacts.
Import Text Url Browser TextFacts StripFacts.

Lemma stripped_nonempty_In (l : list string) (x : string) :
  In x (stripped_nonempty l) -> strip x = x.
Proof.
  unfold stripped_nonempty. intros H. apply List.filter_In in H as [H _].
  apply in_map_iff in H as (y & <- & _). apply strip_idem.
Qed.

Lemma hd_stripped (l : list string) : strip (hd "" (stripped_nonempty l)) = hd "" (stripped_nonempty l).
Proof.
  destruct (stripped_nonempty l) as [|x l'] eqn:E; [reflexivity|].
  apply (stripped_nonempty_In l). rewrite E. now left.
Qed.

Lemma str_or_empty_r (s : string) : str_or s "" = s.
Proof. now destruct s. Qed.

Lemma safe_text_stripped (p : Page) (sel : string) (many : bool) :
  strip (safe_text p sel many) = safe_text p sel many.
Proof.
  unfold safe_text. destruct many.
  - destruct (texts p sel) as [els|e]; [|reflexivity].
    destruct (all_texts els); [apply strip_idem | reflexivity].
  - destruct (first_text p sel); [apply strip_idem | reflexivity].
Qed.

Lemma first_bullet_stripped (p : Page) : strip (first_bullet p) = first_bullet p.
Proof.
  unfold first_bullet. destruct (texts p _) as [els|e]; [|reflexivity].
  destruct (all_texts els); [apply hd_stripped | reflexivity].
Qed.

Lemma criteria_item_stripped (txt : string) (acc : Criteria) :
  criteria_stripped acc -> criteria_stripped (criteria_item txt acc).
Proof.
  intros (H1 & H2 & H3). unfold criteria_item.
  destruct (stripped_nonempty (split_lines "" (strip txt))) as [|k [|v l]] eqn:E;
    try (now repeat split).
  assert (Hv : strip v = v).
  { apply (stripped_nonempty_In (split_lines "" (strip txt))). rewrite E. right. now left. }
  destruct (contains "workplace type" (lower k)); [now repeat split|].
  destruct (contains "seniority level" (lower k)); [now repeat split|].
  destruct (contains "employment type" (lower k)); now repeat split.
Qed.

Lemma criteria_items_stripped (items : list (res string)) :
  forall acc, criteria_stripped acc -> criteria_stripped (criteria_items items acc).
Proof.
  induction items as [|[txt|e] items IH]; intros acc H; simpl; try exact H.
  now apply IH, criteria_item_stripped.
Qed.

Lemma job_criteria_stripped (p : Page) : criteria_stripped (job_criteria p).
Proof.
  unfold job_criteria. destruct (texts p _) as [items|e]; [|now repeat split].
  apply criteria_items_stripped. now repeat split.
Qed.

(** No bar among the characters. *)
Lemma split_bar_first (t rest : string) :
  forall cur,
    all_chars (fun c => negb (Ascii.eqb c "|")) t = true ->
    split_bar cur (t ++ " | " ++ rest) = (cur ++ t) :: split_bar "" rest.
Proof.
  induction t as [|c t IH]; intros cur Ht.
  - simpl. now rewrite append_empty_r.
  - simpl in Ht. apply andb_true_iff in Ht as [Hc Ht].
    assert (Hstep : split_bar cur (String c (t ++ " | " ++ rest))
                    = split_bar (cur ++ String c "") (t ++ " | " ++ rest)).
    { destruct t as [|c1 [|c2 t]].
      - cbn. now rewrite andb_false_r.
      - simpl in Ht. apply andb_true_iff in Ht as [Hc1 _]. apply negb_true_iff in Hc1.
        cbn. now rewrite Hc1, andb_false_r.
      - simpl in Ht. apply andb_true_iff in Ht as [Hc1 _]. apply negb_true_iff in Hc1.
        cbn. now rewrite Hc1, andb_false_r. }
    change (String c t ++ " | " ++ rest) with (String c (t ++ " | " ++ rest)).
    rewrite Hstep, (IH _ Ht). now rewrite append_assoc.
Qed.

Lemma truthy_false (s : string) : truthy s = false -> s = "".
Proof. now destruct s. Qed.

Lemma record_stripped (p : Page) (title company : string) :
  strip title = title -> strip company = company ->
  fields_stripped
    {| Collector.f_title := str_or title "";
       Collector.f_company := str_or company "";
       Collector.f_location := str_or (first_bullet p) "";
       Collector.f_workplace_type := str_or (c_workplace_type (job_criteria p)) "";
       Collector.f_seniority := str_or (c_seniority (job_criteria p)) "";
       Collector.f_employment_type := str_or (c_employment_type (job_criteria p)) "" |}.
Proof.
  intros Ht Hc. destruct (job_criteria_stripped p) as (H1 & H2 & H3).
  unfold fields_stripped. cbn [Collector.f_title Collector.f_company Collector.f_location
    Collector.f_workplace_type Collector.f_seniority Collector.f_employment_type].
  rewrite !str_or_empty_r. repeat split; try assumption. apply first_bullet_stripped.
Qed.

(** The company, once the title is known. *)
Lemma company_step (p : Page) (title : string) :
  strip title = title ->
  match
    (let company := safe_text p "a.topcard__org-name-link" false in
     let company :=
       if negb (truthy company) then safe_text p "span.topcard__flavor a" false
       else company in
     let company :=
       if negb (truthy company) then
         match Browser.title p with
         | Raised e => Raised e
         | Ok t =>
             match split_bar "" (str_or t "") with
             | _ :: second :: _ => Ok (strip second)
             | _ => Ok company
             end
         end
       else Ok company in
     match company with
     | Raised e => Raised e
     | Ok company =>
         let location := first_bullet p in
         let criteria := job_criteria p in
         Ok {| Collector.f_title := str_or title "";
               Collector.f_company := str_or company "";
               Collector.f_location := str_or location "";
               Collector.f_workplace_type := str_or (c_workplace_type criteria) "";
               Collector.f_seniority := str_or (c_seniority criteria) "";
               Collector.f_employment_type := str_or (c_employment_type criteria) "" |}
     end)
  with
  | Ok f => fields_stripped f /\ Collector.f_title f = title
  | Raised e =>
      Browser.title p = Raised e /\
      safe_text p "a.topcard__org-name-link" false = "" /\
      safe_text p "span.topcard__flavor a" false = ""
  end.
Proof.
  intros Ht. cbv zeta.
  pose proof (safe_text_stripped p "a.topcard__org-name-link" false) as H1.
  pose proof (safe_text_stripped p "span.topcard__flavor a" false) as H2.
  destruct (truthy (safe_text p "a.topcard__org-name-link" false)) eqn:E1; cbn [negb].
  - rewrite E1. cbn [negb]. split; [now apply record_stripped | apply str_or_empty_r].
  - destruct (truthy (safe_text p "span.topcard__flavor a" false)) eqn:E2; cbn [negb].
    + split; [now apply record_stripped | apply str_or_empty_r].
    + destruct (Browser.title p) as [t|e].
      * destruct (split_bar "" (str_or t "")) as [|first [|second l]];
          (split; [apply record_stripped; try assumption; apply strip_idem
                  | apply str_or_empty_r]).
      * split; [reflexivity|]. split; now apply truthy_false.
Qed.

Lemma parse_fields_shape (p : Page) :
  match parse_job_page_fields p with
  | Ok f => fields_stripped f
  | Raised e =>
      Browser.title p = Raised e /\
      (safe_text p "h1" false = "" \/
       (safe_text p "a.topcard__org-name-link" false = "" /\
        safe_text p "span.topcard__flavor a" false = ""))
  end.
Proof.
  unfold parse_job_page_fields. cbv zeta.
  destruct (truthy (safe_text p "h1" false)) eqn:Eh; cbn [negb].
  - pose proof (company_step p _ (safe_text_stripped p "h1" false)) as H. cbv zeta in H.
    match goal with
    | H : match ?x with _ => _ end |- match ?y with _ => _ end =>
        change y with x; destruct x as [f|e]
    end.
    + exact (proj1 H).
    + split; [exact (proj1 H) | right; exact (proj2 H)].
  - destruct (Browser.title p) as [t|e] eqn:Et.
    + pose proof (company_step p (strip (hd "" (split_bar "" (str_or t ""))))
                    (strip_idem _)) as H.
      cbv zeta in H. rewrite Et in H.
      match goal with
      | H : match ?x with _ => _ end |- match ?y with _ => _ end =>
          change y with x; destruct x as [f|e]
      end.
      * exact (proj1 H).
      * destruct H as [H _]. discriminate H.
    + split; [reflexivity|]. left. now apply truthy_false.
Qed.

End FieldsFacts.

(** X18. The fields [parse_job_page_fields] reads have no white space
    at either end.  The method raises only what [browser.title] raises,
    and only when the heading is missing or both company links are.
    Without a heading the title is the title of the window up to its
    first " | ", stripped. *)
Theorem job_page_fields_reading (p : Browser.Page) :
  match Browser.parse_job_page_fields p with
  | Ok f => Browser.fields_stripped f
  | Raised e =>
      Browser.title p = Raised e /\
      (Browser.safe_text p "h1" false = "" \/
       (Browser.safe_text p "a.topcard__org-name-link" false = "" /\
        Browser.safe_text p "span.topcard__flavor a" false = ""))
  end /\
  (forall t rest : string,
      Browser.safe_text p "h1" false = "" ->
      Browser.title p = Ok (t ++ " | " ++ rest) ->
      Url.all_chars (fun c => negb (Ascii.eqb c "|")) t = true ->
      exists f, Browser.parse_job_page_fields p = Ok f /\
                Collector.f_title f = Text.strip t).
Proof.
  split.
  - exact (FieldsFacts.parse_fields_shape p).
  - intros t rest Hh Ht Hbar. unfold Browser.parse_job_page_fields. cbv zeta.
    rewrite Hh. cbn [Text.truthy negb]. rewrite Ht.
    assert (Hor : Text.str_or (t ++ " | " ++ rest) "" = t ++ " | " ++ rest)
      by apply FieldsFacts.str_or_empty_r.
    rewrite Hor, (FieldsFacts.split_bar_first t rest "" Hbar). cbn [hd append].
    pose proof (FieldsFacts.company_step p (Text.strip t) (StripFacts.strip_idem t)) as H.
    cbv zeta in H. rewrite Ht, Hor, (FieldsFacts.split_bar_first t rest "" Hbar) in H.
    cbn [append] in H.
    match goal with
    | H : match ?x with _ => _ end |- exists f, ?y = Ok f /\ _ =>
        change y with x; destruct x as [f|e]
    end.
    + exists f. split; [reflexivity | exact (proj2 H)].
    + destruct H as [H _]. discriminate H.
Qed.

Lemma job_page_fields_reading_witness :
  exists f, Browser.parse_job_page_fields Fixtures.untitled_job_page = Ok f /\
            Collector.f_title f = Text.strip "  Data Engineer".
Proof.
  apply (proj2 (job_page_fields_reading Fixtures.untitled_job_page)
           "  Data Engineer" "Acme | LinkedIn"); reflexivity.
Defined.

(** The fields of that page: the second part of the window title is the
    company, the first bullet with a text is the location, and each
    criterion is the line after its label. *)
Example fields_of_untitled_job_page :
  Browser.parse_job_page_fields Fixtures.untitled_job_page
  = Ok {| Collector.f_title := "Data Engineer";
          Collector.f_company := "Acme";
          Collector.f_location := "Berlin";
          Collector.f_workplace_type := "";
          Collector.f_seniority := "Mid-Senior level";
          Collector.f_employment_type := "Full-time" |}.
Proof. vm_compute. reflexivity. Qed.

(** ** The results pages *)
Module PagingFacts.
Import Text Collector Paging.

Lemma str_of_int_nonempty (n : Z) : Browser.str_of_int n <> "".
Proof.
  unfold Browser.str_of_int.
  assert (H : forall d, d <> Decimal.Nil -> NilEmpty.string_of_uint d <> "")
    by (intros [] Hd; try discriminate; congruence).
  destruct n as [|p|p]; simpl; try discriminate.
  apply H, DecimalPos.Unsigned.to_uint_nonnil.
Qed.

Lemma join_commas_nonempty (x : string) (l : list string) :
  x <> "" -> Browser.join_commas (x :: l) <> "".
Proof. destruct x; [congruence|]. now destruct l. Qed.

Section Orchestrator.
Context {clock : Clock}.

(** A pass advances the offset by one page when it asks for the next
    page, and leaves it alone otherwise. *)
Lemma combo_iteration_offset (self : JobCollector) (pos loc : string)
    (st : ComboState) (p : PageObs) :
  match combo_iteration self pos loc st p with
  | (st1, NextPage opened) =>
      jobs_per_page st1 = (jobs_per_page st + 25)%Z /\ opened = p_next p
  | (st1, _) => jobs_per_page st1 = jobs_per_page st
  end.
Proof.
  unfold combo_iteration. destruct (p_render p); [|reflexivity].
  destruct (collect_job_ids_from_result _ _ _) as [jobIDs|e]; [|reflexivity].
  destruct (stop_empty_pages self jobIDs (empty_page_streak st)) as [streak stop].
  destruct stop; [reflexivity|]. cbn [store jobs_per_page].
  destruct jobIDs as [|jobID jobIDs]; [now split|].
  destruct (_collect_jobs self (store st) (jobID :: jobIDs) pos loc (p_listing p))
    as [store' should_stop].
  destruct should_stop; [reflexivity | now split].
Qed.

Lemma requested_starts_from (self : JobCollector) (pos loc : string) (pages : list PageObs) :
  forall st,
    let asked := requested_starts self pos loc st pages in
    asked = map (fun k => (jobs_per_page st + 25 * Z.of_nat k)%Z) (seq 1 (length asked)) /\
    jobs_per_page (fst (search_loop self pos loc st pages))
    = (jobs_per_page st + 25 * Z.of_nat (length asked))%Z /\
    (length asked <= length pages)%nat.
Proof.
  induction pages as [|p pages IH]; intros st; cbv zeta.
  - simpl. repeat split; lia.
  - cbn [requested_starts search_loop].
    pose proof (combo_iteration_offset self pos loc st p) as Hoff.
    destruct (combo_iteration self pos loc st p) as [st1 [e| | |opened]].
    + destruct (IH st1) as (H1 & H2 & H3). rewrite Hoff in H1, H2.
      repeat split; [exact H1 | exact H2 | simpl; lia].
    + simpl. repeat split; lia.
    + simpl. repeat split; lia.
    + destruct Hoff as [Hoff _]. destruct (IH st1) as (H1 & H2 & H3).
      cbn [length seq map]. rewrite <- seq_shift, map_map. repeat split.
      * f_equal; [lia|]. rewrite H1 at 1. apply map_ext. intros k. rewrite Hoff. lia.
      * rewrite H2, Hoff. lia.
      * simpl. lia.
Qed.

Lemma start_app (self : JobCollector) (before after : list (string * string * ComboObs)) :
  forall store,
    List.Forall (fun x => c_open (snd x) = Ok tt) before ->
    start self store (before ++ after) = start self (fst (start self store before)) after /\
    snd (start self store before) = Ok tt.
Proof.
  induction before as [|[[pos loc] c] before IH]; intros store Hall; [now split|].
  inversion Hall as [|? ? Hc Hrest]; subst. simpl in Hc.
  cbn [start app]. unfold _search_one_combo. rewrite Hc.
  destruct (search_loop self pos loc _ (c_pages c)) as [st e]. now apply IH.
Qed.

End Orchestrator.
End PagingFacts.

(** X19. The pages of a combination are asked for at the offsets 25, 50,
    75, ... in that order, whatever happens in between: a pass that
    raises before it gets to [open_search_page] leaves the offset as it
    is, and a pass whose [open_search_page] raises has advanced it, so
    that no offset is asked for twice.  The offset the loop ends with is
    25 times the number of calls. *)
Theorem pages_are_asked_in_order {clock : Collector.Clock}
    (self : Collector.JobCollector) (pos loc : string) (store : Store.JobStore)
    (pages : list Collector.PageObs) :
  let st0 := {| Collector.store := store; Collector.empty_page_streak := 0;
                Collector.jobs_per_page := 0 |} in
  let asked := Paging.requested_starts self pos loc st0 pages in
  asked = map (fun k => (25 * Z.of_nat k)%Z) (seq 1 (length asked)) /\
  Collector.jobs_per_page (fst (Collector.search_loop self pos loc st0 pages))
  = (25 * Z.of_nat (length asked))%Z /\
  (length asked <= length pages)%nat.
Proof.
  cbv zeta.
  exact (PagingFacts.requested_starts_from self pos loc pages
           {| Collector.store := store; Collector.empty_page_streak := 0;
              Collector.jobs_per_page := 0 |}).
Qed.

(** X20. [start] gives up at the first combination whose first page
    cannot be opened: what [open_search_page] raises there leaves
    [_search_one_combo] and [start], the store is as the combinations
    before left it, and the combinations after are not searched.  When
    every first page opens, [start] does not raise. *)
Theorem start_stops_at_failed_open {clock : Collector.Clock}
    (self : Collector.JobCollector) (store : Store.JobStore)
    (before after : list (string * string * Collector.ComboObs))
    (pos loc : string) (c : Collector.ComboObs) (e : string) :
  List.Forall (fun x => Collector.c_open (snd x) = Ok tt) before ->
  snd (Collector.start self store before) = Ok tt /\
  (Collector.c_open c = Raised e ->
   Collector.start self store (before ++ (pos, loc, c) :: after)
   = (fst (Collector.start self store before), Raised e)).
Proof.
  intros Hall. destruct (PagingFacts.start_app self before ((pos, loc, c) :: after) store Hall)
    as [Happ Hok].
  split; [exact Hok|]. intros Hc. rewrite Happ. cbn [Collector.start].
  unfold Collector._search_one_combo. now rewrite Hc.
Qed.

Lemma start_stops_at_failed_open_witness :
  let blocked := {| Collector.c_open := Raised "WebDriverException";
                    Collector.c_pages := [Fixtures.page_with ["1003"]] |} in
  let self := Collector.__init__ Fixtures.policies in
  snd (Collector.start self (Store.__init__ Store.Absent) Fixtures.two_listings) = Ok tt /\
  Collector.start self (Store.__init__ Store.Absent)
    (Fixtures.two_listings ++ [("analyst", "Berlin", blocked); ("analyst", "Paris", blocked)])
  = (fst (Collector.start self (Store.__init__ Store.Absent) Fixtures.two_listings),
     Raised "WebDriverException").
Proof.
  cbv zeta.
  pose proof (start_stops_at_failed_open
                (Collector.__init__ Fixtures.policies) (Store.__init__ Store.Absent)
                Fixtures.two_listings
                [("analyst", "Paris",
                  {| Collector.c_open := Raised "WebDriverException";
                     Collector.c_pages := [Fixtures.page_with ["1003"]] |})]
                "analyst" "Berlin"
                {| Collector.c_open := Raised "WebDriverException";
                   Collector.c_pages := [Fixtures.page_with ["1003"]] |}
                "WebDriverException"
                ltac:(repeat constructor)) as [H1 H2].
  split; [exact H1 | exact (H2 eq_refl)].
Defined.

(** X21. The date filter of the search address, as [JobCollector] sets it:
    a positive number of days [d] is sent as [f_TPR=r] and [86400 d]
    seconds, zero days are searched as seven, and only a negative number
    leaves the filter out.  The rest of the address is the easy-apply
    filter when asked for, the sort order, the keywords, the location,
    the offset and the experience levels joined by commas. *)
Theorem search_url_date_window (a : Collector.InitArgs) (position location_param : string)
    (start : Z) (experience_level : list Z) :
  let self := Collector.__init__ a in
  let d := Collector.arg_date_posted_days a in
  Browser.search_url position location_param start (Collector.date_posted_days self)
    (Collector.easy_apply_only self) experience_level
  = "https://www.linkedin.com/jobs/search/?"
    ++ (if Collector.arg_easy_apply_only a then "&f_LF=f_AL" else "")
    ++ (if (0 <? d)%Z then "&f_TPR=r" ++ Browser.str_of_int (86400 * d)
        else if (d =? 0)%Z then "&f_TPR=r604800" else "")
    ++ "&sortBy=R&keywords=" ++ position ++ location_param
    ++ "&start=" ++ Browser.str_of_int start
    ++ match experience_level with
       | [] => ""
       | _ => "&f_E=" ++ Browser.join_commas (map Browser.str_of_int experience_level)
       end.
Proof.
  cbv zeta. unfold Browser.search_url, Collector.__init__, Collector.int_or.
  cbn [Collector.date_posted_days Collector.easy_apply_only]. cbv zeta.
  assert (Hlevels :
            (if Text.truthy match experience_level with
                            | [] => ""
                            | _ => Browser.join_commas (map Browser.str_of_int experience_level)
                            end
             then "&f_E=" ++ match experience_level with
                             | [] => ""
                             | _ => Browser.join_commas
                                      (map Browser.str_of_int experience_level)
                             end
             else "")
            = match experience_level with
              | [] => ""
              | _ => "&f_E=" ++ Browser.join_commas (map Browser.str_of_int experience_level)
              end).
  { destruct experience_level as [|n l]; [reflexivity|]. cbn [map].
    pose proof (PagingFacts.join_commas_nonempty (Browser.str_of_int n)
                  (map Browser.str_of_int l) (PagingFacts.str_of_int_nonempty n)) as H.
    destruct (Browser.join_commas _); [congruence | reflexivity]. }
  rewrite Hlevels. clear Hlevels.
  assert (Hdate :
            (let days := if (Collector.arg_date_posted_days a =? 0)%Z then 7%Z
                         else Collector.arg_date_posted_days a in
             if negb (days =? 0)%Z && (0 <? days)%Z
             then "&f_TPR=r" ++ Browser.str_of_int (days * 24 * 60 * 60)
             else "")
            = (if (0 <? Collector.arg_date_posted_days a)%Z
               then "&f_TPR=r" ++ Browser.str_of_int (86400 * Collector.arg_date_posted_days a)
               else if (Collector.arg_date_posted_days a =? 0)%Z then "&f_TPR=r604800"
                    else "")).
  { cbv zeta. destruct (Z.eqb_spec (Collector.arg_date_posted_days a) 0) as [->|Hne].
    - reflexivity.
    - destruct (Z.eqb_spec (Collector.arg_date_posted_days a) 0) as [|_]; [contradiction|].
      cbn [negb andb]. destruct (0 <? Collector.arg_date_posted_days a)%Z; [|reflexivity].
      do 2 f_equal. lia. }
  cbv zeta in Hdate. rewrite Hdate.
  destruct (Collector.arg_easy_apply_only a); reflexivity.
Qed.

Module BlacklistFacts.
Import Text Collector TextFacts ContainsFacts.

Lemma title_blacklisted_word (self : JobCollector) (word title : string) :
  In word (blackListTitles self) -> title <> "" ->
  contains (lower word) (lower title) = true ->
  title_blacklisted self title = true.
Proof.
  intros Hin Ht Hc. unfold title_blacklisted.
  destruct (blackListTitles self) as [|w ws] eqn:E; [destruct Hin|].
  assert (Htr : truthy title = true) by (now destruct title). rewrite Htr. cbn [andb].
  apply existsb_exists. now exists word.
Qed.

End BlacklistFacts.

(** X22. The title blacklist reads words in any letter case and anywhere
    in the title: a listing whose title holds a blacklisted word, however
    written, is left out; the empty word leaves out every listing that
    has a title; a listing without a title is never left out.  A listing
    left out adds nothing to the store and leaves the streak of stale
    postings as it is, although its page and the fallback client have
    been read. *)
Theorem title_blacklist_reading {clock : Collector.Clock}
    (self : Collector.JobCollector) :
  (forall word before written after : string,
      In word (Collector.blackListTitles self) ->
      Text.lower written = Text.lower word ->
      before ++ written ++ after <> "" ->
      Collector.title_blacklisted self (before ++ written ++ after) = true) /\
  Collector.title_blacklisted self "" = false /\
  (forall (pos loc : string) (store : Store.JobStore) (k : Z) (jobID : string)
          (o : Collector.ListingObs) (job_url : string) (fields : Collector.Fields)
          (easy_apply : bool) (api : string * string),
      Store.has store jobID = false ->
      Collector.o_open_job_view o = Ok job_url ->
      Collector.o_fields o = Ok fields ->
      Collector.o_easy_apply o = Ok easy_apply ->
      Collector.o_api o = Ok api ->
      Collector.title_blacklisted self (Collector.f_title fields) = true ->
      Collector.collect_one self pos loc store k jobID o
      = (store, k, Collector.TitleBlacklisted)).
Proof.
  split; [|split].
  - intros word before written after Hin Hl Hne.
    apply (BlacklistFacts.title_blacklisted_word self word); [exact Hin | exact Hne|].
    rewrite !TextFacts.lower_append, Hl. apply ContainsFacts.contains_middle.
  - unfold Collector.title_blacklisted. now destruct (Collector.blackListTitles self).
  - intros pos loc store k jobID o job_url fields easy_apply [jd posted_at]
      Hhas Ho Hf He Ha Hb.
    unfold Collector.collect_one. rewrite Hhas, Ho, Hf, He, Ha. cbv zeta.
    destruct (if Collector.fetch_company_about_enabled self then _ else _) as [[u sz] m].
    now rewrite Hb.
Qed.

Lemma title_blacklist_reading_witness :
  let self :=
    Collector.__init__
      {| Collector.arg_now := "2024-02-10 12:00:00";
         Collector.arg_blacklist := [];
         Collector.arg_blackListTitles := ["Intern"; ""];
         Collector.arg_date_posted_days := 0;
         Collector.arg_stop_old_posted_enabled := true;
         Collector.arg_stop_old_posted_consecutive_limit := 3;
         Collector.arg_stop_old_posted_days_threshold := 30;
         Collector.arg_easy_apply_only := true;
         Collector.arg_stop_empty_pages_enabled := true;
         Collector.arg_stop_empty_pages_consecutive_limit := 3;
         Collector.arg_fetch_company_about_enabled := true |} in
  Collector.title_blacklisted self "Senior INTERNal Auditor" = true /\
  Collector.title_blacklisted self "Data Engineer" = true /\
  Collector.collect_one self "data engineer" "Berlin" (Store.__init__ Store.Absent) 2 "1001"
    (Fixtures.listing Fixtures.forty_days_ago)
  = (Store.__init__ Store.Absent, 2%Z, Collector.TitleBlacklisted).
Proof.
  cbv zeta.
  pose proof (title_blacklist_reading (clock := Fixtures.padded_clock)
                (Collector.__init__
                   {| Collector.arg_now := "2024-02-10 12:00:00";
                      Collector.arg_blacklist := [];
                      Collector.arg_blackListTitles := ["Intern"; ""];
                      Collector.arg_date_posted_days := 0;
                      Collector.arg_stop_old_posted_enabled := true;
                      Collector.arg_stop_old_posted_consecutive_limit := 3;
                      Collector.arg_stop_old_posted_days_threshold := 30;
                      Collector.arg_easy_apply_only := true;
                      Collector.arg_stop_empty_pages_enabled := true;
                      Collector.arg_stop_empty_pages_consecutive_limit := 3;
                      Collector.arg_fetch_company_about_enabled := true |}))
    as (H1 & _ & H3).
  split; [|split].
  - refine (H1 "Intern" "Senior " "INTERN" "al Auditor" _ eq_refl _);
      [now left | discriminate].
  - refine (H1 "" "Data Engineer" "" "" _ eq_refl _); [right; now left | discriminate].
  - refine (H3 "data engineer" "Berlin" (Store.__init__ Store.Absent) 2%Z "1001"
              (Fixtures.listing Fixtures.forty_days_ago) _ _ _ _ eq_refl eq_refl eq_refl
              eq_refl eq_refl eq_refl).
Defined.

Module LinksFacts.
Import Text Collector.

Lemma link_job_id_spec (blacklist : list string) (saved_ids : gset string)
    (link : LinkObs) (id : string) :
  link_job_id blacklist saved_ids link = Some id <->
  exists txt,
    link_text link = Ok txt /\ contains "Applied" txt = false /\
    Store.mem txt blacklist = false /\ data_job_id link = Ok (Some id) /\
    id <> "" /\ id <> "search" /\ id ∉ saved_ids.
Proof.
  unfold link_job_id. split.
  - destruct (link_text link) as [txt|]; [|discriminate].
    destruct (contains "Applied" txt) eqn:Ea; [discriminate|].
    destruct (Store.mem txt blacklist) eqn:Eb; [discriminate|].
    destruct (data_job_id link) as [[j|]|]; try discriminate.
    destruct (negb (truthy j) || String.eqb j "search") eqn:Ej; [discriminate|].
    destruct (bool_decide (j ∈ saved_ids)) eqn:Es; [discriminate|].
    intros [= <-]. apply orb_false_iff in Ej as [Ej1 Ej2].
    apply negb_false_iff in Ej1. apply String.eqb_neq in Ej2.
    apply bool_decide_eq_false in Es.
    exists txt. repeat split; try assumption. intros ->. discriminate Ej1.
  - intros (txt & -> & -> & -> & -> & Hne & Hsearch & Hsaved).
    assert (Ht : truthy id = true) by (now destruct id). rewrite Ht.
    apply String.eqb_neq in Hsearch. rewrite Hsearch. cbn [negb orb].
    now rewrite (bool_decide_eq_false_2 _ Hsaved).
Qed.

Lemma In_link_job_ids (blacklist : list string) (saved_ids : gset string)
    (links : list LinkObs) (id : string) :
  In id (link_job_ids blacklist saved_ids links) <->
  exists link, In link links /\ link_job_id blacklist saved_ids link = Some id.
Proof.
  induction links as [|link links IH]; cbn [link_job_ids].
  - split; [intros [] | intros (l & [] & _)].
  - destruct (link_job_id blacklist saved_ids link) as [j|] eqn:E.
    + split.
      * intros [<- | H]; [exists link; split; [now left | exact E]|].
        apply IH in H as (l & Hl & El). exists l. split; [now right | exact El].
      * intros (l & [<- | Hl] & El); [left; congruence|].
        right. apply IH. now exists l.
    + rewrite IH. split.
      * intros (l & Hl & El). exists l. split; [now right | exact El].
      * intros (l & [<- | Hl] & El); [congruence|]. now exists l.
Qed.

End LinksFacts.

(** X23. The identifiers [collect_job_ids_from_result] returns for a
    results page: each once, and exactly those of the cards whose text can
    be read, does not hold "Applied" and is not on the blacklist, and
    whose identifier can be read, is neither empty nor "search", and is
    not in the index.  A card that raises is passed over. *)
Theorem new_identifiers_of_a_page (blacklist : list string) (saved_ids : gset string)
    (links : list Collector.LinkObs) :
  exists ids,
    Collector.collect_job_ids_from_result blacklist saved_ids (Ok links) = Ok ids /\
    List.NoDup ids /\
    forall id,
      In id ids <->
      exists link txt,
        In link links /\
        Collector.link_text link = Ok txt /\ Text.contains "Applied" txt = false /\
        Store.mem txt blacklist = false /\
        Collector.data_job_id link = Ok (Some id) /\
        id <> "" /\ id <> "search" /\ id ∉ saved_ids.
Proof.
  eexists. split; [reflexivity|]. split; [apply DedupFacts.unique_NoDup|].
  intros id. split.
  - intros H. apply DedupFacts.unique_In, LinksFacts.In_link_job_ids in H as (link & Hl & E).
    apply LinksFacts.link_job_id_spec in E as (txt & E). now exists link, txt.
  - intros (link & txt & Hl & E). apply DedupFacts.In_unique, LinksFacts.In_link_job_ids.
    exists link. split; [exact Hl|]. apply LinksFacts.link_job_id_spec. now exists txt.
Qed.

(** X24. A record appended to a store with the canonical header, no line
    of which is longer than the header, is read back as the last row of
    the file, field by field as text, after the rows the file had: its
    identifier, its company and its enrichment values are where the
    columns say. *)
Theorem appended_record_reads_back (rec : Store.JobRecord) (s : Store.JobStore)
    (ls : list Store.row) :
  Store.file s = Store.Sheet Store._header ls ->
  List.Forall (fun l => (length l <= length Store._header)%nat) ls ->
  let s1 := fst (Store.add rec (Ok tt) s) in
  exists df df1,
    Store.read_csv (Store.file s) = Ok df /\
    Store.read_csv (Store.file s1) = Ok df1 /\
    Store.columns df1 = Store._header /\
    Store.rows df1 = (Store.rows df ++ [Store.row_of rec])%list /\
    Store.column "jobID" df1 = (Store.column "jobID" df ++ [Store.jobID rec])%list /\
    Store.column "company" df1 = (Store.column "company" df ++ [Store.company rec])%list /\
    Store.column "company_size" df1
    = (Store.column "company_size" df ++ [Store.company_size rec])%list /\
    Store.column "associated_members" df1
    = (Store.column "associated_members" df ++ [Store.associated_members rec])%list.
Proof.
  intros Hf Hlen. cbv zeta.
  assert (Hf1 : Store.file (fst (Store.add rec (Ok tt) s))
                = Store.Sheet Store._header (ls ++ [Store.row_of rec])).
  { unfold Store.add. cbn [fst]. destruct (negb _ || negb _); cbn [Store.file];
      now rewrite Hf. }
  assert (Hlen1 : List.Forall (fun l => (length l <= length Store._header)%nat)
                    (ls ++ [Store.row_of rec])).
  { apply List.Forall_app. split; [exact Hlen|]. repeat constructor. }
  rewrite Hf, Hf1.
  rewrite (StoreFacts.read_csv_short _ ls Hlen),
    (StoreFacts.read_csv_short _ (ls ++ [Store.row_of rec]) Hlen1).
  eexists. eexists. split; [reflexivity|]. split; [reflexivity|].
  split; [reflexivity|].
  assert (Hrows : map (Store.fit (length Store._header)) (ls ++ [Store.row_of rec])
                  = (map (Store.fit (length Store._header)) ls ++ [Store.row_of rec])%list).
  { now rewrite map_app. }
  unfold Store.column. cbn [Store.rows Store.columns]. rewrite Hrows, !map_app.
  repeat split.
Qed.

Lemma appended_record_reads_back_witness :
  exists df df1,
    Store.read_csv (Store.file (Store.__init__ Store.Absent)) = Ok df /\
    Store.read_csv
      (Store.file (fst (Store.add (Fixtures.record "1001") (Ok tt)
                          (Store.__init__ Store.Absent)))) = Ok df1 /\
    Store.columns df1 = Store._header /\
    Store.rows df1 = (Store.rows df ++ [Store.row_of (Fixtures.record "1001")])%list /\
    Store.column "jobID" df1 = (Store.column "jobID" df ++ ["1001"])%list /\
    Store.column "company" df1 = (Store.column "company" df ++ ["Acme"])%list /\
    Store.column "company_size" df1
    = (Store.column "company_size" df ++ ["51-200 employees"])%list /\
    Store.column "associated_members" df1
    = (Store.column "associated_members" df ++ ["120"])%list.
Proof.
  apply (appended_record_reads_back (Fixtures.record "1001") (Store.__init__ Store.Absent) []);
    [reflexivity | constructor].
Defined.

Module LocationFacts.
Import Text Location TextFacts.

Lemma remove_from_skip (old a b : string) :
  remove_from (String.length a) old (a ++ b) = remove_from 0 old b.
Proof. induction a as [|c a IH]; simpl; [reflexivity | exact IH]. Qed.

Lemma remove_from_occurrence (c : ascii) (old b : string) :
  remove_from 0 (String c old) (String c old ++ b) = remove_from 0 (String c old) b.
Proof.
  change (String c old ++ b) with (String c (old ++ b)).
  cbn [remove_from].
  change (String c (old ++ b)) with (String c old ++ b).
  rewrite (GuardFacts.startswith_self (String c old) b).
  replace (String.length (String c old) - 1)%nat with (String.length old)
    by (cbn [String.length]; lia).
  apply remove_from_skip.
Qed.

Lemma remove_from_absent (old s : string) :
  contains old s = false -> remove_from 0 old s = s.
Proof.
  induction s as [|c s IH]; [reflexivity|].
  cbn [contains]. intros H. apply orb_false_iff in H as [H1 H2].
  cbn [remove_from]. rewrite H1. now rewrite (IH H2).
Qed.

End LocationFacts.

(** X25. The location recorded with each listing is the location of the
    combination: [_search_one_combo] takes the prefix "&location=" that
    [start] has put before it off again.  A location that holds that
    text itself is recorded without it. *)
Theorem search_location_is_the_location (location before after : string) :
  (Text.contains "&location=" location = false ->
   Location.search_location (Location.location_param location) = location) /\
  (Url.all_chars (fun c => negb (Ascii.eqb c "&")) before = true ->
   Text.contains "&location=" after = false ->
   Location.search_location (Location.location_param (before ++ "&location=" ++ after))
   = before ++ after).
Proof.
  unfold Location.search_location, Location.location_param. split.
  - intros H. rewrite (LocationFacts.remove_from_occurrence "&" "location=" location).
    now apply LocationFacts.remove_from_absent.
  - intros Hb Ha.
    rewrite (LocationFacts.remove_from_occurrence "&" "location=" _).
    induction before as [|c before IH].
    + change ("" ++ "&location=" ++ after) with ("&location=" ++ after).
      change ("" ++ after) with after.
      rewrite (LocationFacts.remove_from_occurrence "&" "location=" after).
      now apply LocationFacts.remove_from_absent.
    + cbn [Url.all_chars] in Hb. apply andb_true_iff in Hb as [Hc Hb].
      apply negb_true_iff in Hc. rewrite Ascii.eqb_sym in Hc.
      change (String c before ++ "&location=" ++ after)
        with (String c (before ++ "&location=" ++ after)).
      cbn [Location.remove_from].
      change (Text.startswith "&location=" (String c (before ++ "&location=" ++ after)))
        with (Ascii.eqb "&" c
              && Text.startswith "location=" (before ++ "&location=" ++ after)).
      rewrite Hc. cbn [andb].
      change (String c before ++ after) with (String c (before ++ after)).
      f_equal. now apply IH.
Qed.

Lemma search_location_is_the_location_witness :
  Location.search_location (Location.location_param "Berlin") = "Berlin" /\
  Location.search_location (Location.location_param "Paris&location=Lyon") = "ParisLyon".
Proof.
  split.
  - apply (proj1 (search_location_is_the_location "Berlin" "" "")). reflexivity.
  - apply (proj2 (search_location_is_the_location "" "Paris" "Lyon")); reflexivity.
Defined.

(** ** What a saved record holds *)
Module RecordFacts.
Import Text Collector Listing.

Section Orchestrator.
Context {clock : Clock}.

Lemma collect_one_saved (self : JobCollector) (pos loc : string)
    (store : Store.JobStore) (k : Z) (jobID : string) (o : ListingObs)
    (store1 : Store.JobStore) (k1 : Z) (rec : Store.JobRecord) (stop : bool) :
  collect_one self pos loc store k jobID o = (store1, k1, Saved rec stop) ->
  exists job_url fields easy_apply jd posted_at,
    o_open_job_view o = Ok job_url /\ o_fields o = Ok fields /\
    o_easy_apply o = Ok easy_apply /\ o_api o = Ok (jd, posted_at) /\
    rec = {| Store.run_at := run_at self;
             Store.posted_at := posted_at;
             Store.timestamp := o_timestamp o;
             Store.jobID := jobID;
             Store.title := f_title fields;
             Store.company := f_company fields;
             Store.location := f_location fields;
             Store.workplace_type := f_workplace_type fields;
             Store.seniority := f_seniority fields;
             Store.employment_type := f_employment_type fields;
             Store.easy_apply := easy_apply;
             Store.job_description := jd;
             Store.job_url := job_url;
             Store.search_position := pos;
             Store.search_location := loc;
             Store.company_about_url := str_or (fst (fst (fetched self o))) Store.cannot_fetch;
             Store.company_size := str_or (snd (fst (fetched self o))) Store.cannot_fetch;
             Store.associated_members := str_or (snd (fetched self o)) Store.cannot_fetch |} /\
    store1 = fst (Store.add rec (Ok tt) store).
Proof.
  unfold collect_one, fetched. destruct (Store.has store jobID); [discriminate|].
  destruct (o_open_job_view o) as [job_url|]; [|discriminate].
  destruct (o_fields o) as [fields|]; [|discriminate].
  destruct (o_easy_apply o) as [easy_apply|]; [|discriminate].
  destruct (o_api o) as [[jd posted_at]|]; [|discriminate]. cbv zeta.
  assert (Hsame : (if fetch_company_about_enabled self
                   then match o_about o with
                        | Ok about => match o_back o with
                                      | Ok _ => about
                                      | Raised _ => about
                                      end
                        | Raised _ => (Store.cannot_fetch, Store.cannot_fetch, Store.cannot_fetch)
                        end
                   else (Store.cannot_fetch, Store.cannot_fetch, Store.cannot_fetch))
                  = (if fetch_company_about_enabled self
                     then match o_about o with
                          | Ok about => about
                          | Raised _ =>
                              (Store.cannot_fetch, Store.cannot_fetch, Store.cannot_fetch)
                          end
                     else (Store.cannot_fetch, Store.cannot_fetch, Store.cannot_fetch))).
  { destruct (fetch_company_about_enabled self); [|reflexivity].
    destruct (o_about o); [now destruct (o_back o) | reflexivity]. }
  rewrite Hsame. clear Hsame.
  destruct (if fetch_company_about_enabled self then _ else _) as [[u s] m].
  destruct (title_blacklisted self (f_title fields)); [discriminate|].
  destruct (o_write o) as [[]|e]; [|discriminate].
  rewrite CollectorFacts.add_ok.
  destruct (stop_old_posted self (o_now o) posted_at k) as [k' stop'].
  intros [= <- <- <- <-].
  exists job_url, fields, easy_apply, jd, posted_at. now repeat split.
Qed.

End Orchestrator.
End RecordFacts.

(** X26. What a saved record holds when the listing is read through
    [open_job_view], [parse_job_page_fields] and
    [fetch_company_about_fields_from_current_job]: its own identifier and
    the view address of that identifier, the time of the run and the
    combination searched, six fields without white space at either end,
    and three enrichment values none of which is empty, with the size
    normalised and the member count the sentinel or a count in its one
    form.  The index knows the identifier from then on. *)
Theorem saved_record_contents {clock : Collector.Clock}
    (self : Collector.JobCollector) (pos loc : string) (store : Store.JobStore) (k : Z)
    (jobID : string) (o : Collector.ListingObs)
    (get : res unit) (page : Browser.Page) (about : Browser.AboutObs)
    (store1 : Store.JobStore) (k1 : Z) (rec : Store.JobRecord) (stop : bool) :
  Collector.o_open_job_view o = Browser.open_job_view jobID get ->
  Collector.o_fields o = Browser.parse_job_page_fields page ->
  Collector.o_about o = Browser.fetch_company_about_fields_from_current_job about ->
  Collector.collect_one self pos loc store k jobID o = (store1, k1, Collector.Saved rec stop) ->
  Listing.as_browsed self pos loc jobID rec /\ Store.has store1 jobID = true.
Proof.
  intros Hview Hfields Habout Hone.
  apply RecordFacts.collect_one_saved in Hone
    as (job_url & fields & easy_apply & jd & posted_at & Ho & Hf & _ & _ & -> & ->).
  split; [|rewrite IndexFacts.has_add; cbn [Store.jobID]; now rewrite String.eqb_refl].
  rewrite Hview in Ho. unfold Browser.open_job_view in Ho.
  destruct get as [[]|e]; [|discriminate Ho]. injection Ho as <-.
  rewrite Hfields in Hf. pose proof (FieldsFacts.parse_fields_shape page) as Hshape.
  rewrite Hf in Hshape. destruct Hshape as (T1 & T2 & T3 & T4 & T5 & T6).
  assert (Henr : let v := Listing.fetched self o in
                 Text.str_or (fst (fst v)) Store.cannot_fetch <> "" /\
                 Text.str_or (snd (fst v)) Store.cannot_fetch <> "" /\
                 Text.str_or (snd v) Store.cannot_fetch <> "" /\
                 Space._normalize_space (Text.str_or (snd (fst v)) Store.cannot_fetch)
                 = Text.str_or (snd (fst v)) Store.cannot_fetch /\
                 (Text.str_or (snd v) Store.cannot_fetch = Store.cannot_fetch \/
                  Browser.counted (Text.str_or (snd v) Store.cannot_fetch))).
  { cbv zeta. unfold Listing.fetched.
    assert (Hsent : Text.str_or Store.cannot_fetch Store.cannot_fetch <> "" /\
                    Text.str_or Store.cannot_fetch Store.cannot_fetch <> "" /\
                    Text.str_or Store.cannot_fetch Store.cannot_fetch <> "" /\
                    Space._normalize_space (Text.str_or Store.cannot_fetch Store.cannot_fetch)
                    = Text.str_or Store.cannot_fetch Store.cannot_fetch /\
                    (Text.str_or Store.cannot_fetch Store.cannot_fetch = Store.cannot_fetch \/
                     Browser.counted (Text.str_or Store.cannot_fetch Store.cannot_fetch)))
      by (repeat split; try discriminate; now left).
    destruct (Collector.fetch_company_about_enabled self); [|exact Hsent].
    rewrite Habout. pose proof (AboutFacts.fetch_about_shape about) as Hs. cbv zeta in Hs.
    destruct (Browser.fetch_company_about_fields_from_current_job about)
      as [[[u s] m]|e]; [|exact Hsent].
    destruct Hs as (Hu & Hs & Hm & _ & Hn & Hc). cbn [fst snd].
    assert (Eu : Text.str_or u Store.cannot_fetch = u) by (now destruct u).
    assert (Es : Text.str_or s Store.cannot_fetch = s) by (now destruct s).
    assert (Em : Text.str_or m Store.cannot_fetch = m) by (now destruct m).
    rewrite Eu, Es, Em. now repeat split. }
  cbv zeta in Henr. destruct Henr as (E1 & E2 & E3 & E4 & E5).
  unfold Listing.as_browsed.
  cbn [Store.jobID Store.job_url Store.run_at Store.search_position Store.search_location
       Store.title Store.company Store.location Store.workplace_type Store.seniority
       Store.employment_type Store.company_about_url Store.company_size
       Store.associated_members].
  repeat split; assumption.
Qed.

Lemma saved_record_contents_witness :
  match Collector.collect_one (Collector.__init__ Fixtures.policies) "data engineer" "Berlin"
          (Store.__init__ Store.Absent) 0 "1001" Fixtures.browsed_listing with
  | (store1, _, Collector.Saved rec _) =>
      Listing.as_browsed (Collector.__init__ Fixtures.policies) "data engineer" "Berlin"
        "1001" rec /\
      Store.has store1 "1001" = true
  | _ => False
  end.
Proof.
  destruct (Collector.collect_one (Collector.__init__ Fixtures.policies) "data engineer"
              "Berlin" (Store.__init__ Store.Absent) 0 "1001" Fixtures.browsed_listing)
    as [[store1 k1] [ | |e|rec stop]] eqn:E; try (vm_compute in E; discriminate E).
  exact (saved_record_contents (Collector.__init__ Fixtures.policies) "data engineer" "Berlin"
           (Store.__init__ Store.Absent) 0 "1001" Fixtures.browsed_listing
           (Ok tt) Fixtures.untitled_job_page _ store1 k1 rec stop
           eq_refl eq_refl eq_refl E).
Defined.

(** The record of that listing. *)
Example record_of_browsed_listing :
  match Collector.collect_one (Collector.__init__ Fixtures.policies) "data engineer" "Berlin"
          (Store.__init__ Store.Absent) 0 "1001" Fixtures.browsed_listing with
  | (_, _, Collector.Saved rec _) =>
      Store.row_of rec =
      [ "2024-02-10 12:00:00"; "2024-02-09 08:30:00"; "2024-02-10 12:00:00"; "1001";
        "Data Engineer"; "Acme"; "Berlin"; ""; "Mid-Senior level"; "Full-time"; "False";
        Fixtures.sample_text; "https://www.linkedin.com/jobs/view/1001";
        "data engineer"; "Berlin";
        "https://www.linkedin.com/company/acme/about/"; "201-500 employees";
        "1,234 associated members" ]
  | _ => False
  end.
Proof. vm_compute. reflexivity. Qed.

(** ** The file under a run *)
Module AppendFacts.
Import Text Collector Listing.

Lemma lines_append (r : Store.row) (f : Store.csv_file) :
  lines (Store.append_line r f) = (lines f ++ [r])%list.
Proof. now destruct f. Qed.

Lemma add_lines (rec : Store.JobRecord) (s s1 : Store.JobStore) :
  Store.add rec (Ok tt) s = (s1, Ok tt) ->
  lines (Store.file s1) = (lines (Store.file s) ++ [Store.row_of rec])%list.
Proof.
  unfold Store.add. destruct (negb _ || negb _); intros [= <-]; cbn [Store.file];
    apply lines_append.
Qed.

Section Orchestrator.
Context {clock : Clock}.

Lemma collect_loop_appends (self : JobCollector) (pos loc : string)
    (world : nat -> string -> ListingObs) (jobIDs : list string) :
  forall (store : Store.JobStore) (k : Z) (idx : nat),
    exists new,
      lines (Store.file (fst (fst (collect_loop self pos loc world store k idx jobIDs))))
      = (lines (Store.file store) ++ new)%list /\
      sublist (map (fun l => nth 3 l "") new) jobIDs /\
      List.Forall (fun l => length l = length Store._header) new.
Proof.
  induction jobIDs as [|jobID rest IH]; intros store k idx.
  - exists []. cbn. rewrite app_nil_r. repeat split; constructor.
  - rewrite CollectorFacts.collect_loop_cons.
    pose proof (CollectorFacts.collect_one_inv self pos loc store k jobID (world idx jobID))
      as Hinv.
    destruct (collect_one self pos loc store k jobID (world idx jobID))
      as [[store1 k1] [ | |e|rec stop]].
    + destruct Hinv as [-> ->]. destruct (IH store k (S idx)) as (new & H1 & H2 & H3).
      exists new. repeat split; [exact H1 | now constructor | exact H3].
    + destruct Hinv as [-> ->]. destruct (IH store k (S idx)) as (new & H1 & H2 & H3).
      exists new. repeat split; [exact H1 | now constructor | exact H3].
    + destruct Hinv as [-> ->]. destruct (IH store k (S idx)) as (new & H1 & H2 & H3).
      exists new. repeat split; [exact H1 | now constructor | exact H3].
    + destruct Hinv as (_ & Hid & _ & Hadd & _). apply add_lines in Hadd.
      assert (Hrow : nth 3 (Store.row_of rec) "" = jobID) by (now rewrite <- Hid).
      destruct stop.
      * exists [Store.row_of rec]. cbn [fst map]. rewrite Hrow.
        repeat split; [exact Hadd | constructor; apply sublist_nil_l | repeat constructor].
      * destruct (IH store1 k1 (S idx)) as (new & H1 & H2 & H3).
        exists (Store.row_of rec :: new). cbn [map]. rewrite Hrow. repeat split.
        -- rewrite H1, Hadd. now rewrite <- app_assoc.
        -- now constructor.
        -- constructor; [reflexivity | exact H3].
Qed.

End Orchestrator.
End AppendFacts.

(** X27. [_collect_jobs] only appends: the file after the call is the
    file before, line for line, followed by one line of eighteen fields
    for each record saved, and the identifiers of the new lines are among
    those of the page, in the order of the page.  This holds for a file
    that cannot be read as well. *)
Theorem collect_jobs_only_appends {clock : Collector.Clock}
    (self : Collector.JobCollector) (store : Store.JobStore) (jobIDs : list string)
    (pos loc : string) (world : nat -> string -> Collector.ListingObs) :
  exists new,
    Listing.lines (Store.file (fst (Collector._collect_jobs self store jobIDs pos loc world)))
    = (Listing.lines (Store.file store) ++ new)%list /\
    sublist (map (fun l => nth 3 l "") new) jobIDs /\
    List.Forall (fun l => length l = 18%nat) new.
Proof.
  unfold Collector._collect_jobs.
  destruct (AppendFacts.collect_loop_appends self pos loc world jobIDs store 0 0)
    as (new & H1 & H2 & H3).
  destruct (Collector.collect_loop self pos loc world store 0 0 jobIDs) as [[store1 k1] b].
  exists new. now repeat split.
Qed.

(** X28. A run whose pages show numerals for identifiers leaves a
    well-formed store well-formed: the file keeps the canonical header,
    a field for every label on every line and a column of distinct
    numerals, can be read, and is left as it is by the schema check of
    the next opening. *)
Theorem run_keeps_store_well_formed {clock : Collector.Clock}
    (a : Collector.InitArgs) (f : Store.csv_file)
    (combos : list (string * string * Collector.ComboObs)) :
  Store.well_formed f = true ->
  Collector.run_shows Store.numeral combos = true ->
  let s := fst (Collector.run a f combos) in
  Store.well_formed (Store.file s) = true /\
  (exists ls df, Store.file s = Store.Sheet Store._header ls /\
                 List.Forall (fun l => length l = 18%nat) ls /\
                 Store.read_csv (Store.file s) = Ok df /\
                 Store.columns df = Store._header /\ length (Store.rows df) = length ls) /\
  Store._ensure_header_or_upgrade (Store.file s) = Store.file s /\
  Store.file (Store.__init__ (Store.file s)) = Store.file s.
Proof.
  intros Hwf Hshows. cbv zeta.
  destruct (DedupFacts.open_kept f Hwf) as [Hopen _].
  destruct (DedupFacts.start_kept Store.numeral (Collector.__init__ a) combos Hshows _ Hopen)
    as [Hkept _].
  fold (Collector.run a f combos) in Hkept.
  split; [now apply DedupFacts.kept_well_formed|].
  destruct Hkept as [(ls & Hfile & Hlen & _) _]. rewrite Hfile.
  split; [|split].
  - exists ls. eexists. split; [reflexivity|]. split; [exact Hlen|].
    rewrite (DedupFacts.read_csv_full _ ls Hlen). now repeat split.
  - apply StoreFacts.ensure_canonical.
  - unfold Store.__init__. cbn [Store.file]. apply StoreFacts.ensure_canonical.
Qed.

Lemma run_keeps_store_well_formed_witness :
  let s := fst (Collector.run Fixtures.policies Fixtures.annotated_store
                  Fixtures.two_listings) in
  Store.well_formed Fixtures.annotated_store = true /\
  Store.well_formed (Store.file s) = true /\
  Store._ensure_header_or_upgrade (Store.file s) = Store.file s.
Proof.
  cbv zeta. split; [reflexivity|].
  destruct (run_keeps_store_well_formed Fixtures.policies Fixtures.annotated_store
              Fixtures.two_listings eq_refl eq_refl) as (Hwf & _ & He & _).
  now split.
Defined.
